(** * Chunked file transfer of streamlet: chunker, assembler, transfer registry

    A shallow embedding of
    - [src/components/file-worker-manager.tsx]: [chunkFile],
      [processReceivedFile] and the handler of the worker's answers;
    - [src/workers/file-worker.ts]: [assembleFile], [chunkFile] and
      [self.onmessage];
    - [src/app/sharefiles/page.tsx]: [handleData], the timeouts it sets and
      [handleCompleteFileReceived]; then [sendFile] with its callbacks, the
      pause, resume and cancel controls, [handleFileAssembled] and the
      transfer history;
    - [src/contexts/PeerContext.tsx]: [sendData] and the handler of the
      connection's "close" event.

    Conventions.  Integer-valued JS numbers (sizes, chunk indices, chunk
    counts, time stamps) are [Z]; the fractional [progress] is an IEEE 754
    binary64 number, as in JS.  [Uint8Array], [ArrayBuffer] and the contents of
    a [Blob] are [list byte].  A JS [Map] keeps its entries in insertion order
    and is modelled as the list of its entries.  [Map] objects are mutated in
    place by the page and shared with the records handed to timeouts, so
    transfer records hold a reference into a store of maps.  A thrown
    exception is [None] or an error constructor.  The limits of the engine
    (memory, the largest length of a typed array) are not modelled. *)

From Stdlib Require Import ZArith List String Strings.Byte Lia.
From Stdlib Require Import Floats.PrimFloat Numbers.Cyclic.Int63.Uint63.
From Equations Require Import Equations.
From stdpp Require Import base list strings sorting.
Import ListNotations.

Open Scope Z_scope.

(** ** JS values *)

Abbreviation bytes := (list byte).

#[global] Instance byte_eq_decision : EqDecision byte := Byte.byte_eq_dec.

Definition byteLength (b : bytes) : Z := Z.of_nat (length b).

(** An integer-valued JS number, as a binary64 (exact below 2^53, where the
    integers of the source stay). *)
Definition number (z : Z) : float :=
  if z <? 0 then PrimFloat.opp (PrimFloat.of_uint63 (Uint63.of_Z (- z)))
  else PrimFloat.of_uint63 (Uint63.of_Z z).

(** [(a / b) * 100] on integer-valued numbers. *)
Definition percent (a b : Z) : float :=
  PrimFloat.mul (PrimFloat.div (number a) (number b)) (number 100).

(** [Math.ceil(a / b)].  The only divisor in the source is [chunkSize], a
    power of two, so the binary64 quotient of integers below 2^53 is exact and
    its ceiling is the ceiling of the rational quotient. *)
Definition Math_ceil_div (a b : Z) : Z := - ((- a) / b).

(** [blob.slice(start, end)] (File API): both positions are clamped to the
    blob, a negative one counts from the end. *)
Definition Blob_slice (b : bytes) (start end_ : Z) : bytes :=
  let size := byteLength b in
  let relativeStart := if start <? 0 then Z.max (size + start) 0 else Z.min start size in
  let relativeEnd := if end_ <? 0 then Z.max (size + end_) 0 else Z.min end_ size in
  let span := Z.max (relativeEnd - relativeStart) 0 in
  take (Z.to_nat span) (drop (Z.to_nat relativeStart) b).

(** [new Uint8Array(length)]: zero-filled; a negative length is a RangeError.
    So is, in an engine, a length above 2^53 - 1 or a buffer that cannot be
    allocated: this is the constructor where the engine grants the buffer. *)
Definition Uint8Array_new (length : Z) : option bytes :=
  if length <? 0 then None else Some (replicate (Z.to_nat length) x00).

(** [target.set(source, offset)]: a RangeError when the source does not fit. *)
Definition Uint8Array_set (target source : bytes) (offset : Z) : option bytes :=
  if byteLength target <? offset + byteLength source then None
  else Some (take (Z.to_nat offset) target ++ source
             ++ drop (Z.to_nat (offset + byteLength source)) target).

(** *** [Map<number, Uint8Array>] *)

Abbreviation ChunkMap := (list (Z * bytes)).

(** [m.set(k, v)]: an existing key keeps its position, a new key goes last. *)
Fixpoint Map_set (k : Z) (v : bytes) (m : ChunkMap) : ChunkMap :=
  match m with
  | [] => [(k, v)]
  | (k', v') :: m' => if k' =? k then (k, v) :: m' else (k', v') :: Map_set k v m'
  end.

Fixpoint Map_get (k : Z) (m : ChunkMap) : option bytes :=
  match m with
  | [] => None
  | (k', v') :: m' => if k' =? k then Some v' else Map_get k m'
  end.

Definition Map_has (k : Z) (m : ChunkMap) : bool :=
  match Map_get k m with Some _ => true | None => false end.

Definition Map_size (m : ChunkMap) : Z := Z.of_nat (length m).

(** ** Types of [file-worker-manager.tsx] *)

Module FileMetadata.
Record t := mk { id : string; name : string; type : string; size : Z; totalChunks : Z }.
End FileMetadata.

Module FileChunk.
Record t := mk { fileId : string; index : Z; data : bytes }.
End FileChunk.

(** A [File]: its [size] is the length of its contents. *)
Module File.
Record t := mk { name : string; type : string; contents : bytes }.
Definition size (f : t) : Z := byteLength (contents f).
End File.

(** A [Blob]: its bytes and its type, kept as given.  (The constructor puts a
    type in lower case and takes the empty string for one that is not
    printable ASCII; the [type] of a [File] has that form already.) *)
Module Blob.
Record t := mk { contents : bytes; type : string }.
End Blob.

(** ** The worker: [assembleFile] of [file-worker.ts] *)

Module FileWorker.

Record AssemblePayload := mkPayload
  { fileId : string; chunks : list bytes; metadata : FileMetadata.t }.

(** What the worker posts back to the page.  The text of the error message
    is the engine's and is not modelled. *)
Inductive Posted :=
| FILE_ASSEMBLED (fileId : string) (blob : Blob.t) (metadata : FileMetadata.t)
| ERROR (fileId : string).

(** The [for (const chunk of chunks)] loop, with its two variables. *)
Fixpoint assemble_loop (chunks : list bytes) (fileData : bytes) (offset : Z)
  : option bytes :=
  match chunks with
  | [] => Some fileData
  | chunk :: rest =>
      match Uint8Array_set fileData chunk offset with
      | Some fileData' => assemble_loop rest fileData' (offset + byteLength chunk)
      | None => None
      end
  end.

Definition assembleFile (payload : AssemblePayload) : Posted :=
  let metadata := metadata payload in
  match Uint8Array_new (FileMetadata.size metadata) with
  | None => ERROR (fileId payload)
  | Some fileData =>
      match assemble_loop (chunks payload) fileData 0 with
      | None => ERROR (fileId payload)
      | Some fileData =>
          FILE_ASSEMBLED (fileId payload)
            (Blob.mk fileData (FileMetadata.type metadata)) metadata
      end
  end.

End FileWorker.

(** ** [FileWorkerManager] of [file-worker-manager.tsx] *)

Module FileWorkerManager.

(** The comparator [([a], [b]) => a - b] orders entries by ascending key. *)
Definition by_index (a b : Z * bytes) : Prop := a.1 <= b.1.

#[global] Instance by_index_dec a b : Decision (by_index a b).
Proof. unfold by_index. apply _. Defined.

#[global] Instance by_index_trans : Transitive by_index.
Proof. unfold by_index. intros x y z. lia. Qed.

#[global] Instance by_index_total : Total by_index.
Proof. unfold by_index. intros x y. lia. Qed.

(** [processReceivedFile]: nothing is posted when the worker is missing. *)
Definition processReceivedFile (worker : bool) (fileId : string) (chunks : ChunkMap)
    (metadata : FileMetadata.t) : option FileWorker.AssemblePayload :=
  if worker then
    let sortedChunks := (merge_sort by_index chunks).*2 in
    Some (FileWorker.mkPayload fileId sortedChunks metadata)
  else None.

Definition chunkSize : Z := 16 * 1024.

(** The callbacks of [ChunkFileOptions], as the events [chunkFile] raises. *)
Inductive Callback :=
| onChunkReady (chunk : FileChunk.t)
| onProgress (progress : float)
| onComplete
| onError (error : string).

Section chunkFile.

(** [FileReader.readAsArrayBuffer]: [onload] with the bytes of the slice, or
    [onerror]. *)
Variable readAsArrayBuffer : bytes -> option bytes.
Variable file : File.t.
(** [fileId] is drawn from the clock and [Math.random]. *)
Variable fileId : string.

Definition totalChunks : Z := Math_ceil_div (File.size file) chunkSize.

Definition metadata : FileMetadata.t :=
  FileMetadata.mk fileId (File.name file) (File.type file) (File.size file) totalChunks.

(** [file.slice(start, end)] for the chunk [currentChunk]. *)
Definition chunkBlob (currentChunk : Z) : bytes :=
  let start := currentChunk * chunkSize in
  let end_ := Z.min (start + chunkSize) (File.size file) in
  Blob_slice (File.contents file) start end_.

(** [processNextChunk], re-entered through [setTimeout] after each chunk;
    [currentChunk] is its loop variable.  The callbacks are events here and
    do not throw, so the [catch] around them has no counterpart. *)
Equations? processNextChunk (currentChunk : Z) : list Callback
  by wf (Z.to_nat (totalChunks - currentChunk)) lt :=
  processNextChunk currentChunk with Z_ge_dec currentChunk totalChunks => {
    | left _ := [onComplete];
    | right _ with readAsArrayBuffer (chunkBlob currentChunk) => {
        | Some result :=
            onChunkReady (FileChunk.mk fileId currentChunk result)
            :: onProgress (percent (currentChunk + 1) totalChunks)
            :: processNextChunk (currentChunk + 1);
        | None := [onError "Failed to read file chunk"] } }.
Proof. lia. Qed.

Definition chunkFile : (string * FileMetadata.t) * list Callback :=
  ((fileId, metadata), processNextChunk 0).

End chunkFile.

(** The chunks handed to [onChunkReady], in order. *)
Definition chunksReady (cbs : list Callback) : list FileChunk.t :=
  omap (fun cb => match cb with onChunkReady c => Some c | _ => None end) cbs.

End FileWorkerManager.

(** ** The files page: [src/app/sharefiles/page.tsx]

    The receiving side of the page: [handleData], the timeouts it sets and
    [handleCompleteFileReceived].  The page state keeps what is posted to the
    worker; what the worker answers is [FileWorker.assembleFile] of it.  The
    handling of that answer ([handleFileAssembled]: history store, object
    URLs, removal of the record) and the sender's own bookkeeping in
    [sendFile] are not part of this module, which keeps of [sendFile] only
    what it hands to [sendData] ([sendFile_sent]); they are embedded in
    [FilesPage] below. *)

Module Status.
Inductive t := preparing | transferring | paused | completed | cancelled | error.

#[global] Instance eq_dec : EqDecision t.
Proof. solve_decision. Defined.
End Status.

Module Direction.
Inductive t := sending | receiving.
End Direction.

(** [chunks] holds a reference to a [Map] object of the page's store. *)
Module ActiveTransfer.
Record t := mk
  { id : string;
    metadata : FileMetadata.t;
    progress : float;
    status : Status.t;
    direction : Direction.t;
    file : option File.t;
    chunks : option nat;
    receivedSize : Z;
    startTime : Z;
    pausedAt : option Z;
    error : option string }.

(** [{ ...t, status }] *)
Definition with_status (status : Status.t) (a : t) : t :=
  mk (id a) (metadata a) (progress a) status (direction a) (file a) (chunks a)
     (receivedSize a) (startTime a) (pausedAt a) (error a).

(** [{ ...t, status: "completed", progress: 100 }] *)
Definition with_completed (a : t) : t :=
  mk (id a) (metadata a) (number 100) Status.completed (direction a) (file a) (chunks a)
     (receivedSize a) (startTime a) (pausedAt a) (error a).
End ActiveTransfer.

Module Toast.
Record t := mk { title : string; description : string; destructive : bool }.
End Toast.

(** What arrives on the connection.  [handleData] tells the shapes apart by
    the keys of the object, in this order. *)
Inductive PeerData :=
| Metadata (metadata : FileMetadata.t)
| Chunk (fileId : string) (index : Z) (data : bytes)
| Control (fileId : string) (action : string)
| Other.

(** The callbacks handed to [setTimeout]. *)
Inductive Timeout :=
| CompleteFileReceived (transfer : ActiveTransfer.t)
| RemoveTransfer (fileId : string).

Module Page.

Record t := mk
  { activeTransfers : list ActiveTransfer.t;
    maps : list ChunkMap;
    timeouts : list Timeout;
    worker : bool;
    posted : list FileWorker.AssemblePayload;
    toasts : list Toast.t }.

(** The page as it is mounted: [worker] tells whether the worker could be
    started. *)
Definition init (worker : bool) : t := mk [] [] [] worker [] [].

(** [new Map()] *)
Definition Map_new (maps : list ChunkMap) : nat * list ChunkMap :=
  (length maps, maps ++ [[]]).

(** [transfer.chunks || new Map()] *)
Definition chunks_or_new (chunks : option nat) (maps : list ChunkMap)
    : nat * list ChunkMap :=
  match chunks with
  | Some chunks => (chunks, maps)
  | None => Map_new maps
  end.

(** [chunks.size], through the reference. *)
Definition size_at (maps : list ChunkMap) (chunks : nat) : Z :=
  Map_size (default [] (maps !! chunks)).

(** [prev.map(f)] for an [f] that also writes to the store and sets timeouts. *)
Fixpoint Array_map {S A B} (f : A -> S -> B * S) (prev : list A) (s : S) : list B * S :=
  match prev with
  | [] => ([], s)
  | a :: rest =>
      let '(b, s) := f a s in
      let '(bs, s) := Array_map f rest s in
      (b :: bs, s)
  end.

(** The body of [prev.map((transfer) => ...)] in the chunk branch of
    [handleData]. *)
Definition receiveChunk (fileId : string) (index : Z) (data : bytes)
    (transfer : ActiveTransfer.t) (s : list ChunkMap * list Timeout)
    : ActiveTransfer.t * (list ChunkMap * list Timeout) :=
  let '(maps, timeouts) := s in
  if String.eqb (ActiveTransfer.id transfer) fileId
     && bool_decide (ActiveTransfer.status transfer = Status.transferring)
  then
    let '(chunks, maps) := chunks_or_new (ActiveTransfer.chunks transfer) maps in
    let maps : list ChunkMap := alter (Map_set index data) (chunks : nat) maps in
    let receivedSize := ActiveTransfer.receivedSize transfer + byteLength data in
    let totalChunks := FileMetadata.totalChunks (ActiveTransfer.metadata transfer) in
    let progress := percent (size_at maps chunks) totalChunks in
    let isComplete := size_at maps chunks =? totalChunks in
    let updated (progress : float) (status : Status.t) :=
      ActiveTransfer.mk (ActiveTransfer.id transfer) (ActiveTransfer.metadata transfer)
        progress status (ActiveTransfer.direction transfer) (ActiveTransfer.file transfer)
        (Some chunks) receivedSize (ActiveTransfer.startTime transfer)
        (ActiveTransfer.pausedAt transfer) (ActiveTransfer.error transfer) in
    let timeouts :=
      if isComplete
      then timeouts ++ [CompleteFileReceived
                          (updated (number 100) (ActiveTransfer.status transfer))]
      else timeouts in
    (updated progress (if isComplete then Status.completed else Status.transferring),
     (maps, timeouts))
  else (transfer, s).

(** [prev.map((t) => t.id === fileId ? { ...t, status } : t)] *)
Definition setStatus (fileId : string) (status : Status.t)
    (prev : list ActiveTransfer.t) : list ActiveTransfer.t :=
  map (fun t => if String.eqb (ActiveTransfer.id t) fileId
                then ActiveTransfer.with_status status t else t) prev.

(** [prev.filter((t) => t.id !== fileId)] *)
Definition remove (fileId : string) (prev : list ActiveTransfer.t) : list ActiveTransfer.t :=
  List.filter (fun t => negb (String.eqb (ActiveTransfer.id t) fileId)) prev.

(** [handleData], at clock [now]. *)
Definition handleData (now : Z) (data : PeerData) (p : t) : t :=
  match data with
  | Metadata metadata =>
      let '(chunks, maps) := Map_new (maps p) in
      let newTransfer :=
        ActiveTransfer.mk (FileMetadata.id metadata) metadata (number 0)
          Status.transferring Direction.receiving None (Some chunks) 0 now None None in
      mk (activeTransfers p ++ [newTransfer]) maps (timeouts p) (worker p) (posted p)
         (toasts p ++ [Toast.mk "Receiving File"
                         ("Starting to receive: " ++ FileMetadata.name metadata) false])
  | Chunk fileId index data =>
      let '(transfers, (maps, timeouts)) :=
        Array_map (receiveChunk fileId index data) (activeTransfers p)
          (maps p, timeouts p) in
      mk transfers maps timeouts (worker p) (posted p) (toasts p)
  | Control fileId action =>
      if String.eqb action "pause" then
        mk (setStatus fileId Status.paused (activeTransfers p)) (maps p) (timeouts p)
           (worker p) (posted p) (toasts p)
      else if String.eqb action "resume" then
        mk (setStatus fileId Status.transferring (activeTransfers p)) (maps p) (timeouts p)
           (worker p) (posted p) (toasts p)
      else if String.eqb action "cancel" then
        mk (setStatus fileId Status.cancelled (activeTransfers p)) (maps p)
           (timeouts p ++ [RemoveTransfer fileId]) (worker p) (posted p) (toasts p)
      else p
  | Other => p
  end.

(** [handleCompleteFileReceived]: the size test reads the [Map] object as it
    is when the timeout runs. *)
Definition handleCompleteFileReceived (transfer : ActiveTransfer.t) (p : t) : t :=
  match ActiveTransfer.chunks transfer with
  | Some chunks =>
      if size_at (maps p) chunks
         =? FileMetadata.totalChunks (ActiveTransfer.metadata transfer)
      then
        let posted :=
          match FileWorkerManager.processReceivedFile (worker p)
                  (ActiveTransfer.id transfer) (default [] (maps p !! chunks))
                  (ActiveTransfer.metadata transfer) with
          | Some payload => posted p ++ [payload]
          | None => posted p
          end in
        mk (map (fun t => if String.eqb (ActiveTransfer.id t) (ActiveTransfer.id transfer)
                          then ActiveTransfer.with_completed t else t)
                (activeTransfers p))
           (maps p) (timeouts p) (worker p) posted (toasts p)
      else p
  | None => p
  end.

Definition runTimeout (callback : Timeout) (p : t) : t :=
  match callback with
  | CompleteFileReceived transfer => handleCompleteFileReceived transfer p
  | RemoveTransfer fileId =>
      mk (remove fileId (activeTransfers p)) (maps p) (timeouts p) (worker p)
         (posted p) (toasts p)
  end.

(** What happens to the page: data arrives on the connection, or one of the
    pending timeouts runs.  Delays are not modelled: any pending timeout may
    run next. *)
Inductive Event :=
| data (now : Z) (d : PeerData)
| timeout (n : nat).

Definition step (e : Event) (p : t) : t :=
  match e with
  | data now d => handleData now d p
  | timeout n =>
      match timeouts p !! n with
      | Some callback =>
          runTimeout callback
            (mk (activeTransfers p) (maps p) (delete n (timeouts p)) (worker p)
                (posted p) (toasts p))
      | None => p
      end
  end.

Definition run (events : list Event) (p : t) : t :=
  fold_left (fun p e => step e p) events p.

(** What [sendFile] hands to [sendData] for a file whose reads succeed and
    while the connection is open: the metadata, then each chunk given to
    [onChunkReady].  For a file without chunks the list is the most that can
    be sent, the metadata: there [onComplete] runs inside [chunkFile], before
    [sendFile] has reached [sendData] (see [FilesPage.sendFile]), and a
    receiver may be given less. *)
Definition sendFile_sent (readAsArrayBuffer : bytes -> option bytes)
    (file : File.t) (fileId : string) : list PeerData :=
  let '((_, metadata), callbacks) :=
    FileWorkerManager.chunkFile readAsArrayBuffer file fileId in
  Metadata metadata
  :: map (fun c => Chunk (FileChunk.fileId c) (FileChunk.index c) (FileChunk.data c))
       (FileWorkerManager.chunksReady callbacks).

End Page.

(** ** Vocabulary of the statements *)

(** The arrivals [(index, data)] of one transfer, put into a [Map] in order of
    arrival, as the chunk branch of [handleData] does with [chunks.set]. *)
Definition Map_deliver (arrivals : list (Z * bytes)) (m : ChunkMap) : ChunkMap :=
  fold_left (fun m c => Map_set c.1 c.2 m) arrivals m.

(** Every index carries one data: no two arrivals disagree on an index. *)
Definition consistent (arrivals : list (Z * bytes)) : Prop :=
  forall index data data',
    (index, data) ∈ arrivals -> (index, data') ∈ arrivals -> data = data'.

(** What the chunker raises for chunk [i] when its read succeeds. *)
Definition chunkCallbacks (file : File.t) (fileId : string) (i : Z)
    : list FileWorkerManager.Callback :=
  [FileWorkerManager.onChunkReady
     (FileChunk.mk fileId i (FileWorkerManager.chunkBlob file i));
   FileWorkerManager.onProgress (percent (i + 1) (FileWorkerManager.totalChunks file))].

(** The index and data of a chunk, as the entry it becomes in the [Map]. *)
Definition entry (c : FileChunk.t) : Z * bytes := (FileChunk.index c, FileChunk.data c).

(** The spec's terminal states. *)
Definition terminal (s : Status.t) : bool :=
  match s with
  | Status.completed | Status.cancelled | Status.error => true
  | _ => false
  end.

(** Chunk messages for [fileId], one per arrival [(now, index, data)]. *)
Definition chunkEvents (fileId : string) (arrivals : list (Z * (Z * bytes)))
    : list Page.Event :=
  map (fun a => Page.data a.1 (Chunk fileId a.2.1 a.2.2)) arrivals.

(** The test of the chunk branch: the record is the one named by the message
    and its status is [transferring]. *)
Definition accepts (fileId : string) (transfer : ActiveTransfer.t) : bool :=
  String.eqb (ActiveTransfer.id transfer) fileId
  && bool_decide (ActiveTransfer.status transfer = Status.transferring).

(** The bytes held by a map: the sum of the lengths of its stored chunks. *)
Definition Map_bytes (m : ChunkMap) : Z :=
  foldr (fun e z => byteLength e.2 + z) 0 m.

(** *** One transfer received from a fresh page

    The page after one metadata message and a run of chunk messages for it:
    its only record, with what the arrivals [(now, (index, data))] have made of
    it, and its only map. *)

(** [receivedSize] after the arrivals: each adds the length of its data,
    duplicates included. *)
Definition arrived_bytes (arrivals : list (Z * (Z * bytes))) : Z :=
  foldr (fun a z => z + byteLength a.2.2) 0 (reverse arrivals).

(** The mapping after the arrivals. *)
Definition arrived_map (arrivals : list (Z * (Z * bytes))) : ChunkMap :=
  Map_deliver arrivals.*2 [].

(** [progress] after the arrivals: 0 at first, then computed from the size of
    the mapping at each arrival. *)
Definition progress_after (metadata : FileMetadata.t)
    (arrivals : list (Z * (Z * bytes))) : float :=
  match arrivals with
  | [] => number 0
  | _ => percent (Map_size (arrived_map arrivals)) (FileMetadata.totalChunks metadata)
  end.

(** The record made by the metadata message, with the fields that change. *)
Definition receiving (metadata : FileMetadata.t) (now : Z) (progress : float)
    (status : Status.t) (receivedSize : Z) : ActiveTransfer.t :=
  ActiveTransfer.mk (FileMetadata.id metadata) metadata progress status
    Direction.receiving None (Some 0%nat) receivedSize now None None.

Definition receiver_page (worker : bool) (now : Z) (metadata : FileMetadata.t)
    (arrivals : list (Z * (Z * bytes))) (status : Status.t) (timeouts : list Timeout)
    : Page.t :=
  Page.mk
    [receiving metadata now (progress_after metadata arrivals) status (arrived_bytes arrivals)]
    [arrived_map arrivals] timeouts worker []
    [Toast.mk "Receiving File" ("Starting to receive: " ++ FileMetadata.name metadata) false].

(** The record handed to [handleCompleteFileReceived] by the timeout. *)
Definition completion (metadata : FileMetadata.t) (now : Z)
    (arrivals : list (Z * (Z * bytes))) : Timeout :=
  CompleteFileReceived
    (receiving metadata now (number 100) Status.transferring (arrived_bytes arrivals)).

(** The number of distinct indices among the arrivals. *)
Definition distinct_indices (arrivals : list (Z * (Z * bytes))) : Z :=
  Z.of_nat (length (remove_dups (arrivals.*2).*1)).

(** *** A page on which no transfer can complete

    Every record expects 0 chunks and refers to the one map of the page, none
    is completed, nothing was posted to the worker and the pending timeouts
    are removals.  A page without records is such a page. *)

Definition is_metadata (e : Page.Event) : bool :=
  match e with
  | Page.data _ (Metadata _) => true
  | _ => false
  end.

Definition expects_no_chunk (t : ActiveTransfer.t) : Prop :=
  FileMetadata.totalChunks (ActiveTransfer.metadata t) = 0 /\
  ActiveTransfer.chunks t = Some 0%nat /\
  ActiveTransfer.status t <> Status.completed.

Definition is_removal (callback : Timeout) : Prop :=
  exists fileId, callback = RemoveTransfer fileId.

Definition never_completing (p : Page.t) : Prop :=
  Page.posted p = [] /\
  (Page.activeTransfers p <> [] -> length (Page.maps p) = 1%nat) /\
  Forall is_removal (Page.timeouts p) /\
  Forall expects_no_chunk (Page.activeTransfers p).

(** ** The worker's chunkers: [chunkFile] and [self.onmessage] of [file-worker.ts] *)

(** [data.slice(start, end)] on a typed array: both positions are clamped to
    the array, a negative one counts from the end. *)
Definition Uint8Array_slice (data : bytes) (start end_ : Z) : bytes :=
  let len := byteLength data in
  let k := if start <? 0 then Z.max (len + start) 0 else Z.min start len in
  let final := if end_ <? 0 then Z.max (len + end_) 0 else Z.min end_ len in
  let count := Z.max (final - k) 0 in
  take (Z.to_nat count) (drop (Z.to_nat k) data).

Module Worker.

(** An element of [chunks]: [{ index, data }]. *)
Record Chunk := mkChunk { index : Z; data : bytes }.

(** The payload of a CHUNK_FILE message; [chunkSize] is an integer-valued
    number. *)
Record ChunkPayload := mkPayload
  { fileId : string; fileData : bytes; chunkSize : Z; metadata : FileMetadata.t }.

Inductive Posted :=
| FILE_CHUNKED (fileId : string) (chunks : list Chunk) (metadata : FileMetadata.t)
| ERROR (fileId : string).

(** The [while (offset < data.length)] loop of [chunkFile], with its three
    variables.  [fuel] bounds the number of iterations: [None] is a loop
    that is still running when the fuel is used up.  Nothing in the body
    throws, so the [catch] is reached only when the engine runs out of
    memory, which is not modelled. *)
Fixpoint chunk_loop (fuel : nat) (data : bytes) (chunkSize offset index : Z)
    (chunks : list Chunk) : option (list Chunk) :=
  if offset <? byteLength data then
    match fuel with
    | O => None
    | S fuel =>
        let end_ := Z.min (offset + chunkSize) (byteLength data) in
        let chunk := Uint8Array_slice data offset end_ in
        chunk_loop fuel data chunkSize end_ (index + 1) (chunks ++ [mkChunk index chunk])
    end
  else Some chunks.

Definition chunkFile (fuel : nat) (payload : ChunkPayload) : option Posted :=
  match chunk_loop fuel (fileData payload) (chunkSize payload) 0 0 [] with
  | Some chunks => Some (FILE_CHUNKED (fileId payload) chunks (metadata payload))
  | None => None
  end.

(** What [self.onmessage] posts: a chunk with its progress, or the report of a
    failed read. *)
Record ChunkMessage := mkChunkMessage
  { chunk : bytes;
    progress : float;
    fileName : string;
    fileType : string;
    currentChunk : Z;
    totalChunks : Z;
    done : bool }.

Inductive Message :=
| chunkRead (message : ChunkMessage)
| readError.

Section onmessage.

(** [Math.round] on numbers. *)
Variable Math_round : float -> float.
(** [FileReader.readAsArrayBuffer], for the read number [n] of the run (from
    0) and its slice: [onload] with a result, or [onerror].  Whether a read
    fails is for the platform to say, read by read; it is not a matter of the
    bytes read. *)
Variable readAsArrayBuffer : Z -> bytes -> option bytes.
Variable file : File.t.
(** The [chunkSize] of the message, a positive integer: with another number
    [totalChunks] is not an integer (or not a number), which is outside this
    embedding. *)
Variable chunkSize : positive.

Definition onmessage_totalChunks : Z := Math_ceil_div (File.size file) (Z.pos chunkSize).

(** [readNextChunk] and the [onload] it leads to; [offset] and [currentChunk]
    are the variables of the closure.  [currentChunk] counts the reads that
    have succeeded, so the read under way is read number [currentChunk]. *)
Equations? readNextChunk (offset currentChunk : Z) : list Message
  by wf (Z.to_nat (File.size file - offset)) lt :=
  readNextChunk offset currentChunk
    with readAsArrayBuffer currentChunk
           (Blob_slice (File.contents file) offset (offset + Z.pos chunkSize)) => {
    | None := [readError];
    | Some result with Z_lt_dec (offset + Z.pos chunkSize) (File.size file) => {
        | left _ :=
            chunkRead (mkChunkMessage result
                         (Math_round (percent (currentChunk + 1) onmessage_totalChunks))
                         (File.name file) (File.type file) (currentChunk + 1)
                         onmessage_totalChunks
                         (currentChunk + 1 =? onmessage_totalChunks))
            :: readNextChunk (offset + Z.pos chunkSize) (currentChunk + 1);
        | right _ :=
            [chunkRead (mkChunkMessage result
                          (Math_round (percent (currentChunk + 1) onmessage_totalChunks))
                          (File.name file) (File.type file) (currentChunk + 1)
                          onmessage_totalChunks
                          (currentChunk + 1 =? onmessage_totalChunks))] } }.
Proof. lia. Qed.

Definition onmessage : list Message := readNextChunk 0 0.

End onmessage.

End Worker.

(** ** The files page as a whole: [src/app/sharefiles/page.tsx] with
    [sendData] of [src/contexts/PeerContext.tsx] and the worker's answers

    The receiving side above, under the state the rest of the page keeps:
    the transfer history and its copy in [localStorage], the object URLs,
    the hidden containers appended to the document, the connection, and what
    was handed to it.  An object URL is the number of its blob in the URL
    store.  The JSON text kept in [localStorage] is the history it encodes.
    [previewFileContent], [downloadFile] and [getTransferStats] (fetching and
    revoking URLs, clicking links, formatting numbers) are not embedded. *)

Module TransferRecord.

Inductive Direction := sent | received.

(** [preview]: a blob URL, or one of the markers "text" and
    "blob-reference". *)
Inductive Preview := url (blobUrl : nat) | text | blob_reference.

Record t := mk
  { id : string;
    fileName : string;
    fileType : string;
    fileSize : Z;
    timestamp : Z;
    direction : Direction;
    preview : option Preview;
    blobUrl : option nat }.

End TransferRecord.

(** [connection]: null, or a [DataConnection], which is open or not. *)
Module Connection.
Inductive t := null | closed | open.

#[global] Instance eq_dec : EqDecision t.
Proof. solve_decision. Defined.
End Connection.

(** [s.startsWith(p)] and [s.includes(p)] *)
Definition startsWith (s p : string) : bool := String.prefix p s.

Fixpoint includes (s p : string) : bool :=
  String.prefix p s
  || match s with
     | EmptyString => false
     | String _ s' => includes s' p
     end.

Module FilesPage.

Record t := mk
  { page : Page.t;
    transferHistory : list TransferRecord.t;
    localStorage : option (list TransferRecord.t);
    objectURLs : list Blob.t;
    (** the hidden containers of [document.body]: [data-file-id], [data-blob] *)
    body : list (string * nat);
    (** the deferred callbacks that append a container *)
    deferred : list (string * nat);
    connection : Connection.t;
    isConnected : bool;
    (** what [connection.send] was given *)
    sent : list PeerData;
    (** how many of the messages posted to the worker it has answered *)
    answered : nat }.

Definition with_page (page : Page.t) (s : t) : t :=
  mk page (transferHistory s) (localStorage s) (objectURLs s) (body s) (deferred s)
     (connection s) (isConnected s) (sent s) (answered s).

(** [setActiveTransfers((prev) => f(prev))] *)
Definition setActiveTransfers (f : list ActiveTransfer.t -> list ActiveTransfer.t) (s : t) : t :=
  let p := page s in
  with_page (Page.mk (f (Page.activeTransfers p)) (Page.maps p) (Page.timeouts p)
               (Page.worker p) (Page.posted p) (Page.toasts p)) s.

Definition toast (title description : string) (destructive : bool) (s : t) : t :=
  let p := page s in
  with_page (Page.mk (Page.activeTransfers p) (Page.maps p) (Page.timeouts p)
               (Page.worker p) (Page.posted p)
               (Page.toasts p ++ [Toast.mk title description destructive])) s.

Definition setTimeout (callback : Timeout) (s : t) : t :=
  let p := page s in
  with_page (Page.mk (Page.activeTransfers p) (Page.maps p) (Page.timeouts p ++ [callback])
               (Page.worker p) (Page.posted p) (Page.toasts p)) s.

(** The page as it is mounted; the effect that loads the history has run. *)
Definition mount (worker : bool) (localStorage : option (list TransferRecord.t))
    (connection : Connection.t) (isConnected : bool) : t :=
  mk (Page.init worker) (default [] localStorage) localStorage [] [] [] connection
     isConnected [] 0.

(** [sendData] of the peer context. *)
Definition sendData (data : PeerData) (s : t) : t :=
  match connection s with
  | Connection.open =>
      mk (page s) (transferHistory s) (localStorage s) (objectURLs s) (body s) (deferred s)
         (connection s) (isConnected s) (sent s ++ [data]) (answered s)
  | _ => toast "Error" "No active connection" true s
  end.

(** [connection.on("data", handleData)]; without a connection nothing is
    registered. *)
Definition receive (now : Z) (data : PeerData) (s : t) : t :=
  match connection s with
  | Connection.null => s
  | _ => with_page (Page.handleData now data (page s)) s
  end.

(** The handler of the connection's "close" event, in the peer context. *)
Definition connectionClosed (s : t) : t :=
  mk (page s) (transferHistory s) (localStorage s) (objectURLs s) (body s) (deferred s)
     Connection.null false (sent s) (answered s).

(** One of the page's timeouts runs. *)
Definition timeout (n : nat) (s : t) : t := with_page (Page.step (Page.timeout n) (page s)) s.

(** One of the deferred appends runs. *)
Definition appendContainer (n : nat) (s : t) : t :=
  match deferred s !! n with
  | Some container =>
      mk (page s) (transferHistory s) (localStorage s) (objectURLs s)
         (body s ++ [container]) (delete n (deferred s)) (connection s) (isConnected s)
         (sent s) (answered s)
  | None => s
  end.

(** *** The controls *)

(** [{ ...t, status: "paused", pausedAt: Date.now() }] *)
Definition with_paused (now : Z) (a : ActiveTransfer.t) : ActiveTransfer.t :=
  ActiveTransfer.mk (ActiveTransfer.id a) (ActiveTransfer.metadata a)
    (ActiveTransfer.progress a) Status.paused (ActiveTransfer.direction a)
    (ActiveTransfer.file a) (ActiveTransfer.chunks a) (ActiveTransfer.receivedSize a)
    (ActiveTransfer.startTime a) (Some now) (ActiveTransfer.error a).

(** [{ ...t, status: "transferring", pausedAt: undefined }] *)
Definition with_resumed (a : ActiveTransfer.t) : ActiveTransfer.t :=
  ActiveTransfer.mk (ActiveTransfer.id a) (ActiveTransfer.metadata a)
    (ActiveTransfer.progress a) Status.transferring (ActiveTransfer.direction a)
    (ActiveTransfer.file a) (ActiveTransfer.chunks a) (ActiveTransfer.receivedSize a)
    (ActiveTransfer.startTime a) None (ActiveTransfer.error a).

(** [prev.map((t) => t.id === id ? f(t) : t)] *)
Definition update (id : string) (f : ActiveTransfer.t -> ActiveTransfer.t)
    (prev : list ActiveTransfer.t) : list ActiveTransfer.t :=
  map (fun t => if String.eqb (ActiveTransfer.id t) id then f t else t) prev.

Definition pauseTransfer (now : Z) (transfer : ActiveTransfer.t) (s : t) : t :=
  match ActiveTransfer.direction transfer, connection s with
  | Direction.receiving, _ | _, Connection.null => s
  | Direction.sending, _ =>
      let s := sendData (Control (ActiveTransfer.id transfer) "pause") s in
      setActiveTransfers (update (ActiveTransfer.id transfer) (with_paused now)) s
  end.

Definition resumeTransfer (transfer : ActiveTransfer.t) (s : t) : t :=
  match ActiveTransfer.direction transfer, connection s with
  | Direction.receiving, _ | _, Connection.null => s
  | Direction.sending, _ =>
      let s := sendData (Control (ActiveTransfer.id transfer) "resume") s in
      setActiveTransfers (update (ActiveTransfer.id transfer) with_resumed) s
  end.

Definition cancelTransfer (transfer : ActiveTransfer.t) (s : t) : t :=
  match connection s with
  | Connection.null => s
  | _ =>
      let transferId := ActiveTransfer.id transfer in
      let s := sendData (Control transferId "cancel") s in
      let s :=
        setActiveTransfers
          (update transferId (ActiveTransfer.with_status Status.cancelled)) s in
      setTimeout (RemoveTransfer transferId) s
  end.

(** *** The history *)

(** The preview chosen for a file type, given the blob URL. *)
Definition previewOf (type : string) (blobUrl : nat) : TransferRecord.Preview :=
  if startsWith type "image/" || startsWith type "video/" || startsWith type "audio/"
  then TransferRecord.url blobUrl
  else if startsWith type "text/" || includes type "json" || includes type "javascript"
          || includes type "css"
  then TransferRecord.text
  else TransferRecord.blob_reference.

(** [URL.createObjectURL(blob)] *)
Definition createObjectURL (blob : Blob.t) (s : t) : nat * t :=
  (length (objectURLs s),
   mk (page s) (transferHistory s) (localStorage s) (objectURLs s ++ [blob]) (body s)
      (deferred s) (connection s) (isConnected s) (sent s) (answered s)).

(** A container for [fileId] and [blobUrl] will be appended later. *)
Definition defer (fileId : string) (blobUrl : nat) (s : t) : t :=
  mk (page s) (transferHistory s) (localStorage s) (objectURLs s) (body s)
     (deferred s ++ [(fileId, blobUrl)]) (connection s) (isConnected s) (sent s)
     (answered s).

(** [saveTransferRecord]: a sent record without preview is marked first; the
    new history is written to [localStorage]. *)
Definition saveTransferRecord (record : TransferRecord.t) (s : t) : t :=
  let unmarked :=
    match TransferRecord.preview record, TransferRecord.direction record with
    | None, TransferRecord.sent => negb (String.eqb (TransferRecord.fileType record) "")
    | _, _ => false
    end in
  let record :=
    if unmarked
    then TransferRecord.mk (TransferRecord.id record) (TransferRecord.fileName record)
           (TransferRecord.fileType record) (TransferRecord.fileSize record)
           (TransferRecord.timestamp record) (TransferRecord.direction record)
           (Some TransferRecord.blob_reference) (TransferRecord.blobUrl record)
    else record in
  let s :=
    match unmarked, TransferRecord.blobUrl record with
    | true, Some blobUrl => defer (TransferRecord.id record) blobUrl s
    | _, _ => s
    end in
  let newHistory := transferHistory s ++ [record] in
  mk (page s) newHistory (Some newHistory) (objectURLs s) (body s) (deferred s)
     (connection s) (isConnected s) (sent s) (answered s).

(** [handleFileAssembled], at clock [now]. *)
Definition handleFileAssembled (now : Z) (fileId : string) (blob : Blob.t)
    (metadata : FileMetadata.t) (s : t) : t :=
  let '(blobUrl, s) := createObjectURL blob s in
  let preview := previewOf (FileMetadata.type metadata) blobUrl in
  let s := defer fileId blobUrl s in
  let record :=
    TransferRecord.mk fileId (FileMetadata.name metadata) (FileMetadata.type metadata)
      (FileMetadata.size metadata) now TransferRecord.received (Some preview)
      (Some blobUrl) in
  let s := saveTransferRecord record s in
  let s := toast "File Received" ("File ready: " ++ FileMetadata.name metadata) false s in
  setActiveTransfers (Page.remove fileId) s.

(** The handler [FileWorkerManager] sets on the worker; [error] is the text
    of the exception the worker caught, if it answers ERROR. *)
Definition onmessage (now : Z) (error : string) (message : FileWorker.Posted) (s : t) : t :=
  match message with
  | FileWorker.FILE_ASSEMBLED fileId blob metadata =>
      handleFileAssembled now fileId blob metadata s
  | FileWorker.ERROR _ =>
      toast "File Transfer Error"
        (if String.eqb error "" then "An error occurred during file transfer" else error)
        true s
  end.

(** The worker answers the oldest message it has not answered yet. *)
Definition workerAnswers (now : Z) (error : string) (s : t) : t :=
  match Page.posted (page s) !! answered s with
  | Some payload =>
      onmessage now error (FileWorker.assembleFile payload)
        (mk (page s) (transferHistory s) (localStorage s) (objectURLs s) (body s)
           (deferred s) (connection s) (isConnected s) (sent s) (S (answered s)))
  | None => s
  end.

Definition removeHistoryItem (id : string) (s : t) : t :=
  let newHistory :=
    List.filter (fun item => negb (String.eqb (TransferRecord.id item) id))
      (transferHistory s) in
  toast "Item Removed" "Transfer history item has been removed." false
    (mk (page s) newHistory (Some newHistory) (objectURLs s) (body s) (deferred s)
       (connection s) (isConnected s) (sent s) (answered s)).

Definition clearHistory (s : t) : t :=
  toast "History Cleared" "Transfer history has been cleared." false
    (mk (page s) [] None (objectURLs s) (body s) (deferred s) (connection s)
       (isConnected s) (sent s) (answered s)).

(** *** Sending a file *)

(** The test [t.metadata.name === file.name && t.startTime === startTime] of
    the sender's updates. *)
Definition started (file : File.t) (startTime : Z) (a : ActiveTransfer.t) : bool :=
  String.eqb (FileMetadata.name (ActiveTransfer.metadata a)) (File.name file)
  && (ActiveTransfer.startTime a =? startTime).

(** [sendFile], at clock [now], up to its return: the chunker has been
    started and its first read is under way.  [fileId] is the identifier
    [chunkFile] draws.  For a file without chunks the chunker calls
    [onComplete] before [chunkFile] has returned, where [fileId] is read
    before its declaration has been evaluated: a ReferenceError, which leaves
    [sendFile] before the metadata is handed to [sendData]: [None]. *)
Definition sendFile (now : Z) (file : File.t) (fileId : string) (s : t) : option t :=
  match connection s, isConnected s with
  | Connection.null, _ | _, false => Some (toast "Error" "Not connected to a peer" true s)
  | _, true =>
      if FileWorkerManager.totalChunks file =? 0 then None
      else
        let newTransfer :=
          ActiveTransfer.mk "" (FileMetadata.mk "" (File.name file) (File.type file)
                                  (File.size file) 0)
            (number 0) Status.preparing Direction.sending (Some file) None 0 now None None in
        let s := setActiveTransfers (fun prev => prev ++ [newTransfer]) s in
        let metadata := FileWorkerManager.metadata file fileId in
        let s := sendData (Metadata metadata) s in
        Some (setActiveTransfers
                (map (fun a =>
                        if started file now a
                        then ActiveTransfer.mk fileId metadata (ActiveTransfer.progress a)
                               Status.transferring (ActiveTransfer.direction a)
                               (ActiveTransfer.file a) (ActiveTransfer.chunks a)
                               (ActiveTransfer.receivedSize a) (ActiveTransfer.startTime a)
                               (ActiveTransfer.pausedAt a) (ActiveTransfer.error a)
                        else a))
                s)
  end.

(** The callbacks [sendFile] hands to [chunkFile], for the file, the
    identifier and the start time of the call; [now] is the clock when the
    callback runs. *)
Definition onChunkReady (chunk : FileChunk.t) (s : t) : t :=
  match connection s with
  | Connection.open =>
      sendData (Chunk (FileChunk.fileId chunk) (FileChunk.index chunk) (FileChunk.data chunk)) s
  | _ => s
  end.

Definition onProgress (file : File.t) (startTime : Z) (progress : float) (s : t) : t :=
  setActiveTransfers
    (map (fun a =>
            if started file startTime a
            then ActiveTransfer.mk (ActiveTransfer.id a) (ActiveTransfer.metadata a) progress
                   (ActiveTransfer.status a) (ActiveTransfer.direction a)
                   (ActiveTransfer.file a) (ActiveTransfer.chunks a)
                   (ActiveTransfer.receivedSize a) (ActiveTransfer.startTime a)
                   (ActiveTransfer.pausedAt a) (ActiveTransfer.error a)
            else a))
    s.

Definition onComplete (now : Z) (file : File.t) (fileId : string) (s : t) : t :=
  let s := setActiveTransfers (update fileId ActiveTransfer.with_completed) s in
  let '(blobUrl, s) := createObjectURL (Blob.mk (File.contents file) (File.type file)) s in
  let preview := previewOf (File.type file) blobUrl in
  let s :=
    match preview with
    | TransferRecord.url _ => s
    | TransferRecord.text => defer fileId blobUrl s
    | TransferRecord.blob_reference =>
        mk (page s) (transferHistory s) (localStorage s) (objectURLs s)
           (body s ++ [(fileId, blobUrl)]) (deferred s) (connection s) (isConnected s)
           (sent s) (answered s)
    end in
  let s :=
    saveTransferRecord
      (TransferRecord.mk fileId (File.name file) (File.type file) (File.size file) now
         TransferRecord.sent (Some preview) (Some blobUrl)) s in
  let s := toast "File Sent" ("File sent successfully: " ++ File.name file) false s in
  setTimeout (RemoveTransfer fileId) s.

Definition onError (file : File.t) (startTime : Z) (error : string) (s : t) : t :=
  let s :=
    setActiveTransfers
      (map (fun a =>
              if started file startTime a
              then ActiveTransfer.mk (ActiveTransfer.id a) (ActiveTransfer.metadata a)
                     (ActiveTransfer.progress a) Status.error (ActiveTransfer.direction a)
                     (ActiveTransfer.file a) (ActiveTransfer.chunks a)
                     (ActiveTransfer.receivedSize a) (ActiveTransfer.startTime a)
                     (ActiveTransfer.pausedAt a) (Some error)
              else a))
      s in
  toast "File Send Error" error true s.

Definition callback (now : Z) (file : File.t) (fileId : string) (startTime : Z)
    (cb : FileWorkerManager.Callback) (s : t) : t :=
  match cb with
  | FileWorkerManager.onChunkReady chunk => onChunkReady chunk s
  | FileWorkerManager.onProgress progress => onProgress file startTime progress s
  | FileWorkerManager.onComplete => onComplete now file fileId s
  | FileWorkerManager.onError error => onError file startTime error s
  end.

End FilesPage.

(** The [i]-th block of [chunkSize] bytes of [data]; the last one may be
    shorter. *)
Definition block (data : bytes) (chunkSize i : Z) : bytes :=
  take (Z.to_nat chunkSize) (drop (Z.to_nat (i * chunkSize)) data).

(** The chunk the worker's [chunkFile] makes of block [i]. *)
Definition blockChunk (data : bytes) (chunkSize i : Z) : Worker.Chunk :=
  Worker.mkChunk i (block data chunkSize i).

(** The message of [self.onmessage] for block [i] of a file cut in [total]
    blocks. *)
Definition blockMessage (Math_round : float -> float) (file : File.t) (chunkSize total i : Z)
    : Worker.Message :=
  Worker.chunkRead
    (Worker.mkChunkMessage (block (File.contents file) chunkSize i)
       (Math_round (percent (i + 1) total)) (File.name file) (File.type file)
       (i + 1) total (i + 1 =? total)).

(** *** The store of maps and the records that refer to it *)

(** The references to the store held by the records. *)
Definition refs (transfers : list ActiveTransfer.t) : list nat :=
  omap ActiveTransfer.chunks transfers.

(** A pending callback whose record refers to the store refers to one of its
    [n] maps. *)
Definition pending_ok (n : nat) (callback : Timeout) : Prop :=
  match callback with
  | CompleteFileReceived transfer =>
      forall r, ActiveTransfer.chunks transfer = Some r -> (r < n)%nat
  | RemoveTransfer _ => True
  end.

(** No two records refer to the same map, every reference of a record or of a
    pending completion is to a map of the store, and no map holds an index
    twice. *)
Definition store_ok (p : Page.t) : Prop :=
  NoDup (refs (Page.activeTransfers p)) /\
  Forall (fun r => (r < length (Page.maps p))%nat) (refs (Page.activeTransfers p)) /\
  Forall (fun m : ChunkMap => NoDup m.*1) (Page.maps p) /\
  Forall (pending_ok (length (Page.maps p))) (Page.timeouts p).

(** *** One transfer among others *)

(** A record without its reference to the store. *)
Definition detached (t : ActiveTransfer.t) : ActiveTransfer.t :=
  ActiveTransfer.mk (ActiveTransfer.id t) (ActiveTransfer.metadata t)
    (ActiveTransfer.progress t) (ActiveTransfer.status t) (ActiveTransfer.direction t)
    (ActiveTransfer.file t) None (ActiveTransfer.receivedSize t)
    (ActiveTransfer.startTime t) (ActiveTransfer.pausedAt t) (ActiveTransfer.error t).

(** The record in position [i] of the page, with the map it refers to. *)
Definition transfer_at (p : Page.t) (i : nat) : option (ActiveTransfer.t * ChunkMap) :=
  match Page.activeTransfers p !! i with
  | Some t =>
      match ActiveTransfer.chunks t with
      | Some r =>
          match Page.maps p !! r with
          | Some m => Some (detached t, m)
          | None => None
          end
      | None => None
      end
  | None => None
  end.

(** The chunk and control messages that name [fileId]. *)
Definition names (fileId : string) (d : PeerData) : bool :=
  match d with
  | Chunk f _ _ => String.eqb f fileId
  | Control f _ => String.eqb f fileId
  | _ => false
  end.

(** Messages arriving on the connection, each with the clock at its arrival. *)
Definition messages (l : list (Z * PeerData)) : list Page.Event :=
  map (fun x => Page.data x.1 x.2) l.

(** What a chunk does to a record that takes it and to its map. *)
Definition taken (index : Z) (data : bytes) (v : ActiveTransfer.t * ChunkMap)
    : ActiveTransfer.t * ChunkMap :=
  let m := Map_set index data v.2 in
  let total := FileMetadata.totalChunks (ActiveTransfer.metadata v.1) in
  (ActiveTransfer.mk (ActiveTransfer.id v.1) (ActiveTransfer.metadata v.1)
     (percent (Map_size m) total)
     (if Map_size m =? total then Status.completed else Status.transferring)
     (ActiveTransfer.direction v.1) (ActiveTransfer.file v.1) None
     (ActiveTransfer.receivedSize v.1 + byteLength data) (ActiveTransfer.startTime v.1)
     (ActiveTransfer.pausedAt v.1) (ActiveTransfer.error v.1),
   m).

(** What a message that names a record does to it and to its map. *)
Definition own_step (d : PeerData) (v : ActiveTransfer.t * ChunkMap)
    : ActiveTransfer.t * ChunkMap :=
  match d with
  | Chunk _ index data =>
      if bool_decide (ActiveTransfer.status v.1 = Status.transferring)
      then taken index data v else v
  | Control _ action =>
      if String.eqb action "pause" then (ActiveTransfer.with_status Status.paused v.1, v.2)
      else if String.eqb action "resume"
           then (ActiveTransfer.with_status Status.transferring v.1, v.2)
      else if String.eqb action "cancel"
           then (ActiveTransfer.with_status Status.cancelled v.1, v.2)
      else v
  | _ => v
  end.

(** Record [i] of the page is named [fileId], refers to map [r], and is [v]
    with its map. *)
Definition view (fileId : string) (i r : nat) (v : ActiveTransfer.t * ChunkMap)
    (p : Page.t) : Prop :=
  exists t,
    Page.activeTransfers p !! i = Some t /\
    ActiveTransfer.id t = fileId /\
    ActiveTransfer.chunks t = Some r /\
    detached t = v.1 /\
    Page.maps p !! r = Some v.2.

(** The records of the pending completions that refer to map [r]. *)
Definition completions_for (r : nat) (timeouts : list Timeout) : list ActiveTransfer.t :=
  omap (fun callback =>
          match callback with
          | CompleteFileReceived transfer =>
              if decide (ActiveTransfer.chunks transfer = Some r)
              then Some (detached transfer) else None
          | RemoveTransfer _ => None
          end) timeouts.

(** The completion scheduled when a record takes a chunk, if any. *)
Definition scheduled (index : Z) (data : bytes) (v : ActiveTransfer.t * ChunkMap)
    : list ActiveTransfer.t :=
  if Map_size (Map_set index data v.2)
     =? FileMetadata.totalChunks (ActiveTransfer.metadata v.1)
  then [ActiveTransfer.mk (ActiveTransfer.id v.1) (ActiveTransfer.metadata v.1)
          (number 100) (ActiveTransfer.status v.1) (ActiveTransfer.direction v.1)
          (ActiveTransfer.file v.1) None
          (ActiveTransfer.receivedSize v.1 + byteLength data) (ActiveTransfer.startTime v.1)
          (ActiveTransfer.pausedAt v.1) (ActiveTransfer.error v.1)]
  else [].

(** The completions scheduled for a record by a message that names it. *)
Definition own_scheduled (d : PeerData) (v : ActiveTransfer.t * ChunkMap)
    : list ActiveTransfer.t :=
  match d with
  | Chunk _ index data =>
      if bool_decide (ActiveTransfer.status v.1 = Status.transferring)
      then scheduled index data v else []
  | _ => []
  end.

(** The record and the map after the messages, and the completions they
    scheduled. *)
Fixpoint own_run (msgs : list (Z * PeerData)) (v : ActiveTransfer.t * ChunkMap)
    : (ActiveTransfer.t * ChunkMap) * list ActiveTransfer.t :=
  match msgs with
  | [] => (v, [])
  | x :: msgs =>
      let res := own_run msgs (own_step x.2 v) in
      (res.1, own_scheduled x.2 v ++ res.2)
  end.

(** *** Runs in which no terminal transfer is named by a control message *)

(** The actions the control branch of [handleData] knows. *)
Definition is_action (action : string) : bool :=
  String.eqb action "pause" || String.eqb action "resume" || String.eqb action "cancel".

(** The event is a pause, resume or cancel message that names a record of the
    page whose status is terminal. *)
Definition reopens (p : Page.t) (e : Page.Event) : bool :=
  match e with
  | Page.data _ (Control fileId action) =>
      is_action action
      && existsb (fun t => String.eqb (ActiveTransfer.id t) fileId
                           && terminal (ActiveTransfer.status t))
           (Page.activeTransfers p)
  | _ => false
  end.

(** No event of the run, from the page [p] on, is such a message. *)
Fixpoint regular (events : list Page.Event) (p : Page.t) : bool :=
  match events with
  | [] => true
  | e :: events => negb (reopens p e) && regular events (Page.step e p)
  end.

(** A record that is not terminal refers to a map of the store which is empty,
    with the progress still 0, or which has another size than [totalChunks],
    with the progress computed from that size. *)
Definition open_ok (maps : list ChunkMap) (t : ActiveTransfer.t) : Prop :=
  terminal (ActiveTransfer.status t) = false ->
  exists (r : nat) (m : ChunkMap),
    ActiveTransfer.chunks t = Some r /\ maps !! r = Some m /\
    match m with
    | [] => ActiveTransfer.progress t = number 0
    | _ :: _ =>
        Map_size m <> FileMetadata.totalChunks (ActiveTransfer.metadata t) /\
        ActiveTransfer.progress t
        = percent (Map_size m) (FileMetadata.totalChunks (ActiveTransfer.metadata t))
    end.

Definition regular_ok (p : Page.t) : Prop :=
  store_ok p /\ Forall (open_ok (Page.maps p)) (Page.activeTransfers p).

(** *** The buttons of an active transfer *)

Inductive Button := PauseButton (now : Z) | ResumeButton | CancelButton.

Definition press (button : Button) (transfer : ActiveTransfer.t) : FilesPage.t -> FilesPage.t :=
  match button with
  | PauseButton now => FilesPage.pauseTransfer now transfer
  | ResumeButton => FilesPage.resumeTransfer transfer
  | CancelButton => FilesPage.cancelTransfer transfer
  end.

(** The action named in the control message of a button, and the status the
    button stands for. *)
Definition action_of (button : Button) : string :=
  match button with
  | PauseButton _ => "pause"
  | ResumeButton => "resume"
  | CancelButton => "cancel"
  end.

Definition status_of (button : Button) : Status.t :=
  match button with
  | PauseButton _ => Status.paused
  | ResumeButton => Status.transferring
  | CancelButton => Status.cancelled
  end.

(** Pausing and resuming are for sending transfers; cancelling is for any. *)
Definition acts_on (button : Button) (transfer : ActiveTransfer.t) : bool :=
  match button, ActiveTransfer.direction transfer with
  | CancelButton, _ => true
  | _, Direction.sending => true
  | _, Direction.receiving => false
  end.

(** *** What happens on the files page *)

Inductive Action :=
| Receive (now : Z) (data : PeerData)
| RunTimeout (n : nat)
| AppendContainer (n : nat)
| WorkerAnswers (now : Z) (error : string)
| Press (button : Button) (transfer : ActiveTransfer.t)
| RemoveHistoryItem (id : string)
| ClearHistory
| SendFile (now : Z) (file : File.t) (fileId : string)
| Callback (now : Z) (file : File.t) (fileId : string) (startTime : Z)
    (cb : FileWorkerManager.Callback)
| ConnectionCloses.

Definition act (a : Action) (s : FilesPage.t) : option FilesPage.t :=
  match a with
  | Receive now data => Some (FilesPage.receive now data s)
  | RunTimeout n => Some (FilesPage.timeout n s)
  | AppendContainer n => Some (FilesPage.appendContainer n s)
  | WorkerAnswers now error => Some (FilesPage.workerAnswers now error s)
  | Press button transfer => Some (press button transfer s)
  | RemoveHistoryItem id => Some (FilesPage.removeHistoryItem id s)
  | ClearHistory => Some (FilesPage.clearHistory s)
  | SendFile now file fileId => FilesPage.sendFile now file fileId s
  | Callback now file fileId startTime cb =>
      Some (FilesPage.callback now file fileId startTime cb s)
  | ConnectionCloses => Some (FilesPage.connectionClosed s)
  end.

Fixpoint acts (l : list Action) (s : FilesPage.t) : option FilesPage.t :=
  match l with
  | [] => Some s
  | a :: l =>
      match act a s with
      | Some s => acts l s
      | None => None
      end
  end.

(** The messages of the peer, as they are received. *)
Definition receives (msgs : list (Z * PeerData)) : list Action :=
  map (fun x => Receive x.1 x.2) msgs.

(** The chunk messages of a transfer, as they are received. *)
Definition chunkReceives (fileId : string) (arrivals : list (Z * (Z * bytes))) : list Action :=
  map (fun a => Receive a.1 (Chunk fileId a.2.1 a.2.2)) arrivals.

(** Callbacks of the chunker started by [sendFile] at [startTime], all run
    at clock [now] (only [onComplete] reads the clock). *)
Definition callbacks (now : Z) (file : File.t) (fileId : string) (startTime : Z)
    (cbs : list FileWorkerManager.Callback) : list Action :=
  map (Callback now file fileId startTime) cbs.

(** *** One file sent from a page just mounted *)

(** The record of the transfer on the sending page, with the fields that
    change. *)
Definition sending (file : File.t) (fileId : string) (startTime : Z) (progress : float)
    (status : Status.t) : ActiveTransfer.t :=
  ActiveTransfer.mk fileId (FileWorkerManager.metadata file fileId) progress status
    Direction.sending (Some file) None 0 startTime None None.

(** The chunk message for chunk [i] of the file. *)
Definition chunkMessage (file : File.t) (fileId : string) (i : Z) : PeerData :=
  Chunk fileId i (FileWorkerManager.chunkBlob file i).

(** The progress shown after the chunks [l] have been handed over. *)
Definition progress_sent (file : File.t) (progress : float) (l : list Z) : float :=
  fold_left (fun _ i => percent (i + 1) (FileWorkerManager.totalChunks file)) l progress.

(** The sending page while the chunker runs. *)
Definition sender (worker : bool) (localStorage : option (list TransferRecord.t))
    (file : File.t) (fileId : string) (startTime : Z) (progress : float) (status : Status.t)
    (timeouts : list Timeout) (connection : Connection.t) (isConnected : bool)
    (sent : list PeerData) : FilesPage.t :=
  FilesPage.mk
    (Page.mk [sending file fileId startTime progress status] [] timeouts worker [] [])
    (default [] localStorage) localStorage [] [] [] connection isConnected sent 0.

(** The sending page once the record has been taken off it. *)
Definition sender_removed (worker : bool) (localStorage : option (list TransferRecord.t))
    (timeouts : list Timeout) (connection : Connection.t) (isConnected : bool)
    (sent : list PeerData) : FilesPage.t :=
  FilesPage.mk (Page.mk [] [] timeouts worker [] [])
    (default [] localStorage) localStorage [] [] [] connection isConnected sent 0.

(** Callbacks of the chunker while a timeout is pending: it runs after the
    callbacks of [m] more chunks (two callbacks per chunk, raised in one
    turn), or not before the chunker is done. *)
Definition callbacks_and_timeout (removal : option nat) (now : Z) (file : File.t)
    (fileId : string) (startTime : Z) (cbs : list FileWorkerManager.Callback) : list Action :=
  match removal with
  | Some m =>
      callbacks now file fileId startTime (take (2 * m) cbs)
      ++ RunTimeout 0 :: callbacks now file fileId startTime (drop (2 * m) cbs)
  | None => callbacks now file fileId startTime cbs
  end.

(** Messages received while a timeout is pending, which runs after [n] of
    them. *)
Definition messages_and_timeout (n : nat) (msgs : list (Z * PeerData)) : list Page.Event :=
  messages (take n msgs) ++ Page.timeout 0 :: messages (drop n msgs).

(** The record [onComplete] adds to the history. *)
Definition sentRecord (file : File.t) (fileId : string) (now : Z) (blobUrl : nat)
    : TransferRecord.t :=
  TransferRecord.mk fileId (File.name file) (File.type file) (File.size file) now
    TransferRecord.sent (Some (FilesPage.previewOf (File.type file) blobUrl)) (Some blobUrl).

(** * Properties *)

(** ** Arithmetic and bytes *)

Lemma Math_ceil_div_bounds (a b : Z) :
  0 < b -> b * (Math_ceil_div a b - 1) < a <= b * Math_ceil_div a b.
Proof.
  intros Hb. unfold Math_ceil_div.
  pose proof (Z.mul_div_le (- a) b Hb).
  pose proof (Z.mul_succ_div_gt (- a) b Hb).
  lia.
Qed.

Lemma Math_ceil_div_nonneg (a b : Z) : 0 < b -> 0 <= a -> 0 <= Math_ceil_div a b.
Proof.
  intros Hb Ha. pose proof (Math_ceil_div_bounds a b Hb). nia.
Qed.

Lemma byteLength_app (a b : bytes) : byteLength (a ++ b) = byteLength a + byteLength b.
Proof. unfold byteLength. rewrite length_app. lia. Qed.

Lemma byteLength_nonneg (a : bytes) : 0 <= byteLength a.
Proof. unfold byteLength. lia. Qed.

(** A slice inside the blob is the plain sub-list. *)
Lemma Blob_slice_inside (b : bytes) (start end_ : Z) :
  0 <= start <= end_ -> end_ <= byteLength b ->
  Blob_slice b start end_ = take (Z.to_nat (end_ - start)) (drop (Z.to_nat start) b).
Proof.
  intros H1 H2. unfold Blob_slice.
  destruct (Z.ltb_spec start 0), (Z.ltb_spec end_ 0); try lia.
  rewrite !Z.min_l by lia. rewrite Z.max_l by lia. reflexivity.
Qed.

(** ** The assembler *)

Lemma Uint8Array_set_at_end (done rest source : bytes) :
  byteLength source <= byteLength rest ->
  Uint8Array_set (done ++ rest) source (byteLength done)
  = Some ((done ++ source) ++ drop (length source) rest).
Proof.
  intros Hfit. unfold Uint8Array_set.
  rewrite byteLength_app.
  destruct (Z.ltb_spec (byteLength done + byteLength rest) (byteLength done + byteLength source));
    [lia|].
  f_equal. unfold byteLength.
  rewrite Nat2Z.id, take_app_length.
  replace (Z.to_nat (Z.of_nat (length done) + Z.of_nat (length source)))
    with (length done + length source)%nat by lia.
  rewrite drop_app_add'; [|done]. by rewrite <-app_assoc.
Qed.

Lemma assemble_loop_fits (chunks : list bytes) (done rest : bytes) :
  byteLength (concat chunks) <= byteLength rest ->
  FileWorker.assemble_loop chunks (done ++ rest) (byteLength done)
  = Some (done ++ concat chunks ++ drop (length (concat chunks)) rest).
Proof.
  revert done rest. induction chunks as [|chunk chunks IH]; intros done rest Hfit; simpl.
  - by rewrite drop_0.
  - simpl in Hfit. rewrite byteLength_app in Hfit.
    pose proof (byteLength_nonneg (concat chunks)).
    rewrite Uint8Array_set_at_end by lia.
    rewrite <-byteLength_app, IH.
    + rewrite drop_drop, length_app, <-!app_assoc. done.
    + unfold byteLength in *. rewrite length_drop. lia.
Qed.

(** Chunks whose lengths add up to [metadata.size] are assembled into their
    concatenation. *)
Lemma assembleFile_concat (fileId : string) (chunks : list bytes) (metadata : FileMetadata.t) :
  byteLength (concat chunks) = FileMetadata.size metadata ->
  FileWorker.assembleFile (FileWorker.mkPayload fileId chunks metadata)
  = FileWorker.FILE_ASSEMBLED fileId
      (Blob.mk (concat chunks) (FileMetadata.type metadata)) metadata.
Proof.
  intros Hsize. unfold FileWorker.assembleFile, Uint8Array_new. simpl.
  pose proof (byteLength_nonneg (concat chunks)).
  destruct (Z.ltb_spec (FileMetadata.size metadata) 0); [lia|].
  pose proof (assemble_loop_fits chunks [] (replicate (Z.to_nat (FileMetadata.size metadata)) x00)) as Hloop.
  change (byteLength []) with 0 in Hloop. simpl in Hloop. rewrite Hloop.
  - rewrite drop_ge, app_nil_r; [done|].
    rewrite length_replicate. unfold byteLength in *. lia.
  - unfold byteLength at 2. rewrite length_replicate. lia.
Qed.

(** ** The chunker *)

Section chunker.
Import FileWorkerManager.
Variable readAsArrayBuffer : bytes -> option bytes.
Variable file : File.t.
Variable fileId : string.
Hypothesis reads : forall b, readAsArrayBuffer b = Some b.

(** The whole run of the chunker from chunk [k] on: every remaining chunk in
    index order, each followed by its progress, then [onComplete]. *)
Lemma processNextChunk_trace (k : Z) :
  processNextChunk readAsArrayBuffer file fileId k
  = flat_map (chunkCallbacks file fileId) (seqZ k (totalChunks file - k)) ++ [onComplete].
Proof.
  funelim (processNextChunk readAsArrayBuffer file fileId k).
  - rewrite seqZ_nil by lia. reflexivity.
  - rewrite reads in Heq. injection Heq as <-.
    rewrite seqZ_cons by lia. simpl.
    match goal with IH : processNextChunk _ _ _ _ = flat_map _ _ ++ _ |- _ => rewrite IH end.
    replace (Z.succ currentChunk) with (currentChunk + 1) by lia.
    replace (Z.pred (totalChunks file - currentChunk))
      with (totalChunks file - (currentChunk + 1)) by lia.
    reflexivity.
  - rewrite reads in Heq. discriminate.
Qed.

Lemma chunksReady_flat_map (l : list Z) :
  chunksReady (flat_map (chunkCallbacks file fileId) l ++ [onComplete])
  = map (fun i => FileChunk.mk fileId i (chunkBlob file i)) l.
Proof. induction l as [|i l IH]; simpl; [done|]. by rewrite <-IH. Qed.

Lemma chunkFile_chunks :
  chunksReady (chunkFile readAsArrayBuffer file fileId).2
  = map (fun i => FileChunk.mk fileId i (chunkBlob file i)) (seqZ 0 (totalChunks file)).
Proof.
  unfold chunkFile. simpl. rewrite processNextChunk_trace, chunksReady_flat_map.
  by rewrite Z.sub_0_r.
Qed.

End chunker.

Lemma chunkSize_pos : 0 < FileWorkerManager.chunkSize.
Proof. reflexivity. Qed.

Lemma totalChunks_bounds (file : File.t) :
  FileWorkerManager.chunkSize * (FileWorkerManager.totalChunks file - 1) < File.size file
  <= FileWorkerManager.chunkSize * FileWorkerManager.totalChunks file.
Proof. apply Math_ceil_div_bounds, chunkSize_pos. Qed.

Lemma totalChunks_nonneg (file : File.t) : 0 <= FileWorkerManager.totalChunks file.
Proof.
  apply Math_ceil_div_nonneg; [apply chunkSize_pos | apply byteLength_nonneg].
Qed.

(** Chunk [i] of a file is the [i]-th block of [chunkSize] bytes, cut at the
    end of the file. *)
Lemma chunkBlob_block (file : File.t) (i : Z) :
  0 <= i < FileWorkerManager.totalChunks file ->
  FileWorkerManager.chunkBlob file i
  = take (Z.to_nat (Z.min FileWorkerManager.chunkSize
                      (File.size file - i * FileWorkerManager.chunkSize)))
      (drop (Z.to_nat (i * FileWorkerManager.chunkSize)) (File.contents file)).
Proof.
  intros Hi. pose proof (totalChunks_bounds file) as Hb. pose proof chunkSize_pos.
  unfold FileWorkerManager.chunkBlob. cbv zeta.
  rewrite Blob_slice_inside.
  - f_equal. f_equal. lia.
  - nia.
  - unfold File.size. lia.
Qed.

Lemma chunkBlob_length (file : File.t) (i : Z) :
  0 <= i < FileWorkerManager.totalChunks file ->
  byteLength (FileWorkerManager.chunkBlob file i)
  = Z.min FileWorkerManager.chunkSize (File.size file - i * FileWorkerManager.chunkSize).
Proof.
  intros Hi. pose proof (totalChunks_bounds file) as Hb. pose proof chunkSize_pos.
  rewrite chunkBlob_block by done. unfold byteLength, File.size, byteLength in *.
  rewrite length_take, length_drop. nia.
Qed.

(** The blocks from [k] on make up the rest of the file. *)
Lemma chunkBlob_concat (file : File.t) (n : nat) (k : Z) :
  0 <= k -> k + Z.of_nat n = FileWorkerManager.totalChunks file ->
  concat (map (FileWorkerManager.chunkBlob file) (seqZ k (Z.of_nat n)))
  = drop (Z.to_nat (k * FileWorkerManager.chunkSize)) (File.contents file).
Proof.
  revert k. induction n as [|n IH]; intros k Hk Hn.
  - simpl. pose proof (totalChunks_bounds file) as Hb.
    rewrite drop_ge; [done|]. unfold File.size, byteLength in Hb. nia.
  - rewrite seqZ_cons by lia. simpl.
    replace (Z.pred (Z.of_nat (S n))) with (Z.of_nat n) by lia.
    rewrite IH by lia. rewrite chunkBlob_block by lia.
    pose proof (totalChunks_bounds file) as Hb. pose proof chunkSize_pos.
    set (c := FileWorkerManager.chunkSize) in *.
    destruct (Z.min_spec c (File.size file - k * c)) as [[? ->]|[? ->]].
    + replace (Z.to_nat (Z.succ k * c)) with (Z.to_nat (k * c) + Z.to_nat c)%nat by nia.
      rewrite <-drop_drop. apply take_drop.
    + rewrite (drop_ge _ (Z.to_nat (Z.succ k * c))).
      * rewrite app_nil_r. apply take_ge. rewrite length_drop.
        unfold File.size, byteLength in *. nia.
      * unfold File.size, byteLength in *. nia.
Qed.

(** ** Maps and the sort of [processReceivedFile] *)

Lemma Map_has_keys (k : Z) (m : ChunkMap) : Map_has k m = true <-> k ∈ m.*1.
Proof.
  unfold Map_has. induction m as [|[k' v'] m IH]; simpl.
  - split; [discriminate | by intros ?%elem_of_nil].
  - rewrite elem_of_cons. destruct (Z.eqb_spec k' k) as [->|Hne].
    + split; auto.
    + rewrite IH. split; [auto | intros [?|?]; [congruence | done]].
Qed.

Lemma Map_has_false_keys (k : Z) (m : ChunkMap) : Map_has k m = false <-> k ∉ m.*1.
Proof. rewrite <-Map_has_keys. destruct (Map_has k m); split; congruence. Qed.

Lemma Map_set_present (k : Z) (v : bytes) (m : ChunkMap) :
  Map_has k m = true -> (Map_set k v m).*1 = m.*1.
Proof.
  unfold Map_has. induction m as [|[k' v'] m IH]; simpl; [discriminate|].
  destruct (Z.eqb_spec k' k) as [->|Hne]; [done|].
  intros H. rewrite !fmap_cons. f_equal. by apply IH.
Qed.

Lemma Map_set_absent (k : Z) (v : bytes) (m : ChunkMap) :
  Map_has k m = false -> Map_set k v m = m ++ [(k, v)].
Proof.
  unfold Map_has. induction m as [|[k' v'] m IH]; simpl; [done|].
  destruct (Z.eqb_spec k' k) as [->|Hne]; simpl; [discriminate|].
  intros H. by rewrite IH.
Qed.

Lemma Map_set_size_present (k : Z) (v : bytes) (m : ChunkMap) :
  Map_has k m = true -> Map_size (Map_set k v m) = Map_size m.
Proof.
  intros H. unfold Map_size.
  apply (Map_set_present k v) in H. apply (f_equal length) in H.
  rewrite !length_fmap in H. by rewrite H.
Qed.

Lemma Map_set_size_absent (k : Z) (v : bytes) (m : ChunkMap) :
  Map_has k m = false -> Map_size (Map_set k v m) = Map_size m + 1.
Proof.
  intros H. unfold Map_size. rewrite Map_set_absent, length_app by done. simpl. lia.
Qed.

Lemma Map_get_set (k : Z) (v : bytes) (m : ChunkMap) : Map_get k (Map_set k v m) = Some v.
Proof.
  induction m as [|[k' v'] m IH]; simpl.
  - by rewrite Z.eqb_refl.
  - destruct (Z.eqb_spec k' k) as [->|Hne]; simpl.
    + by rewrite Z.eqb_refl.
    + by destruct (Z.eqb_spec k' k).
Qed.

Lemma Map_set_NoDup (k : Z) (v : bytes) (m : ChunkMap) :
  NoDup m.*1 -> NoDup (Map_set k v m).*1.
Proof.
  intros Hm. destruct (Map_has k m) eqn:Hk.
  - by rewrite Map_set_present.
  - rewrite Map_set_absent, fmap_app by done. simpl.
    apply NoDup_app. split_and!; [done| |apply NoDup_singleton].
    intros x Hx ->%list_elem_of_singleton. by apply Map_has_false_keys in Hk.
Qed.

(** With distinct keys, an entry is in the map after [set] exactly when it is
    the one set or an old entry under another key. *)
Lemma Map_set_elem_of (k : Z) (v : bytes) (m : ChunkMap) (e : Z * bytes) :
  NoDup m.*1 -> e ∈ Map_set k v m <-> e = (k, v) \/ (e ∈ m /\ e.1 <> k).
Proof.
  induction m as [|[k' v'] m IH]; simpl; intros Hm.
  - rewrite list_elem_of_singleton. split; [auto | intros [?|[?%elem_of_nil ?]]; done].
  - apply NoDup_cons in Hm as [Hk' Hm].
    destruct (Z.eqb_spec k' k) as [->|Hne]; rewrite !elem_of_cons.
    + split; [intros [?|He]; [by left|right] | intros [?|[[?|?] ?]]; subst; auto; done].
      split; [auto|]. intros Heq. apply Hk'. rewrite <-Heq.
      by apply list_elem_of_fmap_2.
    + rewrite IH by done. split.
      * intros [->|[?|[? ?]]]; simpl; auto.
      * intros [?|[[->|?] ?]]; auto.
Qed.

Lemma Map_deliver_app (l1 l2 : list (Z * bytes)) (m : ChunkMap) :
  Map_deliver (l1 ++ l2) m = Map_deliver l2 (Map_deliver l1 m).
Proof. apply fold_left_app. Qed.

Lemma Map_deliver_NoDup (l : list (Z * bytes)) (m : ChunkMap) :
  NoDup m.*1 -> NoDup (Map_deliver l m).*1.
Proof.
  revert m. induction l as [|[k v] l IH]; intros m Hm; simpl; [done|].
  by apply IH, Map_set_NoDup.
Qed.

(** Arrivals with distinct indices, none of them in the map yet, are appended
    in their order of arrival. *)
Lemma Map_deliver_fresh (l : list (Z * bytes)) (m : ChunkMap) :
  NoDup (m.*1 ++ l.*1) -> Map_deliver l m = m ++ l.
Proof.
  revert m. induction l as [|[k v] l IH]; intros m Hm; simpl.
  - by rewrite app_nil_r.
  - simpl in Hm. rewrite Map_set_absent.
    + rewrite IH; [by rewrite <-app_assoc|].
      rewrite fmap_app. simpl. by rewrite <-app_assoc.
    + apply Map_has_false_keys. apply NoDup_app in Hm as (_ & Hm & _).
      intros Hk. apply (Hm k Hk). by left.
Qed.

(** The keys of the map are the indices that arrived. *)
Lemma Map_deliver_keys (l : list (Z * bytes)) (m : ChunkMap) (k : Z) :
  k ∈ (Map_deliver l m).*1 <-> k ∈ m.*1 \/ k ∈ l.*1.
Proof.
  revert m. induction l as [|[k' v'] l IH]; intros m; simpl.
  - split; [auto | intros [?|?%elem_of_nil]; done].
  - rewrite IH, elem_of_cons. destruct (Map_has k' m) eqn:Hk'.
    + rewrite Map_set_present by done. apply Map_has_keys in Hk'.
      split; [intros [?|?]; auto | intros [?|[->|?]]; auto].
    + rewrite Map_set_absent, fmap_app, elem_of_app by done. simpl.
      rewrite list_elem_of_singleton. tauto.
Qed.

(** Consistent arrivals end up in the map as they are. *)
Lemma Map_deliver_elem_of (l : list (Z * bytes)) (m : ChunkMap) (e : Z * bytes) :
  NoDup m.*1 -> consistent (m ++ l) -> e ∈ Map_deliver l m <-> e ∈ m ++ l.
Proof.
  revert m. induction l as [|[k v] l IH]; intros m Hm Hc; simpl.
  - by rewrite app_nil_r.
  - assert (Hset : forall e, e ∈ Map_set k v m ++ l <-> e ∈ m ++ (k, v) :: l).
    { intros [k0 v0]. rewrite !elem_of_app, elem_of_cons, Map_set_elem_of by done. simpl.
      split; [intros [[?|[? ?]]|?]; auto|].
      intros [Hin|[?|?]]; auto.
      destruct (decide (k0 = k)) as [->|]; [|auto].
      left. left. f_equal. apply (Hc k); [|]; rewrite elem_of_app, ?elem_of_cons; auto. }
    rewrite IH, Hset; [done|by apply Map_set_NoDup|].
    intros i d d' H1 H2. apply Hset in H1, H2. eauto.
Qed.

Lemma NoDup_keys_NoDup (m : ChunkMap) : NoDup m.*1 -> NoDup m.
Proof. apply NoDup_fmap_1. Qed.

Lemma NoDup_keys_eq (m : ChunkMap) (e1 e2 : Z * bytes) :
  NoDup m.*1 -> e1 ∈ m -> e2 ∈ m -> e1.1 = e2.1 -> e1 = e2.
Proof.
  induction m as [|e m IH]; simpl; intros Hm H1 H2 Heq; [by apply elem_of_nil in H1|].
  apply NoDup_cons in Hm as [He Hm].
  apply elem_of_cons in H1 as [->|H1], H2 as [->|H2]; auto.
  - exfalso. apply He. rewrite Heq. by apply list_elem_of_fmap_2.
  - exfalso. apply He. rewrite <-Heq. by apply list_elem_of_fmap_2.
Qed.

(** Maps with distinct keys and the same entries are sorted to the same
    array, whatever their insertion order. *)
Lemma sort_by_index_unique (m1 m2 : ChunkMap) :
  NoDup m1.*1 -> m1 ≡ₚ m2 ->
  merge_sort FileWorkerManager.by_index m1 = merge_sort FileWorkerManager.by_index m2.
Proof.
  intros Hm Hperm.
  apply (StronglySorted_unique_strong FileWorkerManager.by_index).
  - intros e1 e2 H1 H2 H12 H21.
    rewrite merge_sort_Permutation in H1. rewrite merge_sort_Permutation, <-Hperm in H2.
    apply (NoDup_keys_eq m1); [done..|]. unfold FileWorkerManager.by_index in *. lia.
  - apply StronglySorted_merge_sort; apply _.
  - apply StronglySorted_merge_sort; apply _.
  - by rewrite !merge_sort_Permutation.
Qed.

(** A map holding the entries of an array that is in index order, with
    distinct indices, is sorted back to that array. *)
Lemma sort_by_index_sorted (m sorted : ChunkMap) :
  StronglySorted FileWorkerManager.by_index sorted -> NoDup sorted.*1 -> m ≡ₚ sorted ->
  merge_sort FileWorkerManager.by_index m = sorted.
Proof.
  intros Hs Hn Hperm.
  apply (StronglySorted_unique_strong FileWorkerManager.by_index).
  - intros e1 e2 H1 H2 H12 H21.
    rewrite merge_sort_Permutation, Hperm in H1.
    apply (NoDup_keys_eq sorted); [done..|]. unfold FileWorkerManager.by_index in *. lia.
  - apply StronglySorted_merge_sort; apply _.
  - done.
  - by rewrite merge_sort_Permutation.
Qed.

(** ** Chunking, then assembling *)

(** The entries the chunker produces for a file, in index order. *)
Lemma chunkFile_entries (readAsArrayBuffer : bytes -> option bytes) (file : File.t)
    (fileId : string) :
  (forall b, readAsArrayBuffer b = Some b) ->
  map entry (FileWorkerManager.chunksReady
               (FileWorkerManager.chunkFile readAsArrayBuffer file fileId).2)
  = map (fun i => (i, FileWorkerManager.chunkBlob file i))
      (seqZ 0 (FileWorkerManager.totalChunks file)).
Proof.
  intros reads. rewrite chunkFile_chunks by done. rewrite map_map. reflexivity.
Qed.

Lemma blocks_sorted (f : Z -> bytes) (n : nat) (k : Z) :
  StronglySorted FileWorkerManager.by_index (map (fun i => (i, f i)) (seqZ k (Z.of_nat n))).
Proof.
  revert k. induction n as [|n IH]; intros k.
  - constructor.
  - rewrite seqZ_cons by lia. simpl.
    replace (Z.pred (Z.of_nat (S n))) with (Z.of_nat n) by lia.
    constructor; [apply IH|].
    apply list.Forall_forall. intros e He.
    apply list_elem_of_fmap in He as (j & -> & Hj). apply elem_of_seqZ in Hj.
    unfold FileWorkerManager.by_index. simpl. lia.
Qed.

Lemma blocks_keys (f : Z -> bytes) (l : list Z) : (map (fun i => (i, f i)) l).*1 = l.
Proof. induction l as [|i l IH]; simpl; [done|]. by rewrite <-IH at 2. Qed.

Lemma blocks_values (f : Z -> bytes) (l : list Z) : (map (fun i => (i, f i)) l).*2 = map f l.
Proof. induction l as [|i l IH]; simpl; [done|]. by rewrite <-IH. Qed.

(** A map that holds exactly the chunks of a file is sorted and assembled
    into the file. *)
Lemma assemble_chunks_of_file (file : File.t) (fileId : string) (m : ChunkMap) :
  m ≡ₚ map (fun i => (i, FileWorkerManager.chunkBlob file i))
         (seqZ 0 (FileWorkerManager.totalChunks file)) ->
  FileWorker.assembleFile <$>
    FileWorkerManager.processReceivedFile true fileId m
      (FileWorkerManager.metadata file fileId)
  = Some (FileWorker.FILE_ASSEMBLED fileId
            (Blob.mk (File.contents file) (File.type file))
            (FileWorkerManager.metadata file fileId)).
Proof.
  intros Hperm. pose proof (totalChunks_nonneg file) as Hn.
  assert (Hsort : merge_sort FileWorkerManager.by_index m
                  = map (fun i => (i, FileWorkerManager.chunkBlob file i))
                      (seqZ 0 (FileWorkerManager.totalChunks file))).
  { apply sort_by_index_sorted; [| |done].
    - rewrite <-(Z2Nat.id (FileWorkerManager.totalChunks file)) by done.
      apply blocks_sorted.
    - rewrite blocks_keys. apply NoDup_seqZ. }
  assert (Hconcat : concat (map (FileWorkerManager.chunkBlob file)
                              (seqZ 0 (FileWorkerManager.totalChunks file)))
                    = File.contents file).
  { rewrite <-(Z2Nat.id (FileWorkerManager.totalChunks file)) at 1 by done.
    rewrite chunkBlob_concat by lia. apply drop_0. }
  unfold FileWorkerManager.processReceivedFile. cbv zeta.
  rewrite Hsort, blocks_values. cbn [fmap option_fmap option_map]. f_equal.
  rewrite assembleFile_concat; rewrite Hconcat; done.
Qed.

(** C8 (chunker decomposition).  When every read succeeds, [chunkFile] computes
    [totalChunks] as the ceiling of [file.size / 16384] and hands exactly that
    many chunks to [onChunkReady]; the chunk in position [i] carries the
    transfer's [fileId] and the index [i], and is [16384] bytes long unless it
    is the last one, which holds the remaining
    [file.size - (totalChunks - 1) * 16384] bytes.  A file of 50,000 bytes gives
    4 chunks of 16384, 16384, 16384 and 848 bytes. *)
Theorem chunkFile_decomposition (readAsArrayBuffer : bytes -> option bytes)
    (file : File.t) (fileId : string) :
  (forall b, readAsArrayBuffer b = Some b) ->
  let result := FileWorkerManager.chunkFile readAsArrayBuffer file fileId in
  let chunks := FileWorkerManager.chunksReady result.2 in
  let totalChunks := FileMetadata.totalChunks result.1.2 in
  16384 * (totalChunks - 1) < File.size file <= 16384 * totalChunks /\
  Z.of_nat (length chunks) = totalChunks /\
  (forall (i : nat) (c : FileChunk.t),
     chunks !! i = Some c ->
     FileChunk.fileId c = fileId /\
     FileChunk.index c = Z.of_nat i /\
     byteLength (FileChunk.data c)
     = if Z.of_nat i <? totalChunks - 1 then 16384
       else File.size file - (totalChunks - 1) * 16384) /\
  (File.size file = 50000 ->
   totalChunks = 4 /\
   map (fun c => byteLength (FileChunk.data c)) chunks = [16384; 16384; 16384; 848]).
Proof.
  intros reads result chunks totalChunks.
  assert (Hchunks : chunks = map (fun i => FileChunk.mk fileId i (FileWorkerManager.chunkBlob file i))
                               (seqZ 0 (FileWorkerManager.totalChunks file)))
    by (by apply chunkFile_chunks).
  change totalChunks with (FileWorkerManager.totalChunks file) in *.
  pose proof (totalChunks_bounds file) as Hb.
  pose proof (totalChunks_nonneg file) as Hn.
  change FileWorkerManager.chunkSize with 16384 in Hb.
  split_and!.
  - lia.
  - lia.
  - rewrite Hchunks, length_map, length_seqZ. lia.
  - intros i c Hi. rewrite Hchunks in Hi.
    change (map ?f ?l) with (f <$> l) in Hi.
    apply list_lookup_fmap_Some in Hi as (j & -> & Hj).
    apply lookup_seqZ in Hj as [-> Hlt]. simpl. split_and!; [done|lia|].
    rewrite chunkBlob_length by lia.
    change FileWorkerManager.chunkSize with 16384.
    destruct (Z.ltb_spec (Z.of_nat i) (FileWorkerManager.totalChunks file - 1)); lia.
  - intros Hsize.
    assert (Htotal : FileWorkerManager.totalChunks file = 4) by lia.
    split; [done|]. rewrite Hchunks, Htotal, map_map. simpl.
    rewrite !chunkBlob_length by lia.
    change FileWorkerManager.chunkSize with 16384. rewrite Hsize. reflexivity.
Qed.

Lemma chunkFile_decomposition_witness :
  let file := File.mk "video.bin" "application/octet-stream" (replicate (Z.to_nat 50000) x00) in
  let result := FileWorkerManager.chunkFile Some file "file-1" in
  let chunks := FileWorkerManager.chunksReady result.2 in
  FileMetadata.totalChunks result.1.2 = 4 /\
  map (fun c => byteLength (FileChunk.data c)) chunks = [16384; 16384; 16384; 848].
Proof.
  intros file result chunks.
  apply (chunkFile_decomposition Some file "file-1"); [reflexivity | vm_compute; reflexivity].
Defined.

(** C1 (round trip).  For every file, of any length, whose reads succeed: the
    chunks [chunkFile] hands out, put into a [Map] under their indices, then
    sorted by [processReceivedFile] and assembled by [assembleFile], give back
    a blob with exactly the bytes (and the type) of the file.  The length of the
    file is arbitrary, so this covers the lengths 0, 1, C - 1, C, C + 1 and
    10 * C + 7 for the chunk size C = 16384. *)
Theorem chunk_then_assemble (readAsArrayBuffer : bytes -> option bytes)
    (file : File.t) (fileId : string) :
  (forall b, readAsArrayBuffer b = Some b) ->
  let result := FileWorkerManager.chunkFile readAsArrayBuffer file fileId in
  let chunks := Map_deliver (map entry (FileWorkerManager.chunksReady result.2)) [] in
  FileWorker.assembleFile <$>
    FileWorkerManager.processReceivedFile true fileId chunks result.1.2
  = Some (FileWorker.FILE_ASSEMBLED fileId
            (Blob.mk (File.contents file) (File.type file)) result.1.2).
Proof.
  intros reads result chunks. subst chunks result.
  rewrite chunkFile_entries by done.
  rewrite Map_deliver_fresh.
  - apply assemble_chunks_of_file. done.
  - simpl. rewrite blocks_keys. apply NoDup_seqZ.
Qed.

Lemma chunk_then_assemble_witness :
  let file := File.mk "notes.txt" "text/plain" [x68; x65; x6c; x6c; x6f] in
  let result := FileWorkerManager.chunkFile Some file "file-1" in
  let chunks := Map_deliver (map entry (FileWorkerManager.chunksReady result.2)) [] in
  FileWorker.assembleFile <$>
    FileWorkerManager.processReceivedFile true "file-1" chunks result.1.2
  = Some (FileWorker.FILE_ASSEMBLED "file-1"
            (Blob.mk [x68; x65; x6c; x6c; x6f] "text/plain") result.1.2).
Proof.
  intros file. apply (chunk_then_assemble Some file "file-1"). reflexivity.
Defined.

(** The sorted array does not depend on the order of arrival. *)
Lemma sorted_chunks_order_independent (arrivals1 arrivals2 : list (Z * bytes)) :
  consistent arrivals1 -> arrivals1 ≡ₚ arrivals2 ->
  merge_sort FileWorkerManager.by_index (Map_deliver arrivals1 [])
  = merge_sort FileWorkerManager.by_index (Map_deliver arrivals2 []).
Proof.
  intros Hc Hperm.
  assert (Hc2 : consistent arrivals2).
  { intros i d d' H1 H2. rewrite <-Hperm in H1, H2. eauto. }
  apply sort_by_index_unique; [by apply Map_deliver_NoDup, NoDup_nil|].
  apply NoDup_Permutation.
  - by apply NoDup_keys_NoDup, Map_deliver_NoDup, NoDup_nil.
  - by apply NoDup_keys_NoDup, Map_deliver_NoDup, NoDup_nil.
  - intros e.
    rewrite (Map_deliver_elem_of arrivals1 []), (Map_deliver_elem_of arrivals2 []);
      [by rewrite Hperm | by apply NoDup_nil | done | by apply NoDup_nil | done].
Qed.

Lemma NoDup_keys_consistent (arrivals : list (Z * bytes)) :
  NoDup arrivals.*1 -> consistent arrivals.
Proof.
  intros Hn i d d' H1 H2.
  pose proof (NoDup_keys_eq arrivals (i, d) (i, d') Hn H1 H2 eq_refl). congruence.
Qed.

(** C6 (order independence).  Two arrival orders of the same chunks (each
    index with one data) leave maps that [processReceivedFile] sorts to the same
    array, so the assembler is handed the same payload and returns the same
    result. *)
Theorem arrival_order_irrelevant (arrivals1 arrivals2 : list (Z * bytes))
    (worker : bool) (fileId : string) (metadata : FileMetadata.t) :
  consistent arrivals1 -> arrivals1 ≡ₚ arrivals2 ->
  FileWorker.assembleFile <$>
    FileWorkerManager.processReceivedFile worker fileId (Map_deliver arrivals1 []) metadata
  = FileWorker.assembleFile <$>
      FileWorkerManager.processReceivedFile worker fileId (Map_deliver arrivals2 []) metadata.
Proof.
  intros Hc Hperm. unfold FileWorkerManager.processReceivedFile.
  by rewrite (sorted_chunks_order_independent arrivals1 arrivals2).
Qed.

(** Scenario C with concrete bytes: chunks 2, 0, 3, 1 against 0, 1, 2, 3. *)
Lemma arrival_order_irrelevant_witness :
  let metadata := FileMetadata.mk "file-1" "notes.txt" "text/plain" 4 4 in
  FileWorker.assembleFile <$>
    FileWorkerManager.processReceivedFile true "file-1"
      (Map_deliver [(2, [x03]); (0, [x01]); (3, [x04]); (1, [x02])] []) metadata
  = FileWorker.assembleFile <$>
      FileWorkerManager.processReceivedFile true "file-1"
        (Map_deliver [(0, [x01]); (1, [x02]); (2, [x03]); (3, [x04])] []) metadata.
Proof.
  intros metadata. apply arrival_order_irrelevant.
  - apply NoDup_keys_consistent. apply (bool_decide_unpack _). vm_compute. reflexivity.
  - apply (bool_decide_unpack _). vm_compute. reflexivity.
Defined.

(** Scenario C for any four chunks. *)
Example scenario_C (d0 d1 d2 d3 : bytes) :
  merge_sort FileWorkerManager.by_index (Map_deliver [(2, d2); (0, d0); (3, d3); (1, d1)] [])
  = [(0, d0); (1, d1); (2, d2); (3, d3)].
Proof. reflexivity. Qed.

(** ** The chunk branch of [handleData] *)

Lemma receiveChunk_ignored (fileId : string) (index : Z) (data : bytes)
    (transfer : ActiveTransfer.t) (s : list ChunkMap * list Timeout) :
  accepts fileId transfer = false ->
  Page.receiveChunk fileId index data transfer s = (transfer, s).
Proof.
  unfold accepts, Page.receiveChunk. destruct s as [maps timeouts]. by intros ->.
Qed.

Lemma accepts_other_id (fileId : string) (transfer : ActiveTransfer.t) :
  ActiveTransfer.id transfer <> fileId -> accepts fileId transfer = false.
Proof.
  intros Hid. unfold accepts. by apply String.eqb_neq in Hid as ->.
Qed.

Lemma accepts_other_status (fileId : string) (transfer : ActiveTransfer.t) :
  ActiveTransfer.status transfer <> Status.transferring -> accepts fileId transfer = false.
Proof.
  intros Hst. unfold accepts. rewrite bool_decide_eq_false_2 by done. apply andb_false_r.
Qed.

Lemma accepts_true (fileId : string) (transfer : ActiveTransfer.t) :
  ActiveTransfer.id transfer = fileId ->
  ActiveTransfer.status transfer = Status.transferring ->
  accepts fileId transfer = true.
Proof.
  intros Hid Hst. unfold accepts. rewrite bool_decide_eq_true_2 by done.
  apply String.eqb_eq in Hid as ->. done.
Qed.

Lemma Array_map_app {S A B} (f : A -> S -> B * S) (l1 l2 : list A) (s : S) :
  Page.Array_map f (l1 ++ l2) s
  = let r1 := Page.Array_map f l1 s in
    let r2 := Page.Array_map f l2 r1.2 in
    (r1.1 ++ r2.1, r2.2).
Proof.
  revert s. induction l1 as [|a l1 IH]; intros s; simpl.
  - by destruct (Page.Array_map f l2 s).
  - destruct (f a s) as [b s1]. rewrite IH.
    destruct (Page.Array_map f l1 s1) as [bs s2]. simpl.
    by destruct (Page.Array_map f l2 s2).
Qed.

(** Records that do not take the chunk are handed back, and nothing is
    written. *)
Lemma Array_map_ignored (fileId : string) (index : Z) (data : bytes)
    (prev : list ActiveTransfer.t) (s : list ChunkMap * list Timeout) :
  (forall t, t ∈ prev -> accepts fileId t = false) ->
  Page.Array_map (Page.receiveChunk fileId index data) prev s = (prev, s).
Proof.
  induction prev as [|t prev IH]; intros Hall; simpl; [done|].
  rewrite receiveChunk_ignored by (apply Hall; left).
  rewrite IH; [done|]. intros t' Ht'. apply Hall. by right.
Qed.

(** The record in position [i] of the new array is what [receiveChunk] makes
    of the record in position [i] of the old one. *)
Lemma Array_map_lookup (fileId : string) (index : Z) (data : bytes)
    (prev : list ActiveTransfer.t) (s : list ChunkMap * list Timeout)
    (i : nat) (t : ActiveTransfer.t) :
  prev !! i = Some t ->
  exists s', (Page.Array_map (Page.receiveChunk fileId index data) prev s).1 !! i
             = Some (Page.receiveChunk fileId index data t s').1.
Proof.
  revert s i. induction prev as [|t0 prev IH]; intros s i Hi; [done|].
  simpl. destruct (Page.receiveChunk fileId index data t0 s) as [t0' s1] eqn:Hstep.
  destruct (Page.Array_map _ prev s1) as [ts s2] eqn:Hrest.
  destruct i as [|i]; simpl in *.
  - injection Hi as <-. exists s. by rewrite Hstep.
  - destruct (IH s1 i Hi) as [s' Hs']. exists s'. by rewrite Hrest in Hs'.
Qed.

Lemma handleData_chunk_ignored (now : Z) (fileId : string) (index : Z) (data : bytes)
    (p : Page.t) :
  (forall t, t ∈ Page.activeTransfers p -> accepts fileId t = false) ->
  Page.handleData now (Chunk fileId index data) p = p.
Proof.
  intros Hall. unfold Page.handleData. rewrite Array_map_ignored by done.
  by destruct p.
Qed.

Lemma handleData_chunk_lookup_ignored (now : Z) (fileId : string) (index : Z) (data : bytes)
    (p : Page.t) (i : nat) (t : ActiveTransfer.t) :
  Page.activeTransfers p !! i = Some t -> accepts fileId t = false ->
  Page.activeTransfers (Page.handleData now (Chunk fileId index data) p) !! i = Some t.
Proof.
  intros Hi Hacc. unfold Page.handleData.
  destruct (Array_map_lookup fileId index data _ (Page.maps p, Page.timeouts p) i t Hi)
    as [s' Hs'].
  rewrite receiveChunk_ignored in Hs' by done.
  destruct (Page.Array_map _ _ _) as [ts [maps timeouts]]. done.
Qed.

Lemma setStatus_lookup (fileId : string) (status : Status.t)
    (prev : list ActiveTransfer.t) (i : nat) (t : ActiveTransfer.t) :
  prev !! i = Some t ->
  Page.setStatus fileId status prev !! i
  = Some (if String.eqb (ActiveTransfer.id t) fileId
          then ActiveTransfer.with_status status t else t).
Proof.
  intros Hi. unfold Page.setStatus.
  change (map ?f ?l) with (f <$> l). by rewrite list_lookup_fmap, Hi.
Qed.



(** ** Pause *)

(** C2, as the code has it.  A record whose status is [paused] does not take
    chunks: a chunk message for its [fileId] hands the record back as it is,
    and, unless some other record of that [fileId] is [transferring], the whole
    page is unchanged: nothing is put into a mapping, no counter moves and no
    completion is scheduled. *)
Theorem chunk_while_paused_dropped (p : Page.t) (now : Z) (fileId : string)
    (index : Z) (data : bytes) (i : nat) (t : ActiveTransfer.t) :
  Page.activeTransfers p !! i = Some t ->
  ActiveTransfer.id t = fileId ->
  ActiveTransfer.status t = Status.paused ->
  let p' := Page.handleData now (Chunk fileId index data) p in
  Page.activeTransfers p' !! i = Some t /\
  ((forall t', t' ∈ Page.activeTransfers p -> ActiveTransfer.id t' = fileId ->
               ActiveTransfer.status t' <> Status.transferring) ->
   p' = p).
Proof.
  intros Hi Hid Hst p'. split.
  - apply handleData_chunk_lookup_ignored; [done|].
    apply accepts_other_status. by rewrite Hst.
  - intros Hall. apply handleData_chunk_ignored. intros t' Ht'.
    destruct (decide (ActiveTransfer.id t' = fileId)).
    + apply accepts_other_status. by apply Hall.
    + by apply accepts_other_id.
Qed.

(** C2 as stated fails: a chunk that arrives while the transfer is paused is
    not in the mapping afterwards, and the page is as it was before.  It does
    not count toward completion either: after resume and the arrival of the
    other chunk the transfer of two chunks holds one chunk and is still
    transferring. *)
Lemma paused_transfer_drops_chunk :
  let metadata := FileMetadata.mk "file-1" "notes.txt" "text/plain" 4 2 in
  let p := Page.run [Page.data 0 (Metadata metadata);
                     Page.data 1 (Control "file-1" "pause")] (Page.init true) in
  let p' := Page.handleData 2 (Chunk "file-1" 0 [x01; x02]) p in
  let p'' := Page.run [Page.data 3 (Control "file-1" "resume");
                       Page.data 4 (Chunk "file-1" 1 [x03; x04])] p' in
  map ActiveTransfer.status (Page.activeTransfers p) = [Status.paused] /\
  map ActiveTransfer.direction (Page.activeTransfers p) = [Direction.receiving] /\
  map ActiveTransfer.chunks (Page.activeTransfers p') = [Some 0%nat] /\
  Page.maps p' = [[]] /\
  p' = p /\
  Page.maps p'' = [[(1, [x03; x04])]] /\
  map ActiveTransfer.status (Page.activeTransfers p'') = [Status.transferring] /\
  Page.timeouts p'' = [].
Proof. repeat split. Qed.

Lemma chunk_while_paused_dropped_witness :
  let metadata := FileMetadata.mk "file-1" "notes.txt" "text/plain" 4 2 in
  let p := Page.run [Page.data 0 (Metadata metadata);
                     Page.data 1 (Control "file-1" "pause")] (Page.init true) in
  Page.handleData 2 (Chunk "file-1" 0 [x01; x02]) p = p.
Proof.
  intros metadata p.
  refine (proj2 (chunk_while_paused_dropped p 2 "file-1" 0 [x01; x02] 0
                   (ActiveTransfer.mk "file-1" metadata (number 0) Status.paused
                      Direction.receiving None (Some 0%nat) 0 0 None None)
                   _ _ _) _).
  - reflexivity.
  - reflexivity.
  - reflexivity.
  - intros t' Ht' _. vm_compute in Ht'.
    apply list_elem_of_singleton in Ht'. by subst t'.
Defined.

(** ** Terminal states *)

(** What the messages do to a record whose status is completed, cancelled or
    error.  It is left as it is by every metadata message, every chunk message,
    every message of unknown shape and every control message that names
    another [fileId] or carries an unknown action.  The control messages
    pause, resume and cancel that name its [fileId] are applied without a look
    at the status: they set it to paused, transferring and cancelled. *)
Theorem terminal_record_and_messages (p : Page.t) (now : Z) (i : nat)
    (t : ActiveTransfer.t) :
  Page.activeTransfers p !! i = Some t ->
  terminal (ActiveTransfer.status t) = true ->
  let after (d : PeerData) := Page.activeTransfers (Page.handleData now d p) !! i in
  (forall metadata, after (Metadata metadata) = Some t) /\
  (forall fileId index data, after (Chunk fileId index data) = Some t) /\
  after Other = Some t /\
  (forall fileId action, ActiveTransfer.id t <> fileId -> after (Control fileId action) = Some t) /\
  (forall action, action <> "pause" -> action <> "resume" -> action <> "cancel" ->
                  after (Control (ActiveTransfer.id t) action) = Some t) /\
  after (Control (ActiveTransfer.id t) "pause")
  = Some (ActiveTransfer.with_status Status.paused t) /\
  after (Control (ActiveTransfer.id t) "resume")
  = Some (ActiveTransfer.with_status Status.transferring t) /\
  after (Control (ActiveTransfer.id t) "cancel")
  = Some (ActiveTransfer.with_status Status.cancelled t).
Proof.
  intros Hi Hterm after. subst after. cbv beta. split_and!.
  - intros metadata. simpl. by apply lookup_app_l_Some.
  - intros fileId index data. apply handleData_chunk_lookup_ignored; [done|].
    apply accepts_other_status. intros Hst. by rewrite Hst in Hterm.
  - done.
  - intros fileId action Hid. apply String.eqb_neq in Hid. unfold Page.handleData.
    repeat case_match; cbn [Page.activeTransfers];
      first [done | by rewrite (setStatus_lookup _ _ _ _ _ Hi), Hid].
  - intros action H1 H2 H3. apply String.eqb_neq in H1, H2, H3. unfold Page.handleData.
    by rewrite H1, H2, H3.
  - unfold Page.handleData. cbn [String.eqb Ascii.eqb Bool.eqb Page.activeTransfers].
    by rewrite (setStatus_lookup _ _ _ _ _ Hi), String.eqb_refl.
  - unfold Page.handleData. cbn [String.eqb Ascii.eqb Bool.eqb Page.activeTransfers].
    by rewrite (setStatus_lookup _ _ _ _ _ Hi), String.eqb_refl.
  - unfold Page.handleData. cbn [String.eqb Ascii.eqb Bool.eqb Page.activeTransfers].
    by rewrite (setStatus_lookup _ _ _ _ _ Hi), String.eqb_refl.
Qed.

(** C4 on the code.  The claim: once a transfer is completed, cancelled or in
    error, no later event, and in particular no pause, resume or cancel control
    message naming its [fileId], changes its status.  On the code a transfer
    that the arrival of its only chunk has completed is paused, set back to
    transferring, or cancelled by the control message that names it: the
    control branch of [handleData] does not look at the status, unlike the
    chunk branch and unlike the buttons of the page, which offer pause only for
    a transferring transfer, resume only for a paused one and cancel only for
    these two. *)
Lemma completed_transfer_leaves_completed :
  let metadata := FileMetadata.mk "file-1" "notes.txt" "text/plain" 2 1 in
  let p := Page.run [Page.data 0 (Metadata metadata);
                     Page.data 1 (Chunk "file-1" 0 [x01; x02])] (Page.init true) in
  let status_after (action : string) :=
    map ActiveTransfer.status
      (Page.activeTransfers (Page.handleData 2 (Control "file-1" action) p)) in
  map ActiveTransfer.status (Page.activeTransfers p) = [Status.completed] /\
  status_after "pause" = [Status.paused] /\
  status_after "resume" = [Status.transferring] /\
  status_after "cancel" = [Status.cancelled].
Proof. repeat split. Qed.

Lemma terminal_record_and_messages_witness :
  let metadata := FileMetadata.mk "file-1" "notes.txt" "text/plain" 2 1 in
  let p := Page.run [Page.data 0 (Metadata metadata);
                     Page.data 1 (Chunk "file-1" 0 [x01; x02])] (Page.init true) in
  let t := ActiveTransfer.mk "file-1" metadata (number 100) Status.completed
             Direction.receiving None (Some 0%nat) 2 0 None None in
  Page.activeTransfers (Page.handleData 2 (Chunk "file-1" 1 [x03]) p) !! 0%nat = Some t /\
  Page.activeTransfers (Page.handleData 2 (Control "file-1" "resume") p) !! 0%nat
  = Some (ActiveTransfer.with_status Status.transferring t).
Proof.
  intros metadata p t.
  pose proof (terminal_record_and_messages p 2 0 t eq_refl eq_refl) as H.
  cbv zeta in H. destruct H as (_ & Hchunk & _ & _ & _ & _ & Hresume & _).
  split; [apply Hchunk | apply Hresume].
Defined.

(** ** One record per [fileId] *)

(** C5, as the code has it.  Every metadata message adds one record to the
    end of the active transfers, whether or not a record with that [fileId] is
    there already: the new record is receiving, transferring, with a fresh
    empty mapping and no bytes received; the records that were there are not
    touched (nothing is merged), and the number of records with that [fileId]
    goes up by one. *)
Theorem metadata_adds_record (p : Page.t) (now : Z) (metadata : FileMetadata.t) :
  let p' := Page.handleData now (Metadata metadata) p in
  let newTransfer :=
    ActiveTransfer.mk (FileMetadata.id metadata) metadata (number 0) Status.transferring
      Direction.receiving None (Some (length (Page.maps p))) 0 now None None in
  let named (transfers : list ActiveTransfer.t) :=
    List.filter (fun t => String.eqb (ActiveTransfer.id t) (FileMetadata.id metadata))
      transfers in
  Page.activeTransfers p' = Page.activeTransfers p ++ [newTransfer] /\
  Page.maps p' = Page.maps p ++ [[]] /\
  length (named (Page.activeTransfers p')) = S (length (named (Page.activeTransfers p))).
Proof.
  intros p' newTransfer named. subst p' named. simpl. split_and!; [done..|].
  rewrite List.filter_app, length_app. simpl. rewrite String.eqb_refl. simpl. lia.
Qed.

(** C5 as stated fails: a second metadata message for the same [fileId] gives
    a second record with that [fileId]. *)
Lemma second_metadata_second_record :
  let metadata := FileMetadata.mk "file-1" "notes.txt" "text/plain" 4 2 in
  let p := Page.run [Page.data 0 (Metadata metadata);
                     Page.data 1 (Metadata metadata)] (Page.init true) in
  map ActiveTransfer.id (Page.activeTransfers p) = ["file-1"; "file-1"]%string /\
  map ActiveTransfer.status (Page.activeTransfers p)
  = [Status.transferring; Status.transferring].
Proof. repeat split. Qed.

(** ** Messages for unknown transfers *)



(** C9 on the code.  The claim: a chunk or control message for a [fileId]
    without active record, the case of a transfer that is already terminal
    included, is dropped, and every record is left as it is.  On the code the
    transfer below is completed by its second chunk and still held while its
    assembly is pending.  A chunk message for it is dropped and the page is as
    before.  A cancel message for it (a cancel that crossed the final chunk)
    is not: the completed record is cancelled and its removal is scheduled;
    pause and resume change the record as well.  No toast is raised.  The
    control branch of [handleData] sets the status without reading it, where
    the chunk branch tests it: the defect is that of C4. *)
Theorem control_for_terminal_transfer_applied :
  let metadata := FileMetadata.mk "file-1" "notes.txt" "text/plain" 4 2 in
  let p := Page.run [Page.data 0 (Metadata metadata);
                     Page.data 1 (Chunk "file-1" 0 [x01; x02]);
                     Page.data 2 (Chunk "file-1" 1 [x03; x04])] (Page.init true) in
  let after (action : string) := Page.handleData 3 (Control "file-1" action) p in
  map ActiveTransfer.status (Page.activeTransfers p) = [Status.completed] /\
  Page.handleData 3 (Chunk "file-1" 0 [x05; x06]) p = p /\
  map ActiveTransfer.status (Page.activeTransfers (after "cancel")) = [Status.cancelled] /\
  Page.activeTransfers (after "cancel") <> Page.activeTransfers p /\
  Page.timeouts (after "cancel") = Page.timeouts p ++ [RemoveTransfer "file-1"] /\
  map ActiveTransfer.status (Page.activeTransfers (after "pause")) = [Status.paused] /\
  map ActiveTransfer.status (Page.activeTransfers (after "resume")) = [Status.transferring] /\
  Page.toasts (after "cancel") = Page.toasts p /\
  Page.posted (after "cancel") = Page.posted p.
Proof. repeat split. discriminate. Qed.

(** ** Duplicate chunks *)

Lemma Map_has_get (k : Z) (m : ChunkMap) :
  Map_has k m = true -> exists old, Map_get k m = Some old.
Proof. unfold Map_has. destruct (Map_get k m); [eauto|discriminate]. Qed.

Lemma Map_set_bytes (k : Z) (v old : bytes) (m : ChunkMap) :
  Map_get k m = Some old ->
  Map_bytes (Map_set k v m) = Map_bytes m - byteLength old + byteLength v.
Proof.
  induction m as [|[k' v'] m IH]; simpl; [discriminate|].
  destruct (Z.eqb_spec k' k) as [->|Hne]; simpl.
  - intros [= ->]. lia.
  - intros Hget. rewrite IH by done. lia.
Qed.

Lemma size_at_alter (maps : list ChunkMap) (chunks : nat) (m : ChunkMap)
    (f : ChunkMap -> ChunkMap) :
  maps !! chunks = Some m -> Page.size_at (alter f chunks maps) chunks = Map_size (f m).
Proof.
  intros Hm. unfold Page.size_at. by rewrite list_lookup_alter_eq, Hm.
Qed.

Lemma alter_insert (maps : list ChunkMap) (chunks : nat) (m : ChunkMap)
    (f : ChunkMap -> ChunkMap) :
  maps !! chunks = Some m -> alter f chunks maps = <[chunks := f m]> maps.
Proof.
  revert chunks. induction maps as [|m0 maps IH]; intros [|chunks] Hm; simplify_eq/=; [done|].
  f_equal. by apply IH.
Qed.

(** What [receiveChunk] makes of a record in status transferring and a chunk
    whose index is in its mapping, whatever the record and the mapping are.
    The data stored under the index is overwritten and the size of the
    mapping stays; [receivedSize] grows by the length of the duplicate
    although the bytes stored grow only by the difference to the data
    replaced; progress and status are computed again from the size. *)
Theorem duplicate_chunk_effect (fileId : string) (index : Z) (data : bytes)
    (t : ActiveTransfer.t) (maps : list ChunkMap) (timeouts : list Timeout)
    (chunks : nat) (m : ChunkMap) :
  ActiveTransfer.id t = fileId ->
  ActiveTransfer.status t = Status.transferring ->
  ActiveTransfer.chunks t = Some chunks ->
  maps !! chunks = Some m ->
  Map_has index m = true ->
  let totalChunks := FileMetadata.totalChunks (ActiveTransfer.metadata t) in
  let r := Page.receiveChunk fileId index data t (maps, timeouts) in
  let m' := Map_set index data m in
  r.2.1 = <[chunks := m']> maps /\
  Map_get index m' = Some data /\
  Map_size m' = Map_size m /\
  (exists old, Map_get index m = Some old /\
               Map_bytes m' = Map_bytes m - byteLength old + byteLength data) /\
  ActiveTransfer.receivedSize r.1 = ActiveTransfer.receivedSize t + byteLength data /\
  ActiveTransfer.progress r.1 = percent (Map_size m) totalChunks /\
  (ActiveTransfer.progress t = percent (Map_size m) totalChunks ->
   ActiveTransfer.progress r.1 = ActiveTransfer.progress t) /\
  (Map_size m <> totalChunks ->
   ActiveTransfer.status r.1 = Status.transferring /\ r.2.2 = timeouts) /\
  (Map_size m = totalChunks ->
   ActiveTransfer.status r.1 = Status.completed /\
   exists transfer, r.2.2 = timeouts ++ [CompleteFileReceived transfer]).
Proof.
  intros Hid Hst Hchunks Hm Hhas totalChunks r m'.
  pose proof (Map_set_size_present index data m Hhas) as Hsize.
  assert (Hsize_at : Page.size_at (alter (Map_set index data) chunks maps) chunks = Map_size m).
  { by rewrite (size_at_alter _ _ m). }
  subst r. unfold Page.receiveChunk.
  pose proof (accepts_true fileId t Hid Hst) as Hacc. unfold accepts in Hacc.
  rewrite Hacc, Hchunks. cbn [Page.chunks_or_new]. rewrite Hsize_at. cbn [fst snd].
  split_and!.
  - by apply alter_insert.
  - apply Map_get_set.
  - done.
  - destruct (Map_has_get index m Hhas) as [old Hold]. exists old.
    split; [done|]. by apply Map_set_bytes.
  - done.
  - done.
  - by intros ->.
  - intros Hne. apply Z.eqb_neq in Hne. fold totalChunks. by rewrite Hne.
  - intros Heq. apply Z.eqb_eq in Heq. fold totalChunks. rewrite Heq. split; [done|]. eauto.
Qed.

(** C10 on the code.  The claim: a chunk message for a receiving transfer in
    status transferring whose index is already in the mapping overwrites the
    stored data and leaves the size of the mapping, the status and the
    progress as they are, while [receivedSize] grows again.  On the code the
    transfer below was completed by its only chunk and set back to
    transferring by a resume message (the defect of C4); it is receiving and
    transferring, and index 0 is in its mapping.  The duplicate of chunk 0
    overwrites the data, leaves the size at 1 and the progress at 100 and
    raises [receivedSize] from 2 to 4, above [metadata.size]; but the status
    does not stay: the record becomes completed and a second completion is
    scheduled. *)
Theorem duplicate_chunk_completes_again :
  let metadata := FileMetadata.mk "file-1" "notes.txt" "text/plain" 2 1 in
  let p := Page.run [Page.data 0 (Metadata metadata);
                     Page.data 1 (Chunk "file-1" 0 [x01; x02]);
                     Page.data 2 (Control "file-1" "resume")] (Page.init true) in
  let p' := Page.handleData 3 (Chunk "file-1" 0 [x05; x06]) p in
  map ActiveTransfer.status (Page.activeTransfers p) = [Status.transferring] /\
  map ActiveTransfer.direction (Page.activeTransfers p) = [Direction.receiving] /\
  Page.maps p = [[(0, [x01; x02])]] /\
  Page.maps p' = [[(0, [x05; x06])]] /\
  map ActiveTransfer.progress (Page.activeTransfers p) = [number 100] /\
  map ActiveTransfer.progress (Page.activeTransfers p') = [number 100] /\
  map ActiveTransfer.receivedSize (Page.activeTransfers p) = [2] /\
  map ActiveTransfer.receivedSize (Page.activeTransfers p') = [4] /\
  map ActiveTransfer.status (Page.activeTransfers p') = [Status.completed] /\
  length (Page.timeouts p) = 1%nat /\
  length (Page.timeouts p') = 2%nat.
Proof. repeat split. Qed.

(** Two duplicates of chunk 0 of a two-chunk transfer of 4 bytes: 6 bytes are
    counted as received, 2 bytes are stored. *)
Lemma duplicate_chunk_effect_witness :
  let metadata := FileMetadata.mk "file-1" "notes.txt" "text/plain" 4 2 in
  let t := ActiveTransfer.mk "file-1" metadata (percent 1 2) Status.transferring
             Direction.receiving None (Some 0%nat) 4 0 None None in
  let r := Page.receiveChunk "file-1" 0 [x01; x02] t ([[(0, [x01; x02])]], []) in
  ActiveTransfer.receivedSize r.1 = 6 /\
  ActiveTransfer.status r.1 = Status.transferring /\
  ActiveTransfer.progress r.1 = ActiveTransfer.progress t /\
  Map_bytes [(0, [x01; x02])] = 2 /\
  FileMetadata.size metadata = 4.
Proof.
  intros metadata t r.
  pose proof (duplicate_chunk_effect "file-1" 0 [x01; x02] t [[(0, [x01; x02])]] []
                0 [(0, [x01; x02])] eq_refl eq_refl eq_refl eq_refl eq_refl) as H.
  cbv zeta in H. destruct H as (_ & _ & _ & _ & Hreceived & _ & Hprogress & Hstatus & _).
  split_and!.
  - apply Hreceived.
  - apply Hstatus. vm_compute. discriminate.
  - apply Hprogress. reflexivity.
  - reflexivity.
  - reflexivity.
Defined.

Example duplicates_overcount :
  let metadata := FileMetadata.mk "file-1" "notes.txt" "text/plain" 4 2 in
  let p := Page.run [Page.data 0 (Metadata metadata);
                     Page.data 1 (Chunk "file-1" 0 [x01; x02]);
                     Page.data 2 (Chunk "file-1" 0 [x01; x02]);
                     Page.data 3 (Chunk "file-1" 0 [x01; x02])] (Page.init true) in
  map ActiveTransfer.receivedSize (Page.activeTransfers p) = [6] /\
  map Map_bytes (Page.maps p) = [2] /\
  map ActiveTransfer.status (Page.activeTransfers p) = [Status.transferring] /\
  map ActiveTransfer.progress (Page.activeTransfers p) = [number 50].
Proof. repeat split. Qed.

(** ** Completion *)

Lemma run_app (es1 es2 : list Page.Event) (p : Page.t) :
  Page.run (es1 ++ es2) p = Page.run es2 (Page.run es1 p).
Proof. apply fold_left_app. Qed.

Lemma chunkEvents_app (fileId : string) (l1 l2 : list (Z * (Z * bytes))) :
  chunkEvents fileId (l1 ++ l2) = chunkEvents fileId l1 ++ chunkEvents fileId l2.
Proof. apply map_app. Qed.

Lemma run_chunk (fileId : string) (a : Z * (Z * bytes)) (later : list (Z * (Z * bytes)))
    (p : Page.t) :
  Page.run (chunkEvents fileId (a :: later)) p
  = Page.run (chunkEvents fileId later) (Page.handleData a.1 (Chunk fileId a.2.1 a.2.2) p).
Proof. reflexivity. Qed.

Lemma arrived_bytes_snoc (arrivals : list (Z * (Z * bytes))) (a : Z * (Z * bytes)) :
  arrived_bytes (arrivals ++ [a]) = arrived_bytes arrivals + byteLength a.2.2.
Proof. unfold arrived_bytes. by rewrite reverse_snoc. Qed.

Lemma arrived_map_snoc (arrivals : list (Z * (Z * bytes))) (a : Z * (Z * bytes)) :
  arrived_map (arrivals ++ [a]) = Map_set a.2.1 a.2.2 (arrived_map arrivals).
Proof. unfold arrived_map. by rewrite fmap_app, Map_deliver_app. Qed.

Lemma progress_after_snoc (metadata : FileMetadata.t) (arrivals : list (Z * (Z * bytes)))
    (a : Z * (Z * bytes)) :
  progress_after metadata (arrivals ++ [a])
  = percent (Map_size (arrived_map (arrivals ++ [a]))) (FileMetadata.totalChunks metadata).
Proof. by destruct arrivals. Qed.

Lemma Map_set_size (k : Z) (v : bytes) (m : ChunkMap) :
  Map_size m <= Map_size (Map_set k v m) <= Map_size m + 1.
Proof.
  destruct (Map_has k m) eqn:Hk.
  - rewrite Map_set_size_present by done. lia.
  - rewrite Map_set_size_absent by done. lia.
Qed.

(** One chunk message on the page of a transfer that is still transferring. *)
Lemma receiver_page_step (worker : bool) (now : Z) (metadata : FileMetadata.t)
    (arrivals : list (Z * (Z * bytes))) (a : Z * (Z * bytes)) :
  Page.handleData a.1 (Chunk (FileMetadata.id metadata) a.2.1 a.2.2)
    (receiver_page worker now metadata arrivals Status.transferring [])
  = if Map_size (arrived_map (arrivals ++ [a])) =? FileMetadata.totalChunks metadata
    then receiver_page worker now metadata (arrivals ++ [a]) Status.completed
           [completion metadata now (arrivals ++ [a])]
    else receiver_page worker now metadata (arrivals ++ [a]) Status.transferring [].
Proof.
  unfold receiver_page, completion, Page.handleData, receiving.
  cbn [Page.activeTransfers Page.maps Page.timeouts Page.worker Page.posted Page.toasts
       Page.Array_map].
  unfold Page.receiveChunk.
  cbn [ActiveTransfer.id ActiveTransfer.status ActiveTransfer.chunks ActiveTransfer.metadata
       ActiveTransfer.receivedSize ActiveTransfer.direction ActiveTransfer.file
       ActiveTransfer.startTime ActiveTransfer.pausedAt ActiveTransfer.error
       Page.chunks_or_new].
  rewrite String.eqb_refl, bool_decide_eq_true_2 by done. cbn [andb].
  change (alter (Map_set a.2.1 a.2.2) 0%nat [arrived_map arrivals])
    with [Map_set a.2.1 a.2.2 (arrived_map arrivals)].
  change (Page.size_at [Map_set a.2.1 a.2.2 (arrived_map arrivals)] 0)
    with (Map_size (Map_set a.2.1 a.2.2 (arrived_map arrivals))).
  rewrite progress_after_snoc, arrived_bytes_snoc, arrived_map_snoc.
  by destruct (_ =? _).
Qed.

(** As long as fewer than [totalChunks] distinct indices have arrived, every
    chunk is taken and the transfer stays transferring. *)
Lemma run_incomplete (worker : bool) (now : Z) (metadata : FileMetadata.t)
    (arrivals : list (Z * (Z * bytes))) :
  Map_size (arrived_map arrivals) < FileMetadata.totalChunks metadata ->
  Page.run (chunkEvents (FileMetadata.id metadata) arrivals)
    (Page.handleData now (Metadata metadata) (Page.init worker))
  = receiver_page worker now metadata arrivals Status.transferring [].
Proof.
  induction arrivals as [|a arrivals IH] using rev_ind; intros Hsize; [done|].
  rewrite chunkEvents_app, run_app. rewrite arrived_map_snoc in Hsize.
  pose proof (Map_set_size a.2.1 a.2.2 (arrived_map arrivals)).
  rewrite IH by lia. rewrite run_chunk, receiver_page_step, arrived_map_snoc.
  destruct (Z.eqb_spec (Map_size (Map_set a.2.1 a.2.2 (arrived_map arrivals)))
              (FileMetadata.totalChunks metadata)); [lia|done].
Qed.

(** The arrival that brings the mapping to [totalChunks] entries completes
    the transfer and schedules the completion. *)
Lemma run_completing (worker : bool) (now : Z) (metadata : FileMetadata.t)
    (arrivals : list (Z * (Z * bytes))) (a : Z * (Z * bytes)) :
  Map_size (arrived_map arrivals) < FileMetadata.totalChunks metadata ->
  Map_size (arrived_map (arrivals ++ [a])) = FileMetadata.totalChunks metadata ->
  Page.run (chunkEvents (FileMetadata.id metadata) (arrivals ++ [a]))
    (Page.handleData now (Metadata metadata) (Page.init worker))
  = receiver_page worker now metadata (arrivals ++ [a]) Status.completed
      [completion metadata now (arrivals ++ [a])].
Proof.
  intros Hless Heq. rewrite chunkEvents_app, run_app, run_incomplete by done.
  rewrite run_chunk, receiver_page_step, Heq. by rewrite Z.eqb_refl.
Qed.

(** Chunk messages that reach a completed transfer change nothing. *)
Lemma run_completed (worker : bool) (now : Z) (metadata : FileMetadata.t)
    (arrivals later : list (Z * (Z * bytes))) (timeouts : list Timeout) :
  Page.run (chunkEvents (FileMetadata.id metadata) later)
    (receiver_page worker now metadata arrivals Status.completed timeouts)
  = receiver_page worker now metadata arrivals Status.completed timeouts.
Proof.
  induction later as [|a later IH]; [done|].
  rewrite run_chunk, handleData_chunk_ignored; [apply IH|].
  intros t Ht. apply list_elem_of_singleton in Ht as ->. by apply accepts_other_status.
Qed.

(** The first arrival at which [totalChunks] distinct indices are there. *)
Lemma first_completion (n : Z) (arrivals : list (Z * (Z * bytes))) :
  1 <= n -> n <= Map_size (arrived_map arrivals) ->
  exists before a later,
    arrivals = before ++ a :: later /\
    Map_size (arrived_map before) < n /\
    Map_size (arrived_map (before ++ [a])) = n.
Proof.
  intros Hn. induction arrivals as [|a arrivals IH] using rev_ind; intros Hsize.
  - simpl in Hsize. unfold Map_size in Hsize. simpl in Hsize. lia.
  - destruct (Z_lt_le_dec (Map_size (arrived_map arrivals)) n) as [Hless|Hge].
    + exists arrivals, a, []. split_and!; [done|done|].
      rewrite arrived_map_snoc in Hsize |- *.
      pose proof (Map_set_size a.2.1 a.2.2 (arrived_map arrivals)). lia.
    + destruct (IH Hge) as (before & a0 & later & -> & ? & ?).
      exists before, a0, (later ++ [a]). by rewrite <-app_assoc.
Qed.

Lemma arrived_map_distinct (arrivals : list (Z * (Z * bytes))) :
  Map_size (arrived_map arrivals) = distinct_indices arrivals.
Proof.
  unfold Map_size, distinct_indices, arrived_map. f_equal.
  rewrite <-(length_fmap fst (Map_deliver _ _)).
  apply Permutation_length, NoDup_Permutation.
  - by apply Map_deliver_NoDup, NoDup_nil.
  - apply NoDup_remove_dups.
  - intros k. rewrite Map_deliver_keys, elem_of_remove_dups. simpl.
    split; [intros [?%elem_of_nil|?]; done | auto].
Qed.


(** When the scheduled completion runs, one message goes to the worker (if
    there is one), with the chunks of the mapping in index order. *)
Lemma completion_runs (worker : bool) (now : Z) (metadata : FileMetadata.t)
    (arrivals : list (Z * (Z * bytes))) :
  Map_size (arrived_map arrivals) = FileMetadata.totalChunks metadata ->
  Page.step (Page.timeout 0)
    (receiver_page worker now metadata arrivals Status.completed
       [completion metadata now arrivals])
  = Page.mk
      [receiving metadata now (number 100) Status.completed (arrived_bytes arrivals)]
      [arrived_map arrivals] [] worker
      (if worker
       then [FileWorker.mkPayload (FileMetadata.id metadata)
               (merge_sort FileWorkerManager.by_index (arrived_map arrivals)).*2 metadata]
       else [])
      [Toast.mk "Receiving File" ("Starting to receive: " ++ FileMetadata.name metadata)
         false].
Proof.
  intros Hsize. unfold Page.step, receiver_page, completion.
  cbn [Page.timeouts lookup list_lookup Page.runTimeout Page.activeTransfers Page.maps
       Page.worker Page.posted Page.toasts delete list_delete].
  unfold Page.handleCompleteFileReceived, receiving.
  cbn [ActiveTransfer.chunks ActiveTransfer.metadata ActiveTransfer.id Page.maps
       Page.activeTransfers Page.timeouts Page.worker Page.posted Page.toasts].
  change (Page.size_at [arrived_map arrivals] 0) with (Map_size (arrived_map arrivals)).
  rewrite Hsize, Z.eqb_refl. cbn [map]. rewrite String.eqb_refl.
  unfold FileWorkerManager.processReceivedFile. by destruct worker.
Qed.

(** What one chunk message does to a record that takes it: the record becomes
    completed exactly when the mapping, after the insertion, has
    [totalChunks] entries, and exactly then one call of
    [handleCompleteFileReceived] is scheduled. *)
Lemma receiveChunk_completes_iff (fileId : string) (index : Z) (data : bytes)
    (t : ActiveTransfer.t) (maps : list ChunkMap) (timeouts : list Timeout) :
  accepts fileId t = true ->
  let r := Page.receiveChunk fileId index data t (maps, timeouts) in
  exists chunks,
    ActiveTransfer.chunks r.1 = Some chunks /\
    (ActiveTransfer.status r.1 = Status.completed
     <-> Page.size_at r.2.1 chunks = FileMetadata.totalChunks (ActiveTransfer.metadata t)) /\
    (ActiveTransfer.status r.1 <> Status.completed ->
     ActiveTransfer.status r.1 = Status.transferring /\ r.2.2 = timeouts) /\
    (ActiveTransfer.status r.1 = Status.completed ->
     exists transfer,
       r.2.2 = timeouts ++ [CompleteFileReceived transfer] /\
       ActiveTransfer.chunks transfer = Some chunks /\
       ActiveTransfer.id transfer = ActiveTransfer.id t /\
       ActiveTransfer.metadata transfer = ActiveTransfer.metadata t).
Proof.
  intros Hacc r. subst r. unfold Page.receiveChunk. unfold accepts in Hacc. rewrite Hacc.
  destruct (Page.chunks_or_new (ActiveTransfer.chunks t) maps) as [chunks maps'].
  exists chunks. cbn [fst snd ActiveTransfer.chunks ActiveTransfer.status].
  destruct (Z.eqb_spec (Page.size_at (alter (Map_set index data) chunks maps') chunks)
              (FileMetadata.totalChunks (ActiveTransfer.metadata t))) as [Heq|Hne].
  - split_and!; [done|done|done|]. intros _. eauto.
  - split_and!; [done| |done|done]. split; [done|]. intros Heq. by destruct Hne.
Qed.

(** A transfer created by its metadata message, with [totalChunks >= 1], that
    receives chunk messages only. *)
Lemma completion_of_fresh_transfer (worker : bool) (now : Z) (metadata : FileMetadata.t)
    (arrivals : list (Z * (Z * bytes))) :
  1 <= FileMetadata.totalChunks metadata ->
  let p := Page.run (chunkEvents (FileMetadata.id metadata) arrivals)
             (Page.handleData now (Metadata metadata) (Page.init worker)) in
  (distinct_indices arrivals < FileMetadata.totalChunks metadata ->
   map ActiveTransfer.status (Page.activeTransfers p) = [Status.transferring] /\
   Page.timeouts p = [] /\ Page.posted p = []) /\
  (FileMetadata.totalChunks metadata <= distinct_indices arrivals ->
   map ActiveTransfer.status (Page.activeTransfers p) = [Status.completed] /\
   Page.posted p = [] /\
   exists transfer chunks,
     Page.timeouts p = [CompleteFileReceived transfer] /\
     Page.timeouts (Page.step (Page.timeout 0) p) = [] /\
     Page.posted (Page.step (Page.timeout 0) p)
     = (if worker then [FileWorker.mkPayload (FileMetadata.id metadata) chunks metadata]
        else []) /\
     Z.of_nat (length chunks) = FileMetadata.totalChunks metadata).
Proof.
  intros Hn p. subst p. split.
  - intros Hless. rewrite run_incomplete by (by rewrite arrived_map_distinct). done.
  - intros Hge. rewrite <-arrived_map_distinct in Hge.
    destruct (first_completion _ arrivals Hn Hge) as (before & a & later & -> & Hless & Heq).
    rewrite (cons_middle a before later), app_assoc, chunkEvents_app, run_app.
    rewrite run_completing, run_completed by done.
    split_and!; [done..|].
    eexists _, _. split; [reflexivity|].
    rewrite completion_runs by done. split_and!; [done|done|].
    rewrite length_fmap, merge_sort_Permutation. apply Heq.
Qed.

(** C3, as the code has it.  (1) In every state, a chunk message taken by a
    record (it names the record's [fileId], and the record is transferring)
    turns the record to completed if and only if the mapping has
    [metadata.totalChunks] entries after the insertion; exactly then one call
    of [handleCompleteFileReceived] is scheduled, otherwise the record stays
    transferring and nothing is scheduled.  (2) A transfer with
    [totalChunks >= 1], created by its metadata message on a fresh page and
    receiving chunk messages only: as long as fewer than [totalChunks] distinct
    indices have arrived it is transferring, with nothing scheduled or posted;
    from the arrival that brings the number of distinct indices to
    [totalChunks] on, whatever chunk messages follow, it is completed and
    exactly one call of [handleCompleteFileReceived] is pending; when that
    call runs, nothing stays pending and, if the worker was started, one
    ASSEMBLE_FILE message with [totalChunks] chunks is posted to it (without
    a worker nothing is posted). *)
Theorem completion_by_cardinality :
  (forall (fileId : string) (index : Z) (data : bytes) (t : ActiveTransfer.t)
          (maps : list ChunkMap) (timeouts : list Timeout),
     accepts fileId t = true ->
     let r := Page.receiveChunk fileId index data t (maps, timeouts) in
     exists chunks,
       ActiveTransfer.chunks r.1 = Some chunks /\
       (ActiveTransfer.status r.1 = Status.completed
        <-> Page.size_at r.2.1 chunks
            = FileMetadata.totalChunks (ActiveTransfer.metadata t)) /\
       (ActiveTransfer.status r.1 <> Status.completed ->
        ActiveTransfer.status r.1 = Status.transferring /\ r.2.2 = timeouts) /\
       (ActiveTransfer.status r.1 = Status.completed ->
        exists transfer,
          r.2.2 = timeouts ++ [CompleteFileReceived transfer] /\
          ActiveTransfer.chunks transfer = Some chunks /\
          ActiveTransfer.id transfer = ActiveTransfer.id t /\
          ActiveTransfer.metadata transfer = ActiveTransfer.metadata t)) /\
  (forall (worker : bool) (now : Z) (metadata : FileMetadata.t)
          (arrivals : list (Z * (Z * bytes))),
     1 <= FileMetadata.totalChunks metadata ->
     let p := Page.run (chunkEvents (FileMetadata.id metadata) arrivals)
                (Page.handleData now (Metadata metadata) (Page.init worker)) in
     (distinct_indices arrivals < FileMetadata.totalChunks metadata ->
      map ActiveTransfer.status (Page.activeTransfers p) = [Status.transferring] /\
      Page.timeouts p = [] /\ Page.posted p = []) /\
     (FileMetadata.totalChunks metadata <= distinct_indices arrivals ->
      map ActiveTransfer.status (Page.activeTransfers p) = [Status.completed] /\
      Page.posted p = [] /\
      exists transfer chunks,
        Page.timeouts p = [CompleteFileReceived transfer] /\
        Page.timeouts (Page.step (Page.timeout 0) p) = [] /\
        Page.posted (Page.step (Page.timeout 0) p)
        = (if worker then [FileWorker.mkPayload (FileMetadata.id metadata) chunks metadata]
           else []) /\
        Z.of_nat (length chunks) = FileMetadata.totalChunks metadata)).
Proof.
  split.
  - apply receiveChunk_completes_iff.
  - apply completion_of_fresh_transfer.
Qed.

Lemma completion_by_cardinality_witness :
  let metadata := FileMetadata.mk "file-1" "notes.txt" "text/plain" 4 2 in
  let p := Page.run [Page.data 1 (Chunk "file-1" 1 [x03; x04]);
                     Page.data 2 (Chunk "file-1" 0 [x01; x02])]
             (Page.handleData 0 (Metadata metadata) (Page.init true)) in
  map ActiveTransfer.status (Page.activeTransfers p) = [Status.completed] /\
  length (Page.timeouts p) = 1%nat.
Proof.
  intros metadata p.
  destruct (proj2 completion_by_cardinality true 0 metadata
              [(1, (1, [x03; x04])); (2, (0, [x01; x02]))]) as [_ Hcomplete].
  - simpl. lia.
  - destruct Hcomplete as (Hstatus & _ & transfer & chunks & Htimeouts & _).
    + vm_compute. discriminate.
    + split; [exact Hstatus | exact (f_equal length Htimeouts)].
Defined.

(** C3 as stated fails.  Without a worker the completion does not trigger an
    assembly: [processReceivedFile] returns at once, and the transfer is marked
    completed all the same.  And the completion can fire twice: the only chunk
    completes the transfer below; resume re-opens the completed record; the
    duplicate of the chunk completes it again, and two assemblies are
    posted. *)
Lemma completion_not_once_with_assembly :
  let metadata := FileMetadata.mk "file-1" "notes.txt" "text/plain" 2 1 in
  let after (worker : bool) (events : list Page.Event) :=
    Page.run events (Page.init worker) in
  let status_after (worker : bool) (events : list Page.Event) :=
    map ActiveTransfer.status (Page.activeTransfers (after worker events)) in
  let e1 := [Page.data 0 (Metadata metadata); Page.data 1 (Chunk "file-1" 0 [x01; x02])] in
  let e2 := e1 ++ [Page.data 2 (Control "file-1" "resume")] in
  let e3 := e2 ++ [Page.data 3 (Chunk "file-1" 0 [x01; x02])] in
  (status_after false (e1 ++ [Page.timeout 0]) = [Status.completed] /\
   Page.timeouts (after false (e1 ++ [Page.timeout 0])) = [] /\
   Page.posted (after false (e1 ++ [Page.timeout 0])) = []) /\
  (status_after true e1 = [Status.completed] /\
   status_after true e2 = [Status.transferring] /\
   status_after true e3 = [Status.completed] /\
   length (Page.timeouts (after true e3)) = 2%nat /\
   map FileWorker.fileId
     (Page.posted (after true (e3 ++ [Page.timeout 0; Page.timeout 0])))
   = ["file-1"; "file-1"]%string).
Proof. repeat split. Qed.

(** The record handed to the timeout shares its [Map] with the record of the
    page: a chunk taken between the completion and the run of the timeout is
    seen by the size test of [handleCompleteFileReceived], which then posts
    nothing. *)
Example completion_reads_shared_map :
  let metadata := FileMetadata.mk "file-1" "notes.txt" "text/plain" 2 1 in
  let p := Page.run [Page.data 0 (Metadata metadata);
                     Page.data 1 (Chunk "file-1" 0 [x01; x02]);
                     Page.data 2 (Control "file-1" "resume");
                     Page.data 3 (Chunk "file-1" 1 [x03]);
                     Page.timeout 0] (Page.init true) in
  Page.maps p = [[(0, [x01; x02]); (1, [x03])]] /\
  Page.posted p = [] /\
  Page.timeouts p = [] /\
  map ActiveTransfer.status (Page.activeTransfers p) = [Status.transferring].
Proof. repeat split. Qed.


(** ** The empty file *)

Lemma Map_set_size_pos (k : Z) (v : bytes) (m : ChunkMap) : 1 <= Map_size (Map_set k v m).
Proof.
  pose proof (Map_set_size k v m). unfold Map_size in *.
  destruct m as [|[k' v'] m]; simpl in *; [lia|]. destruct (k' =? k); simpl; lia.
Qed.

Lemma receiveChunk_no_chunk_expected (fileId : string) (index : Z) (data : bytes)
    (t : ActiveTransfer.t) (maps : list ChunkMap) (timeouts : list Timeout) :
  expects_no_chunk t -> length maps = 1%nat ->
  let r := Page.receiveChunk fileId index data t (maps, timeouts) in
  expects_no_chunk r.1 /\ length r.2.1 = 1%nat /\ r.2.2 = timeouts.
Proof.
  intros (Htotal & Hchunks & Hst) Hmaps r. subst r. unfold Page.receiveChunk.
  destruct (_ && _); [|done].
  rewrite Hchunks, Htotal. cbn [Page.chunks_or_new].
  destruct maps as [|m [|]]; try discriminate.
  change (Page.size_at (alter (Map_set index data) 0%nat [m]) 0)
    with (Map_size (Map_set index data m)).
  pose proof (Map_set_size_pos index data m).
  destruct (Z.eqb_spec (Map_size (Map_set index data m)) 0); [lia|].
  split_and!; [|done|done]. split_and!; done.
Qed.

Lemma Array_map_no_chunk_expected (fileId : string) (index : Z) (data : bytes)
    (prev : list ActiveTransfer.t) (maps : list ChunkMap) (timeouts : list Timeout) :
  Forall expects_no_chunk prev -> length maps = 1%nat ->
  let r := Page.Array_map (Page.receiveChunk fileId index data) prev (maps, timeouts) in
  Forall expects_no_chunk r.1 /\ length r.2.1 = 1%nat /\ r.2.2 = timeouts.
Proof.
  revert maps. induction prev as [|t prev IH]; intros maps Hall Hmaps; [done|].
  apply Forall_cons in Hall as [Ht Hall]. cbv zeta. cbn [Page.Array_map].
  pose proof (receiveChunk_no_chunk_expected fileId index data t maps timeouts Ht Hmaps) as Hr.
  destruct (Page.receiveChunk fileId index data t (maps, timeouts)) as [t' [maps' timeouts']].
  cbn [fst snd] in Hr. destruct Hr as (Ht' & Hmaps' & ->).
  specialize (IH maps' Hall Hmaps'). cbv zeta in IH.
  destruct (Page.Array_map _ prev (maps', timeouts)) as [ts [maps'' timeouts'']].
  cbn [fst snd] in *. destruct IH as (? & ? & ?). split_and!; [by constructor|done|done].
Qed.

Lemma setStatus_no_chunk_expected (fileId : string) (status : Status.t)
    (prev : list ActiveTransfer.t) :
  status <> Status.completed -> Forall expects_no_chunk prev ->
  Forall expects_no_chunk (Page.setStatus fileId status prev).
Proof.
  intros Hst Hall. unfold Page.setStatus. apply Forall_map.
  eapply Forall_impl; [exact Hall|]. intros t (? & ? & ?).
  by destruct (String.eqb _ _).
Qed.

Lemma remove_no_chunk_expected (fileId : string) (prev : list ActiveTransfer.t) :
  Forall expects_no_chunk prev -> Forall expects_no_chunk (Page.remove fileId prev).
Proof.
  induction 1 as [|t prev Ht Hall IH]; simpl; [done|].
  destruct (negb _); [by constructor|done].
Qed.

Lemma step_never_completing (e : Page.Event) (p : Page.t) :
  is_metadata e = false -> never_completing p -> never_completing (Page.step e p).
Proof.
  intros He (Hposted & Hmaps & Htimeouts & Hall).
  destruct e as [now [metadata|fileId index data|fileId action|]|n]; try discriminate.
  - unfold Page.step, Page.handleData.
    destruct (Page.activeTransfers p) as [|t0 prev] eqn:Hprev.
    { cbn [Page.Array_map]. by split_and!. }
    rewrite <-Hprev in *. assert (Hone : length (Page.maps p) = 1%nat).
    { apply Hmaps. by rewrite Hprev. }
    pose proof (Array_map_no_chunk_expected fileId index data _ _ (Page.timeouts p) Hall Hone)
      as Hr.
    destruct (Page.Array_map _ _ _) as [ts [maps' timeouts']]. simpl in Hr.
    destruct Hr as (? & ? & ->). by split_and!.
  - assert (Hset : forall status,
               Page.setStatus fileId status (Page.activeTransfers p) <> [] ->
               length (Page.maps p) = 1%nat).
    { intros status Hne. apply Hmaps. intros Hnil. by rewrite Hnil in Hne. }
    unfold Page.step, Page.handleData.
    repeat case_match; [| | |done]; split_and!; cbn; try done; eauto.
    + by apply setStatus_no_chunk_expected.
    + by apply setStatus_no_chunk_expected.
    + apply Forall_app. split; [done|]. apply Forall_singleton. by exists fileId.
    + by apply setStatus_no_chunk_expected.
  - done.
  - unfold Page.step. destruct (Page.timeouts p !! n) as [callback|] eqn:Hn; [|done].
    assert (Hcallback : is_removal callback).
    { eapply Forall_lookup_1; [exact Htimeouts|exact Hn]. }
    destruct Hcallback as [fileId ->]. split_and!; cbn; [done| | |].
    + intros Hne. apply Hmaps. intros Hnil. by rewrite Hnil in Hne.
    + by apply Forall_delete.
    + by apply remove_no_chunk_expected.
Qed.

Lemma run_never_completing (events : list Page.Event) (p : Page.t) :
  forallb (fun e => negb (is_metadata e)) events = true ->
  never_completing p -> never_completing (Page.run events p).
Proof.
  revert p. induction events as [|e events IH]; intros p Hev Hp; [done|].
  simpl in Hev. apply andb_true_iff in Hev as [He Hev].
  apply negb_true_iff in He. simpl. apply IH; [done|]. by apply step_never_completing.
Qed.

(** Whether or not the metadata of the empty file has reached the page,
    whatever arrives then and whichever timeout runs, short of another
    metadata message: no record is ever completed and nothing is ever posted
    to the worker. *)
Lemma empty_file_stuck (name type fileId : string) (worker : bool) (now : Z)
    (k : nat) (events : list Page.Event) :
  forallb (fun e => negb (is_metadata e)) events = true ->
  let sent := Page.sendFile_sent Some (File.mk name type []) fileId in
  let p := Page.run (map (Page.data now) (take k sent) ++ events) (Page.init worker) in
  Page.posted p = [] /\
  forall t, t ∈ Page.activeTransfers p -> ActiveTransfer.status t <> Status.completed.
Proof.
  intros Hev sent p. subst p. rewrite run_app.
  pose proof (run_never_completing events
                (Page.run (map (Page.data now) (take k sent)) (Page.init worker)) Hev) as Hrun.
  destruct Hrun as (Hposted & _ & _ & Hall).
  - destruct k as [|k].
    + split_and!; [done|done|by apply Forall_nil|by apply Forall_nil].
    + replace (take (S k) sent) with sent by (by destruct k).
      split_and!; [done|done|by apply Forall_nil|].
      apply Forall_singleton. split_and!; done.
  - split; [done|]. intros t Ht.
    rewrite list.Forall_forall in Hall. by destruct (Hall t Ht) as (_ & _ & ?).
Qed.

(** C7 on the code.  For a file of 0 bytes [chunkFile] computes
    [totalChunks = 0] (on the receiving side the size test reads the same
    [metadata.totalChunks]) and hands out no chunk, so the metadata is all that
    is sent.  The receiving page then holds a transferring record whose
    mapping has [0 = totalChunks] entries, but the size test is only made when
    a chunk arrives: nothing is scheduled, nothing is posted to the worker and
    no timeout can run.  Whether or not the metadata has arrived, and whatever
    arrives afterwards, short of another metadata message, no record is ever
    completed and nothing is ever posted to the worker: no blob of 0 bytes is
    assembled. *)
Theorem empty_file_never_completes (name type fileId : string) (worker : bool) (now : Z) :
  let file := File.mk name type [] in
  let sent := Page.sendFile_sent Some file fileId in
  let p := Page.run (map (Page.data now) sent) (Page.init worker) in
  (FileWorkerManager.chunkFile Some file fileId).2 = [FileWorkerManager.onComplete] /\
  sent = [Metadata (FileMetadata.mk fileId name type 0 0)] /\
  map ActiveTransfer.status (Page.activeTransfers p) = [Status.transferring] /\
  map (Page.size_at (Page.maps p)) (omap ActiveTransfer.chunks (Page.activeTransfers p)) = [0] /\
  Page.timeouts p = [] /\
  Page.posted p = [] /\
  (forall n, Page.step (Page.timeout n) p = p) /\
  (forall (k : nat) (events : list Page.Event),
     forallb (fun e => negb (is_metadata e)) events = true ->
     let q := Page.run (map (Page.data now) (take k sent) ++ events) (Page.init worker) in
     Page.posted q = [] /\
     forall t, t ∈ Page.activeTransfers q -> ActiveTransfer.status t <> Status.completed).
Proof.
  intros file sent p. subst p sent file.
  split_and!; try reflexivity.
  intros k events Hev. by apply empty_file_stuck.
Qed.

(** ** From the sender to the worker *)

(** A file of at least one byte, sent by [sendFile] and received by a fresh
    page: the metadata first, the chunks in any order of arrival, then the
    scheduled completion.  The page ends with the transfer completed, nothing
    pending, and one message posted to the worker, from which [assembleFile]
    rebuilds the file. *)
Theorem received_file_is_sent_file (file : File.t) (fileId : string) (now : Z)
    (arrivals : list (Z * (Z * bytes))) :
  1 <= File.size file ->
  arrivals.*2
  ≡ₚ map entry (FileWorkerManager.chunksReady
                    (FileWorkerManager.chunkFile Some file fileId).2) ->
  let metadata := FileWorkerManager.metadata file fileId in
  let p := Page.run (Page.data now (Metadata metadata)
                     :: chunkEvents fileId arrivals ++ [Page.timeout 0])
             (Page.init true) in
  map ActiveTransfer.status (Page.activeTransfers p) = [Status.completed] /\
  Page.timeouts p = [] /\
  map FileWorker.assembleFile (Page.posted p)
  = [FileWorker.FILE_ASSEMBLED fileId
       (Blob.mk (File.contents file) (File.type file)) metadata].
Proof.
  intros Hsize Hperm metadata p.
  rewrite chunkFile_entries in Hperm by done.
  pose proof (totalChunks_bounds file) as Hb. pose proof chunkSize_pos as Hc.
  assert (Hn : 1 <= FileMetadata.totalChunks metadata) by (simpl; nia).
  assert (Hkeys : NoDup (arrivals.*2).*1).
  { rewrite Hperm, blocks_keys. apply NoDup_seqZ. }
  assert (Hmap : forall l, NoDup (l.*2).*1 -> arrived_map l = l.*2).
  { intros l Hl. unfold arrived_map. by rewrite Map_deliver_fresh. }
  assert (Hlen : Z.of_nat (length arrivals) = FileMetadata.totalChunks metadata).
  { rewrite <-(length_fmap snd arrivals), Hperm, length_map, length_seqZ. simpl. lia. }
  destruct arrivals as [|a arrivals _] using rev_ind; [simpl in Hlen; lia|].
  assert (Hbefore : NoDup (arrivals.*2).*1).
  { rewrite !fmap_app in Hkeys. by apply NoDup_app in Hkeys as (? & _ & _). }
  assert (Hfull : Map_size (arrived_map (arrivals ++ [a])) = FileMetadata.totalChunks metadata).
  { rewrite Hmap by done. unfold Map_size. rewrite length_fmap. exact Hlen. }
  assert (Hless : Map_size (arrived_map arrivals) < FileMetadata.totalChunks metadata).
  { rewrite Hmap by done. unfold Map_size. rewrite length_fmap, <-Hlen, length_app.
    simpl. lia. }
  subst p. change (Page.run (?e :: ?es) ?q) with (Page.run es (Page.step e q)).
  rewrite run_app. change (Page.step (Page.data now (Metadata metadata)) (Page.init true))
    with (Page.handleData now (Metadata metadata) (Page.init true)).
  change fileId with (FileMetadata.id metadata) at 1 2 3.
  rewrite run_completing by done.
  change (Page.run [Page.timeout 0] ?q) with (Page.step (Page.timeout 0) q).
  rewrite completion_runs by done.
  split_and!; [done|done|]. cbn [Page.posted map].
  pose proof (assemble_chunks_of_file file fileId (arrived_map (arrivals ++ [a]))) as Hasm.
  rewrite Hmap in Hasm by done. specialize (Hasm Hperm).
  unfold FileWorkerManager.processReceivedFile in Hasm. cbn in Hasm.
  injection Hasm as Hasm. rewrite Hmap by done. f_equal. exact Hasm.
Qed.

(** ** The worker's [chunkFile] *)

Lemma Uint8Array_slice_inside (data : bytes) (start end_ : Z) :
  0 <= start <= end_ -> end_ <= byteLength data ->
  Uint8Array_slice data start end_ = take (Z.to_nat (end_ - start)) (drop (Z.to_nat start) data).
Proof. apply Blob_slice_inside. Qed.

Lemma block_length (data : bytes) (chunkSize i : Z) :
  0 < chunkSize -> 0 <= i ->
  byteLength (block data chunkSize i)
  = Z.max 0 (Z.min chunkSize (byteLength data - i * chunkSize)).
Proof.
  intros Hc Hi. unfold block, byteLength. rewrite length_take, length_drop. nia.
Qed.

(** The blocks from [k] on make up the rest of the data. *)
Lemma block_concat (data : bytes) (chunkSize : Z) (n : nat) (k : Z) :
  0 < chunkSize -> 0 <= k -> byteLength data <= (k + Z.of_nat n) * chunkSize ->
  concat (map (block data chunkSize) (seqZ k (Z.of_nat n)))
  = drop (Z.to_nat (k * chunkSize)) data.
Proof.
  intros Hc. revert k. induction n as [|n IH]; intros k Hk Hn.
  - simpl. rewrite drop_ge; [done|]. unfold byteLength in Hn. nia.
  - rewrite seqZ_cons by lia. simpl.
    replace (Z.pred (Z.of_nat (S n))) with (Z.of_nat n) by lia.
    rewrite IH by lia. unfold block.
    replace (Z.to_nat (Z.succ k * chunkSize))
      with (Z.to_nat (k * chunkSize) + Z.to_nat chunkSize)%nat by nia.
    rewrite <-drop_drop. apply take_drop.
Qed.

(** The loop of [chunkFile] from block [k] on: it ends when the fuel covers the
    remaining blocks, and then it has pushed them in order. *)
Lemma chunk_loop_blocks (data : bytes) (chunkSize : Z) (fuel : nat) (k : Z)
    (chunks : list Worker.Chunk) :
  0 < chunkSize -> 0 <= k <= Math_ceil_div (byteLength data) chunkSize ->
  Worker.chunk_loop fuel data chunkSize (Z.min (k * chunkSize) (byteLength data)) k chunks
  = if decide (Z.to_nat (Math_ceil_div (byteLength data) chunkSize - k) <= fuel)%nat
    then Some (chunks ++ map (blockChunk data chunkSize)
                           (seqZ k (Math_ceil_div (byteLength data) chunkSize - k)))
    else None.
Proof.
  intros Hc. pose proof (Math_ceil_div_bounds (byteLength data) chunkSize Hc) as Hb.
  set (total := Math_ceil_div (byteLength data) chunkSize) in *.
  revert k chunks. induction fuel as [|fuel IH]; intros k chunks Hk.
  - simpl. destruct (Z.ltb_spec (Z.min (k * chunkSize) (byteLength data)) (byteLength data)).
    + rewrite decide_False by nia. done.
    + rewrite decide_True by nia. rewrite seqZ_nil by nia. by rewrite app_nil_r.
  - simpl. destruct (Z.ltb_spec (Z.min (k * chunkSize) (byteLength data)) (byteLength data)).
    + assert (k < total) by nia.
      rewrite (Z.min_l (k * chunkSize)) by lia.
      replace (k * chunkSize + chunkSize) with ((k + 1) * chunkSize) by lia.
      rewrite IH by lia.
      destruct (decide (Z.to_nat (total - (k + 1)) <= fuel)%nat).
      * rewrite decide_True by lia. f_equal. rewrite <-app_assoc. f_equal.
        rewrite (seqZ_cons k) by lia. simpl.
        replace (Z.succ k) with (k + 1) by lia.
        replace (Z.pred (total - k)) with (total - (k + 1)) by lia.
        f_equal. unfold blockChunk. f_equal.
        rewrite Uint8Array_slice_inside by nia. unfold block.
        destruct (Z.min_spec ((k + 1) * chunkSize) (byteLength data)) as [[? ->]|[? ->]].
        -- f_equal. lia.
        -- rewrite !take_ge; [done| |]; rewrite length_drop; unfold byteLength in *; nia.
      * rewrite decide_False by lia. done.
    + rewrite decide_True by nia. rewrite seqZ_nil by nia. by rewrite app_nil_r.
Qed.

Lemma chunkFile_blocks (fuel : nat) (payload : Worker.ChunkPayload) :
  0 < Worker.chunkSize payload ->
  Worker.chunkFile fuel payload
  = if decide (Z.to_nat (Math_ceil_div (byteLength (Worker.fileData payload))
                           (Worker.chunkSize payload)) <= fuel)%nat
    then Some (Worker.FILE_CHUNKED (Worker.fileId payload)
                 (map (blockChunk (Worker.fileData payload) (Worker.chunkSize payload))
                    (seqZ 0 (Math_ceil_div (byteLength (Worker.fileData payload))
                               (Worker.chunkSize payload))))
                 (Worker.metadata payload))
    else None.
Proof.
  intros Hc. unfold Worker.chunkFile.
  pose proof (chunk_loop_blocks (Worker.fileData payload) (Worker.chunkSize payload) fuel 0 [] Hc)
    as Hloop.
  pose proof (Math_ceil_div_nonneg (byteLength (Worker.fileData payload))
                (Worker.chunkSize payload) Hc (byteLength_nonneg _)).
  pose proof (byteLength_nonneg (Worker.fileData payload)).
  rewrite Z.mul_0_l, Z.min_l, Z.sub_0_r in Hloop by lia.
  rewrite Hloop by lia. by destruct (decide _).
Qed.

(** With a [chunkSize] that is not positive the loop makes no progress on
    data that is not empty. *)
Lemma chunk_loop_stuck (data : bytes) (chunkSize : Z) (fuel : nat) (offset index : Z)
    (chunks : list Worker.Chunk) :
  chunkSize <= 0 -> offset <= 0 -> 0 < byteLength data ->
  Worker.chunk_loop fuel data chunkSize offset index chunks = None.
Proof.
  intros Hc. revert offset index chunks.
  induction fuel as [|fuel IH]; intros offset index chunks Ho Hd; simpl.
  - destruct (Z.ltb_spec offset (byteLength data)); [done|lia].
  - destruct (Z.ltb_spec offset (byteLength data)); [|lia]. apply IH; lia.
Qed.

(** X1.  The worker's [chunkFile] with a positive [chunkSize]: the loop ends
    after the ceiling of [data.length / chunkSize] iterations, and the
    FILE_CHUNKED message carries the [fileId] and the metadata of the request
    and the blocks of [chunkSize] bytes of the data, in order, under the
    indices 0, 1, 2, ...; every block but the last has [chunkSize] bytes, and
    the blocks put end to end are the data. *)
Theorem Worker_chunkFile_decomposition (fuel : nat) (payload : Worker.ChunkPayload) :
  0 < Worker.chunkSize payload ->
  let data := Worker.fileData payload in
  let chunkSize := Worker.chunkSize payload in
  let total := Math_ceil_div (byteLength data) chunkSize in
  (Z.to_nat total <= fuel)%nat ->
  exists chunks,
    Worker.chunkFile fuel payload
    = Some (Worker.FILE_CHUNKED (Worker.fileId payload) chunks (Worker.metadata payload)) /\
    map Worker.index chunks = seqZ 0 total /\
    (forall (i : nat) (c : Worker.Chunk),
       chunks !! i = Some c ->
       Worker.data c = take (Z.to_nat chunkSize) (drop (i * Z.to_nat chunkSize) data) /\
       byteLength (Worker.data c)
       = if Z.of_nat i <? total - 1 then chunkSize
         else byteLength data - (total - 1) * chunkSize) /\
    concat (map Worker.data chunks) = data.
Proof.
  intros Hc data chunkSize total Hfuel.
  pose proof (Math_ceil_div_bounds (byteLength data) chunkSize Hc) as Hb.
  pose proof (Math_ceil_div_nonneg (byteLength data) chunkSize Hc (byteLength_nonneg _)) as Hn.
  fold total in Hb, Hn.
  eexists. split; [|split_and!].
  - rewrite chunkFile_blocks by done. fold data chunkSize total.
    rewrite decide_True by done. reflexivity.
  - rewrite map_map. simpl. apply map_id.
  - intros i c Hi. change (map ?f ?l) with (f <$> l) in Hi.
    apply list_lookup_fmap_Some in Hi as (j & -> & Hj).
    apply lookup_seqZ in Hj as [-> Hlt]. simpl. split.
    + unfold block. do 2 f_equal. nia.
    + rewrite block_length by lia.
      destruct (Z.ltb_spec (Z.of_nat i) (total - 1)); nia.
  - rewrite map_map. simpl.
    rewrite <-(Z2Nat.id total) by done.
    rewrite block_concat by lia. apply drop_0.
Qed.

Lemma Worker_chunkFile_decomposition_witness :
  exists chunks,
    Worker.chunkFile 3 (Worker.mkPayload "file-1" [x61; x62; x63; x64; x65] 2
                          (FileMetadata.mk "file-1" "a.txt" "text/plain" 5 3))
    = Some (Worker.FILE_CHUNKED "file-1" chunks
              (FileMetadata.mk "file-1" "a.txt" "text/plain" 5 3)) /\
    map Worker.index chunks = [0; 1; 2] /\
    concat (map Worker.data chunks) = [x61; x62; x63; x64; x65].
Proof.
  destruct (Worker_chunkFile_decomposition 3
              (Worker.mkPayload "file-1" [x61; x62; x63; x64; x65] 2
                 (FileMetadata.mk "file-1" "a.txt" "text/plain" 5 3)))
    as (chunks & H1 & H2 & _ & H4); [reflexivity | vm_compute; lia |].
  exists chunks. split_and!; [exact H1 | exact H2 | exact H4].
Defined.

(** X2.  The loop of the worker's [chunkFile] ends if and only if [chunkSize]
    is positive or the data is empty: with a [chunkSize] of 0 or below and at
    least one byte of data, [offset] never reaches [data.length] and nothing
    is ever posted. *)
Theorem Worker_chunkFile_returns_iff (payload : Worker.ChunkPayload) :
  (exists fuel, Worker.chunkFile fuel payload <> None)
  <-> 0 < Worker.chunkSize payload \/ Worker.fileData payload = [].
Proof.
  split.
  - intros [fuel Hfuel].
    destruct (Z_lt_le_dec 0 (Worker.chunkSize payload)) as [?|Hc]; [by left|right].
    destruct (Worker.fileData payload) as [|b data] eqn:Hdata; [done|].
    destruct Hfuel. unfold Worker.chunkFile.
    rewrite chunk_loop_stuck; [done|done|done|].
    rewrite Hdata. unfold byteLength. simpl. lia.
  - intros [Hc|Hdata].
    + eexists. rewrite chunkFile_blocks by done. rewrite decide_True by reflexivity. done.
    + exists 0%nat. unfold Worker.chunkFile. rewrite Hdata. done.
Qed.

(** X3.  What the worker's [chunkFile] posts is undone by its [assembleFile]:
    whenever [chunkFile] posts FILE_CHUNKED for data whose length is the
    [size] of the metadata, the data of the chunks, in the order posted, are
    assembled into a blob with exactly the bytes of the data. *)
Theorem Worker_chunk_then_assemble (fuel : nat) (payload : Worker.ChunkPayload)
    (fileId : string) (chunks : list Worker.Chunk) (metadata : FileMetadata.t) :
  FileMetadata.size (Worker.metadata payload) = byteLength (Worker.fileData payload) ->
  Worker.chunkFile fuel payload = Some (Worker.FILE_CHUNKED fileId chunks metadata) ->
  FileWorker.assembleFile (FileWorker.mkPayload fileId (map Worker.data chunks) metadata)
  = FileWorker.FILE_ASSEMBLED fileId
      (Blob.mk (Worker.fileData payload) (FileMetadata.type metadata)) metadata.
Proof.
  intros Hsize Hposted.
  assert (Hconcat : concat (map Worker.data chunks) = Worker.fileData payload
                    /\ metadata = Worker.metadata payload).
  { destruct (Z_lt_le_dec 0 (Worker.chunkSize payload)) as [Hc|Hc].
    - rewrite chunkFile_blocks in Hposted by done.
      destruct (decide _); [|done]. injection Hposted as _ <- <-. split; [|done].
      rewrite map_map. simpl.
      pose proof (Math_ceil_div_bounds (byteLength (Worker.fileData payload)) _ Hc).
      pose proof (Math_ceil_div_nonneg (byteLength (Worker.fileData payload)) _ Hc
                    (byteLength_nonneg _)) as Hn.
      rewrite <-(Z2Nat.id _ Hn). rewrite block_concat by lia. apply drop_0.
    - unfold Worker.chunkFile in Hposted.
      destruct (Worker.fileData payload) as [|b data] eqn:Hdata.
      + destruct fuel; simpl in Hposted; by injection Hposted as _ <- <-.
      + rewrite chunk_loop_stuck in Hposted; [done|done|done|].
        unfold byteLength. simpl. lia. }
  destruct Hconcat as [Hconcat ->].
  rewrite assembleFile_concat; rewrite Hconcat; done.
Qed.

Lemma Worker_chunk_then_assemble_witness :
  FileWorker.assembleFile
    (FileWorker.mkPayload "file-1" [[x61; x62]; [x63; x64]; [x65]]
       (FileMetadata.mk "file-1" "a.txt" "text/plain" 5 3))
  = FileWorker.FILE_ASSEMBLED "file-1" (Blob.mk [x61; x62; x63; x64; x65] "text/plain")
      (FileMetadata.mk "file-1" "a.txt" "text/plain" 5 3).
Proof.
  apply (Worker_chunk_then_assemble 3
           (Worker.mkPayload "file-1" [x61; x62; x63; x64; x65] 2
              (FileMetadata.mk "file-1" "a.txt" "text/plain" 5 3))
           "file-1"
           [Worker.mkChunk 0 [x61; x62]; Worker.mkChunk 1 [x63; x64]; Worker.mkChunk 2 [x65]]);
    reflexivity.
Defined.

(** X4.  The two chunkers cut a file the same way: the worker's [chunkFile],
    given the contents of a file and the page's chunk size of 16384, posts the
    chunks that [chunkFile] of [FileWorkerManager] hands to [onChunkReady]
    when its reads succeed, index by index and byte by byte. *)
Theorem chunkers_agree (file : File.t) (fileId : string) (metadata : FileMetadata.t)
    (extra : nat) :
  Worker.chunkFile (Z.to_nat (FileWorkerManager.totalChunks file) + extra)
    (Worker.mkPayload fileId (File.contents file) FileWorkerManager.chunkSize metadata)
  = Some (Worker.FILE_CHUNKED fileId
            (map (fun c => Worker.mkChunk (FileChunk.index c) (FileChunk.data c))
               (FileWorkerManager.chunksReady
                  (FileWorkerManager.chunkFile Some file fileId).2))
            metadata).
Proof.
  rewrite chunkFile_blocks by apply chunkSize_pos. cbn [Worker.fileData Worker.chunkSize].
  change (Math_ceil_div (byteLength (File.contents file)) FileWorkerManager.chunkSize)
    with (FileWorkerManager.totalChunks file).
  rewrite decide_True by lia. cbn [Worker.fileId Worker.metadata]. do 2 f_equal.
  rewrite chunkFile_chunks by done. rewrite map_map. cbn [FileChunk.index FileChunk.data].
  apply map_ext_in. intros i Hi%list_elem_of_In%elem_of_seqZ.
  unfold blockChunk. f_equal. rewrite chunkBlob_block by lia. unfold block.
  pose proof chunkSize_pos.
  destruct (Z.min_spec FileWorkerManager.chunkSize
              (File.size file - i * FileWorkerManager.chunkSize)) as [[? ->]|[? ->]]; [done|].
  rewrite !take_ge; [done| |]; rewrite length_drop; unfold File.size, byteLength in *; nia.
Qed.

(** ** The assembler on any payload *)




(** ** The worker's [self.onmessage] *)

Section reader.
Import Worker.
Variable Math_round : float -> float.
Variable readAsArrayBuffer : Z -> bytes -> option bytes.
Variable file : File.t.
Variable chunkSize : positive.

(** The slice read for block [k] is that block. *)
Lemma onmessage_slice (k : Z) :
  0 <= k -> k * Z.pos chunkSize <= File.size file ->
  Blob_slice (File.contents file) (k * Z.pos chunkSize)
    (k * Z.pos chunkSize + Z.pos chunkSize)
  = block (File.contents file) (Z.pos chunkSize) k.
Proof.
  intros Hk Hsize. unfold Blob_slice, block. unfold File.size in Hsize.
  destruct (Z.ltb_spec (k * Z.pos chunkSize) 0); [lia|].
  destruct (Z.ltb_spec (k * Z.pos chunkSize + Z.pos chunkSize) 0); [lia|].
  rewrite (Z.min_l (k * Z.pos chunkSize)) by lia.
  destruct (Z.min_spec (k * Z.pos chunkSize + Z.pos chunkSize)
              (byteLength (File.contents file))) as [[? ->]|[? ->]].
  - do 2 f_equal. lia.
  - rewrite !take_ge; [done| |]; rewrite length_drop; unfold byteLength in *; lia.
Qed.

(** The run of the reader from block [k] on, as long as the reads of the
    blocks before [stop] succeed: the messages of the blocks up to the last
    one or up to [stop], then the report of the failed read, if any. *)
Lemma readNextChunk_trace (offset k : Z) (stop : option Z) :
  offset = k * Z.pos chunkSize -> 0 <= k ->
  k * Z.pos chunkSize <= File.size file ->
  k < Z.max 1 (onmessage_totalChunks file chunkSize) ->
  (forall i, k <= i < Z.max 1 (onmessage_totalChunks file chunkSize) ->
     (forall s, stop = Some s -> i < s) ->
     readAsArrayBuffer i (block (File.contents file) (Z.pos chunkSize) i)
     = Some (block (File.contents file) (Z.pos chunkSize) i)) ->
  (forall s, stop = Some s ->
     k <= s < Z.max 1 (onmessage_totalChunks file chunkSize) /\
     readAsArrayBuffer s (block (File.contents file) (Z.pos chunkSize) s) = None) ->
  readNextChunk Math_round readAsArrayBuffer file chunkSize offset k
  = map (blockMessage Math_round file (Z.pos chunkSize) (onmessage_totalChunks file chunkSize))
      (seqZ k (default (Z.max 1 (onmessage_totalChunks file chunkSize)) stop - k))
    ++ match stop with Some _ => [readError] | None => [] end.
Proof.
  pose proof (Math_ceil_div_bounds (File.size file) (Z.pos chunkSize) eq_refl) as Hb.
  fold (onmessage_totalChunks file chunkSize) in Hb.
  funelim (readNextChunk Math_round readAsArrayBuffer file chunkSize offset k);
    intros -> Hk Hsize Hlt Hreads Hstop;
    set (total := Z.max 1 (onmessage_totalChunks file chunkSize)) in *;
    match goal with
    | Hread : readAsArrayBuffer _ _ = _ |- _ =>
        rewrite onmessage_slice in Hread by done; rename Hread into Hresult
    end.
  - (* the read fails *)
    destruct stop as [s|].
    + destruct (Hstop s eq_refl) as [Hs Hnone].
      destruct (decide (s = currentChunk0)) as [->|Hne].
      * simpl. rewrite seqZ_nil by lia. done.
      * rewrite Hreads in Hresult; [done|lia|]. intros ? [= <-]. lia.
    + rewrite Hreads in Hresult; [done|lia|done].
  - (* the read succeeds, another block follows *)
    assert (currentChunk0 + 1 < total) by (subst total; nia).
    assert (Hnext : currentChunk0 < default total stop
                    /\ forall s, stop = Some s -> currentChunk0 + 1 <= s).
    { destruct stop as [s|]; simpl; [|split; [lia|done]].
      destruct (Hstop s eq_refl) as [? Hnone].
      destruct (decide (s = currentChunk0)) as [->|?].
      - congruence.
      - split; [lia|]. intros ? [= <-]. lia. }
    destruct Hnext as [Hnext Hlater].
    rewrite Hreads in Hresult; [|lia|intros s Hs; specialize (Hlater s Hs); lia].
    injection Hresult as <-.
    rewrite (seqZ_cons currentChunk0) by lia. simpl. f_equal.
    replace (Z.succ currentChunk0) with (currentChunk0 + 1) by lia.
    replace (Z.pred (default total stop - currentChunk0))
      with (default total stop - (currentChunk0 + 1)) by lia.
    match goal with IH : context [readNextChunk] |- _ => apply IH end;
      [done|lia|lia|lia|done| |].
    + intros i Hi Hs. apply Hreads; [lia|done].
    + intros s Hs. destruct (Hstop s Hs) as [? ?]. specialize (Hlater s Hs). split; [lia|done].
  - (* the read succeeds, it was the last block *)
    assert (total = currentChunk0 + 1) by (subst total; nia).
    assert (stop = None) as ->.
    { destruct stop as [s|]; [|done]. destruct (Hstop s eq_refl) as [? Hnone].
      assert (s = currentChunk0) as -> by lia. congruence. }
    rewrite Hreads in Hresult; [|lia|done]. injection Hresult as <-.
    simpl. replace (total - currentChunk0) with 1 by lia.
    rewrite app_nil_r. reflexivity.
Qed.

End reader.

(** When the reads succeed, one message per block is posted, and one message
    for an empty file. *)
Lemma onmessage_trace (Math_round : float -> float)
    (readAsArrayBuffer : Z -> bytes -> option bytes) (file : File.t) (chunkSize : positive) :
  (forall n b, readAsArrayBuffer n b = Some b) ->
  let total := Math_ceil_div (File.size file) (Z.pos chunkSize) in
  Worker.onmessage Math_round readAsArrayBuffer file chunkSize
  = map (blockMessage Math_round file (Z.pos chunkSize) total) (seqZ 0 (Z.max 1 total)).
Proof.
  intros reads total. unfold Worker.onmessage.
  pose proof (byteLength_nonneg (File.contents file)) as Hpos. fold (File.size file) in Hpos.
  rewrite (readNextChunk_trace Math_round readAsArrayBuffer file chunkSize 0 0 None);
    try done; try lia.
  simpl. by rewrite app_nil_r, Z.sub_0_r.
Qed.

(** X6.  The worker's [self.onmessage] on a file of at least one byte whose
    reads succeed, for a positive integer [chunkSize]: it posts one message
    per block of [chunkSize] bytes, in order, the ceiling of
    [file.size / chunkSize] messages in all; message [i] carries block [i],
    the count [i + 1] and the total, and [done] is true on the last message
    and on no other; the chunks put end to end are the file. *)
Theorem Worker_onmessage_blocks (Math_round : float -> float)
    (readAsArrayBuffer : Z -> bytes -> option bytes) (file : File.t) (chunkSize : positive) :
  (forall n b, readAsArrayBuffer n b = Some b) ->
  1 <= File.size file ->
  let total := Math_ceil_div (File.size file) (Z.pos chunkSize) in
  exists messages,
    Worker.onmessage Math_round readAsArrayBuffer file chunkSize
    = map Worker.chunkRead messages /\
    Z.of_nat (length messages) = total /\
    (forall (i : nat) (m : Worker.ChunkMessage),
       messages !! i = Some m ->
       Worker.chunk m
       = take (Pos.to_nat chunkSize) (drop (i * Pos.to_nat chunkSize) (File.contents file)) /\
       Worker.currentChunk m = Z.of_nat i + 1 /\
       Worker.totalChunks m = total /\
       Worker.progress m = Math_round (percent (Z.of_nat i + 1) total) /\
       Worker.fileName m = File.name file /\
       Worker.fileType m = File.type file /\
       (Worker.done m = true <-> Z.of_nat i + 1 = total)) /\
    concat (map Worker.chunk messages) = File.contents file.
Proof.
  intros reads Hsize total.
  pose proof (Math_ceil_div_bounds (File.size file) (Z.pos chunkSize) eq_refl) as Hb.
  fold total in Hb.
  assert (Hn : 1 <= total) by nia.
  exists (map (fun i => Worker.mkChunkMessage (block (File.contents file) (Z.pos chunkSize) i)
                          (Math_round (percent (i + 1) total)) (File.name file)
                          (File.type file) (i + 1) total (i + 1 =? total))
            (seqZ 0 total)).
  split_and!.
  - rewrite onmessage_trace by done. fold total. rewrite Z.max_r by lia.
    by rewrite map_map.
  - rewrite length_map, length_seqZ. lia.
  - intros i m Hi. change (map ?f ?l) with (f <$> l) in Hi.
    apply list_lookup_fmap_Some in Hi as (j & -> & Hj).
    apply lookup_seqZ in Hj as [-> Hlt]. rewrite Z.add_0_l. simpl. split_and!; try done.
    + unfold block. do 2 f_equal; lia.
    + apply Z.eqb_eq.
  - rewrite map_map. simpl. rewrite <-(Z2Nat.id total) by lia.
    rewrite block_concat; [apply drop_0|lia|lia|].
    unfold File.size in Hb. lia.
Qed.

Lemma Worker_onmessage_blocks_witness :
  exists messages,
    Worker.onmessage (fun x => x) (fun _ => Some)
      (File.mk "a.txt" "text/plain" [x61; x62; x63; x64; x65]) 2
    = map Worker.chunkRead messages /\
    Z.of_nat (length messages) = 3 /\
    concat (map Worker.chunk messages) = [x61; x62; x63; x64; x65].
Proof.
  destruct (Worker_onmessage_blocks (fun x => x) (fun _ => Some)
              (File.mk "a.txt" "text/plain" [x61; x62; x63; x64; x65]) 2)
    as (messages & H1 & H2 & _ & H4); [reflexivity | vm_compute; discriminate |].
  exists messages. split_and!; [exact H1 | exact H2 | exact H4].
Defined.

(** X7.  [self.onmessage] signals the end only for a file that is not empty.
    When the reads succeed, some posted message has [done] true if and only
    if the file has at least one byte.  For an empty file exactly one
    message is posted, with an empty chunk, the count 1 and the total 0, and
    [done] false. *)
Theorem Worker_onmessage_done_iff_nonempty (Math_round : float -> float)
    (readAsArrayBuffer : Z -> bytes -> option bytes) (file : File.t) (chunkSize : positive) :
  (forall n b, readAsArrayBuffer n b = Some b) ->
  ((exists m, Worker.chunkRead m
              ∈ Worker.onmessage Math_round readAsArrayBuffer file chunkSize
              /\ Worker.done m = true)
   <-> 1 <= File.size file) /\
  (File.size file = 0 ->
   Worker.onmessage Math_round readAsArrayBuffer file chunkSize
   = [Worker.chunkRead
        (Worker.mkChunkMessage [] (Math_round (percent 1 0)) (File.name file)
           (File.type file) 1 0 false)]).
Proof.
  intros reads.
  pose proof (Math_ceil_div_bounds (File.size file) (Z.pos chunkSize) eq_refl) as Hb.
  pose proof (byteLength_nonneg (File.contents file)) as Hpos. fold (File.size file) in Hpos.
  rewrite onmessage_trace by done.
  set (total := Math_ceil_div (File.size file) (Z.pos chunkSize)) in *.
  split; [split|].
  - intros (m & Hm & Hdone). change (map ?f ?l) with (f <$> l) in Hm.
    apply list_elem_of_fmap in Hm as (i & Hm & Hi%elem_of_seqZ).
    injection Hm as ->. simpl in Hdone. apply Z.eqb_eq in Hdone. nia.
  - intros Hsize. assert (1 <= total) by nia.
    exists (Worker.mkChunkMessage (block (File.contents file) (Z.pos chunkSize) (total - 1))
              (Math_round (percent (total - 1 + 1) total)) (File.name file)
              (File.type file) (total - 1 + 1) total (total - 1 + 1 =? total)).
    split.
    + change (map ?f ?l) with (f <$> l). apply list_elem_of_fmap.
      exists (total - 1). split; [done|]. apply elem_of_seqZ. lia.
    + simpl. apply Z.eqb_eq. lia.
  - intros Hsize. assert (total = 0) as -> by nia. simpl.
    unfold blockMessage, block.
    destruct (File.contents file) as [|b l] eqn:Hc;
      [|unfold File.size in Hsize; by rewrite Hc in Hsize].
    by rewrite drop_nil, take_nil.
Qed.

(** X8.  A failed read ends the run of [self.onmessage].  If the reads of
    the first [k] blocks succeed and the read of block [k] fails (whatever
    its bytes are, those of an earlier block included), the messages of those
    [k] blocks are posted, none of them with [done] true, then one report of
    the error, and nothing after it. *)
Theorem Worker_onmessage_read_error (Math_round : float -> float)
    (readAsArrayBuffer : Z -> bytes -> option bytes) (file : File.t) (chunkSize : positive)
    (k : nat) :
  let total := Math_ceil_div (File.size file) (Z.pos chunkSize) in
  let block i := take (Pos.to_nat chunkSize) (drop (i * Pos.to_nat chunkSize) (File.contents file)) in
  Z.of_nat k < Z.max 1 total ->
  (forall i, (i < k)%nat -> readAsArrayBuffer (Z.of_nat i) (block i) = Some (block i)) ->
  readAsArrayBuffer (Z.of_nat k) (block k) = None ->
  exists messages,
    Worker.onmessage Math_round readAsArrayBuffer file chunkSize
    = map Worker.chunkRead messages ++ [Worker.readError] /\
    map Worker.chunk messages = map block (seq 0 k) /\
    Forall (fun m => Worker.done m = false) messages.
Proof.
  intros total blk Hk Hreads Hfail.
  pose proof (byteLength_nonneg (File.contents file)) as Hpos. fold (File.size file) in Hpos.
  assert (Hblk : forall i : nat, block (File.contents file) (Z.pos chunkSize) (Z.of_nat i) = blk i).
  { intros i. unfold block, blk. do 2 f_equal; lia. }
  exists (map (fun i => Worker.mkChunkMessage (block (File.contents file) (Z.pos chunkSize) i)
                          (Math_round (percent (i + 1) total)) (File.name file)
                          (File.type file) (i + 1) total (i + 1 =? total))
            (seqZ 0 (Z.of_nat k))).
  split_and!.
  - unfold Worker.onmessage.
    rewrite (readNextChunk_trace Math_round readAsArrayBuffer file chunkSize 0 0
               (Some (Z.of_nat k))); try done; try lia.
    + simpl. rewrite Z.sub_0_r. by rewrite map_map.
    + intros i Hi Hs. specialize (Hs _ eq_refl).
      rewrite <-(Z2Nat.id i) by lia. rewrite Hblk. apply Hreads. lia.
    + intros s [= <-]. rewrite Hblk. split; [|done]. 
      unfold Worker.onmessage_totalChunks. fold total. lia.
  - rewrite map_map. simpl. unfold seqZ. rewrite Nat2Z.id, map_map.
    apply map_ext. intros i. rewrite Z.add_0_r. apply Hblk.
  - apply list.Forall_forall. intros m Hm. change (map ?f ?l) with (f <$> l) in Hm.
    apply list_elem_of_fmap in Hm as (i & -> & Hi%elem_of_seqZ). simpl.
    apply Z.eqb_neq. lia.
Qed.

Lemma Worker_onmessage_read_error_witness :
  exists messages,
    Worker.onmessage (fun x => x)
      (fun n b => if decide (n = 1) then None else Some b)
      (File.mk "a.txt" "text/plain" [x61; x62; x61; x62; x65]) 2
    = map Worker.chunkRead messages ++ [Worker.readError] /\
    map Worker.chunk messages = [[x61; x62]].
Proof.
  destruct (Worker_onmessage_read_error (fun x => x)
              (fun n b => if decide (n = 1) then None else Some b)
              (File.mk "a.txt" "text/plain" [x61; x62; x61; x62; x65]) 2 1)
    as (messages & H1 & H2 & _).
  - vm_compute. reflexivity.
  - intros i Hi. assert (i = 0%nat) as -> by lia. reflexivity.
  - reflexivity.
  - exists messages. split; [exact H1 | exact H2].
Defined.

Lemma Worker_onmessage_done_iff_nonempty_witness :
  Worker.onmessage (fun x => x) (fun _ => Some) (File.mk "empty.txt" "text/plain" []) 2
  = [Worker.chunkRead
       (Worker.mkChunkMessage [] (percent 1 0) "empty.txt" "text/plain" 1 0 false)].
Proof.
  apply (Worker_onmessage_done_iff_nonempty (fun x => x) (fun _ => Some)
           (File.mk "empty.txt" "text/plain" []) 2); reflexivity.
Defined.

(** ** The store of maps *)

Lemma refs_cons (t : ActiveTransfer.t) (prev : list ActiveTransfer.t) :
  refs (t :: prev)
  = match ActiveTransfer.chunks t with Some r => r :: refs prev | None => refs prev end.
Proof. reflexivity. Qed.

Lemma refs_elem_of (prev : list ActiveTransfer.t) (r : nat) :
  r ∈ refs prev <-> exists t, t ∈ prev /\ ActiveTransfer.chunks t = Some r.
Proof. unfold refs. apply list_elem_of_omap. Qed.

Lemma refs_lookup (prev : list ActiveTransfer.t) (i : nat) (t : ActiveTransfer.t) (r : nat) :
  prev !! i = Some t -> ActiveTransfer.chunks t = Some r -> r ∈ refs prev.
Proof.
  intros Hi Hr. apply refs_elem_of. exists t. split; [|done]. by eapply list_elem_of_lookup_2.
Qed.

Lemma pending_ok_mono (n n' : nat) (callback : Timeout) :
  (n <= n')%nat -> pending_ok n callback -> pending_ok n' callback.
Proof.
  intros Hn. destruct callback as [t|f]; simpl; [|done].
  intros Hok r Hr. specialize (Hok r Hr). lia.
Qed.

(** What [receiveChunk] does to the store: nothing, or one write into the
    map of the record, which is a new map when the record had none; and at
    most one completion is scheduled, for the record as it refers to that
    map. *)
Lemma receiveChunk_store (fileId : string) (index : Z) (data : bytes)
    (t : ActiveTransfer.t) (maps : list ChunkMap) (timeouts : list Timeout) :
  let res := Page.receiveChunk fileId index data t (maps, timeouts) in
  res = (t, (maps, timeouts)) \/
  exists r maps0,
    (ActiveTransfer.chunks t = Some r /\ maps0 = maps
     \/ ActiveTransfer.chunks t = None /\ r = length maps /\ maps0 = maps ++ [[]]) /\
    ActiveTransfer.chunks res.1 = Some r /\
    res.2.1 = alter (Map_set index data) r maps0 /\
    (res.2.2 = timeouts
     \/ exists transfer, res.2.2 = timeouts ++ [CompleteFileReceived transfer]
                         /\ ActiveTransfer.chunks transfer = Some r).
Proof.
  intros res. subst res. unfold Page.receiveChunk.
  destruct (String.eqb _ _ && bool_decide _); [right|by left].
  destruct (ActiveTransfer.chunks t) as [r|] eqn:Hr; cbn [Page.chunks_or_new Page.Map_new].
  - exists r, maps. split; [by left|].
    destruct (_ =? _); cbn [fst snd ActiveTransfer.chunks]; split_and!; eauto.
  - exists (length maps), (maps ++ [[]]). split; [by right|].
    destruct (_ =? _); cbn [fst snd ActiveTransfer.chunks]; split_and!; eauto.
Qed.

Lemma alter_keys_NoDup (index : Z) (data : bytes) (r : nat) (maps : list ChunkMap) :
  Forall (fun m : ChunkMap => NoDup m.*1) maps ->
  Forall (fun m : ChunkMap => NoDup m.*1) (alter (Map_set index data) r maps).
Proof.
  intros Hall. apply Forall_alter; [done|]. intros m _ Hm. by apply Map_set_NoDup.
Qed.

(** The chunk branch keeps the store in order. *)
Lemma Array_map_store (fileId : string) (index : Z) (data : bytes)
    (prev : list ActiveTransfer.t) (maps : list ChunkMap) (timeouts : list Timeout) :
  NoDup (refs prev) ->
  Forall (fun r => (r < length maps)%nat) (refs prev) ->
  Forall (fun m : ChunkMap => NoDup m.*1) maps ->
  Forall (pending_ok (length maps)) timeouts ->
  let res := Page.Array_map (Page.receiveChunk fileId index data) prev (maps, timeouts) in
  NoDup (refs res.1) /\
  Forall (fun r => (r < length res.2.1)%nat) (refs res.1) /\
  Forall (fun m : ChunkMap => NoDup m.*1) res.2.1 /\
  Forall (pending_ok (length res.2.1)) res.2.2 /\
  (length maps <= length res.2.1)%nat /\
  (forall r, r ∈ refs res.1 -> (r < length maps)%nat -> r ∈ refs prev).
Proof.
  revert maps timeouts. induction prev as [|t prev IH]; intros maps timeouts Hnd Hlt Hkeys Hpend.
  { simpl. split_and!; [by apply NoDup_nil|done|done|done|done|done]. }
  cbn [Page.Array_map].
  pose proof (receiveChunk_store fileId index data t maps timeouts) as Hstep.
  destruct (Page.receiveChunk fileId index data t (maps, timeouts)) as [t' [maps1 timeouts1]].
  cbn [fst snd] in Hstep.
  assert (Hrest : NoDup (refs prev) /\ Forall (fun r => (r < length maps)%nat) (refs prev)).
  { rewrite refs_cons in Hnd, Hlt. destruct (ActiveTransfer.chunks t).
    - apply NoDup_cons in Hnd as [_ ?]. apply Forall_cons in Hlt as [_ ?]. done.
    - done. }
  destruct Hrest as [Hnd' Hlt'].
  assert (Hstore1 : (length maps <= length maps1)%nat /\
                    Forall (fun m : ChunkMap => NoDup m.*1) maps1 /\
                    Forall (pending_ok (length maps1)) timeouts1 /\
                    (forall r, ActiveTransfer.chunks t' = Some r ->
                       (r < length maps1)%nat /\
                       (ActiveTransfer.chunks t = Some r
                        \/ ActiveTransfer.chunks t = None /\ r = length maps))).
  { destruct Hstep as [[= -> -> ->]|(r & maps0 & Hr & Hr' & -> & Htimeouts)].
    - split_and!; [done|done|done|]. intros r Hr. split; [|by left].
      rewrite refs_cons, Hr in Hlt. by apply Forall_cons in Hlt as [? _].
    - assert (Hlen : (length maps <= length maps0)%nat /\ (r < length maps0)%nat
                     /\ Forall (fun m : ChunkMap => NoDup m.*1) maps0).
      { destruct Hr as [[Hr ->]|(Hr & -> & ->)].
        - split_and!; [done| |done]. rewrite refs_cons, Hr in Hlt.
          by apply Forall_cons in Hlt as [? _].
        - rewrite length_app. simpl. split_and!; [lia|lia|].
          apply Forall_app. split; [done|]. apply Forall_singleton. by apply NoDup_nil. }
      destruct Hlen as (Hlen & Hrlt & Hkeys0).
      rewrite length_alter. split_and!; [done|by apply alter_keys_NoDup| |].
      + destruct Htimeouts as [->|(transfer & -> & Htr)].
        * eapply Forall_impl; [exact Hpend|]. intros c. by apply pending_ok_mono.
        * apply Forall_app. split.
          -- eapply Forall_impl; [exact Hpend|]. intros c. by apply pending_ok_mono.
          -- apply Forall_singleton. simpl. intros r0. rewrite Htr. by intros [= <-].
      + intros r0. rewrite Hr'. intros [= <-]. split; [done|].
        destruct Hr as [[Hr ->]|(Hr & -> & ->)]; [by left|by right]. }
  destruct Hstore1 as (Hlen1 & Hkeys1 & Hpend1 & Hnew).
  assert (Hlt1 : Forall (fun r => (r < length maps1)%nat) (refs prev)).
  { eapply Forall_impl; [exact Hlt'|]. simpl. intros. lia. }
  specialize (IH maps1 timeouts1 Hnd' Hlt1 Hkeys1 Hpend1).
  destruct (Page.Array_map _ prev (maps1, timeouts1)) as [out [maps2 timeouts2]].
  cbn [fst snd] in IH |- *.
  destruct IH as (IHnd & IHlt & IHkeys & IHpend & IHlen & IHold).
  rewrite (refs_cons t' out).
  destruct (ActiveTransfer.chunks t') as [r|] eqn:Hr'.
  - destruct (Hnew r eq_refl) as [Hrlt Horigin].
    assert (Hfresh : r ∉ refs prev).
    { destruct Horigin as [Hr|[Hr ->]].
      - rewrite refs_cons, Hr in Hnd. by apply NoDup_cons in Hnd as [? _].
      - intros Hin. rewrite list.Forall_forall in Hlt'. specialize (Hlt' _ Hin). lia. }
    split_and!.
    + apply NoDup_cons. split; [|done]. intros Hin. apply Hfresh. by apply IHold.
    + apply Forall_cons. split; [lia|done].
    + done.
    + done.
    + lia.
    + intros r0 Hin Hr0. apply elem_of_cons in Hin as [->|Hin].
      * destruct Horigin as [Hr|[_ ->]]; [|lia]. rewrite refs_cons, Hr. by left.
      * assert (r0 ∈ refs prev) by (apply IHold; [done|lia]).
        rewrite refs_cons. destruct (ActiveTransfer.chunks t); [by right|done].
  - split_and!; [done|done|done|done|lia|].
    intros r0 Hin Hr0. assert (r0 ∈ refs prev) by (apply IHold; [done|lia]).
    rewrite refs_cons. destruct (ActiveTransfer.chunks t); [by right|done].
Qed.

Lemma refs_setStatus (fileId : string) (status : Status.t) (prev : list ActiveTransfer.t) :
  refs (Page.setStatus fileId status prev) = refs prev.
Proof.
  induction prev as [|t prev IH]; [done|].
  unfold Page.setStatus in *. cbn [map]. rewrite !refs_cons, IH. by destruct (String.eqb _ _).
Qed.

Lemma refs_completed (fileId : string) (prev : list ActiveTransfer.t) :
  refs (map (fun t => if String.eqb (ActiveTransfer.id t) fileId
                      then ActiveTransfer.with_completed t else t) prev)
  = refs prev.
Proof.
  induction prev as [|t prev IH]; [done|].
  cbn [map]. rewrite !refs_cons, IH. by destruct (String.eqb _ _).
Qed.

Lemma refs_remove (fileId : string) (prev : list ActiveTransfer.t) :
  refs (Page.remove fileId prev) `sublist_of` refs prev.
Proof.
  induction prev as [|t prev IH]; [done|].
  unfold Page.remove in *. cbn [List.filter]. destruct (negb _); rewrite ?refs_cons.
  - destruct (ActiveTransfer.chunks t); [by apply sublist_skip|done].
  - destruct (ActiveTransfer.chunks t); [by apply sublist_cons|done].
Qed.

Lemma Forall_sublist_of {A} (P : A -> Prop) (l1 l2 : list A) :
  l1 `sublist_of` l2 -> Forall P l2 -> Forall P l1.
Proof.
  intros Hsub Hall. apply list.Forall_forall. intros x Hx.
  rewrite list.Forall_forall in Hall. apply Hall.
  eapply elem_of_submseteq; [exact Hx|]. by apply sublist_submseteq.
Qed.

Lemma store_ok_init (worker : bool) : store_ok (Page.init worker).
Proof. split_and!; simpl; [by apply NoDup_nil|done|done|done]. Qed.

Lemma store_ok_handleData (now : Z) (d : PeerData) (p : Page.t) :
  store_ok p -> store_ok (Page.handleData now d p).
Proof.
  intros (Hnd & Hlt & Hkeys & Hpend). destruct d as [metadata|fileId index data|fileId action|].
  - unfold store_ok. simpl. unfold refs. rewrite omap_app. simpl.
    fold (refs (Page.activeTransfers p)). rewrite length_app. simpl. split_and!.
    + apply NoDup_app. split_and!; [done| |apply NoDup_singleton].
      intros r Hr ->%list_elem_of_singleton.
      rewrite list.Forall_forall in Hlt. specialize (Hlt _ Hr). lia.
    + apply Forall_app. split; [|apply Forall_singleton; lia].
      eapply Forall_impl; [exact Hlt|]. simpl. intros. lia.
    + apply Forall_app. split; [done|]. apply Forall_singleton. by apply NoDup_nil.
    + eapply Forall_impl; [exact Hpend|]. intros c. apply pending_ok_mono. lia.
  - unfold Page.handleData.
    pose proof (Array_map_store fileId index data _ _ _ Hnd Hlt Hkeys Hpend) as Hmap.
    destruct (Page.Array_map _ _ _) as [out [maps timeouts]]. cbn [fst snd] in Hmap.
    destruct Hmap as (? & ? & ? & ? & _). by split_and!.
  - unfold Page.handleData.
    repeat (destruct (String.eqb action _)); unfold store_ok; simpl;
      rewrite ?refs_setStatus; split_and!; try done.
    apply Forall_app. split; [done|]. by apply Forall_singleton.
  - done.
Qed.

Lemma store_ok_step (e : Page.Event) (p : Page.t) : store_ok p -> store_ok (Page.step e p).
Proof.
  intros Hok. destruct e as [now d|n]; [by apply store_ok_handleData|].
  destruct Hok as (Hnd & Hlt & Hkeys & Hpend).
  unfold Page.step. destruct (Page.timeouts p !! n) as [callback|] eqn:Hn; [|done].
  assert (Hdel : Forall (pending_ok (length (Page.maps p))) (delete n (Page.timeouts p))).
  { eapply Forall_sublist_of; [|exact Hpend]. apply sublist_delete. }
  destruct callback as [transfer|fileId]; simpl.
  - unfold Page.handleCompleteFileReceived. simpl.
    destruct (ActiveTransfer.chunks transfer); [|done].
    destruct (_ =? _); [|done].
    unfold store_ok. simpl. rewrite refs_completed. done.
  - unfold store_ok. simpl. pose proof (refs_remove fileId (Page.activeTransfers p)) as Hsub.
    split_and!; [by eapply sublist_NoDup|by eapply Forall_sublist_of|done|done].
Qed.

Lemma store_ok_run (events : list Page.Event) (p : Page.t) :
  store_ok p -> store_ok (Page.run events p).
Proof.
  revert p. induction events as [|e events IH]; intros p Hok; [done|].
  simpl. apply IH. by apply store_ok_step.
Qed.

(** X9.  The store of [Map] objects stays in order whatever arrives and
    whichever timeouts run, from the page as it is mounted: no two records of
    [activeTransfers] refer to the same [Map]; every reference held by a
    record or by a pending completion is to a [Map] of the store; and no
    [Map] holds an index twice. *)
Theorem store_discipline (worker : bool) (events : list Page.Event) :
  let p := Page.run events (Page.init worker) in
  (forall (i j : nat) (ti tj : ActiveTransfer.t) (r : nat),
     Page.activeTransfers p !! i = Some ti -> Page.activeTransfers p !! j = Some tj ->
     ActiveTransfer.chunks ti = Some r -> ActiveTransfer.chunks tj = Some r -> i = j) /\
  (forall (t : ActiveTransfer.t) (r : nat),
     t ∈ Page.activeTransfers p -> ActiveTransfer.chunks t = Some r ->
     is_Some (Page.maps p !! r)) /\
  (forall (transfer : ActiveTransfer.t) (r : nat),
     CompleteFileReceived transfer ∈ Page.timeouts p ->
     ActiveTransfer.chunks transfer = Some r -> is_Some (Page.maps p !! r)) /\
  (forall m : ChunkMap, m ∈ Page.maps p -> NoDup m.*1).
Proof.
  intros p. destruct (store_ok_run events _ (store_ok_init worker)) as (Hnd & Hlt & Hkeys & Hpend).
  fold p in Hnd, Hlt, Hkeys, Hpend. split_and!.
  - intros i j ti tj r Hi Hj Hri Hrj.
    clear Hlt. revert i j Hi Hj Hnd. generalize (Page.activeTransfers p). intros l.
    induction l as [|t l IH]; intros i j Hi Hj Hnd; [done|].
    rewrite refs_cons in Hnd.
    destruct i as [|i], j as [|j]; simpl in Hi, Hj; simplify_eq.
    + done.
    + rewrite Hri in Hnd. apply NoDup_cons in Hnd as [Hnot _].
      destruct Hnot. by eapply refs_lookup.
    + rewrite Hrj in Hnd. apply NoDup_cons in Hnd as [Hnot _].
      destruct Hnot. by eapply refs_lookup.
    + f_equal. apply IH; [done|done|].
      destruct (ActiveTransfer.chunks t); [by apply NoDup_cons in Hnd as [_ ?]|done].
  - intros t r Ht Hr. apply lookup_lt_is_Some.
    rewrite list.Forall_forall in Hlt. apply Hlt. apply refs_elem_of. eauto.
  - intros transfer r Hin Hr. apply lookup_lt_is_Some.
    rewrite list.Forall_forall in Hpend. by apply (Hpend _ Hin).
  - intros m Hm. rewrite list.Forall_forall in Hkeys. by apply Hkeys.
Qed.

(** ** One transfer among others *)

Lemma completions_for_app (r : nat) (l1 l2 : list Timeout) :
  completions_for r (l1 ++ l2) = completions_for r l1 ++ completions_for r l2.
Proof. unfold completions_for. apply omap_app. Qed.

Lemma completions_for_other (r c : nat) (timeouts : list Timeout) (transfer : ActiveTransfer.t) :
  ActiveTransfer.chunks transfer = Some c -> c <> r ->
  completions_for r (timeouts ++ [CompleteFileReceived transfer]) = completions_for r timeouts.
Proof.
  intros Hc Hne. rewrite completions_for_app. unfold completions_for at 2. simpl.
  rewrite decide_False by congruence. apply app_nil_r.
Qed.

Lemma completions_for_fresh (r n : nat) (timeouts : list Timeout) :
  Forall (pending_ok n) timeouts -> (n <= r)%nat -> completions_for r timeouts = [].
Proof.
  intros Hall Hr. induction Hall as [|callback timeouts Hok _ IH]; [done|].
  change (callback :: timeouts) with ([callback] ++ timeouts).
  rewrite completions_for_app, IH, app_nil_r.
  destruct callback as [transfer|]; [|done]. unfold completions_for. simpl.
  destruct (decide _) as [Hc|]; [|done]. specialize (Hok r Hc). lia.
Qed.

(** The chunk branch does not touch a map that no record refers to, and
    schedules nothing for it. *)
Lemma Array_map_frame (fileId : string) (index : Z) (data : bytes)
    (prev : list ActiveTransfer.t) (maps : list ChunkMap) (timeouts : list Timeout)
    (r : nat) :
  r ∉ refs prev -> (r < length maps)%nat ->
  let res := Page.Array_map (Page.receiveChunk fileId index data) prev (maps, timeouts) in
  res.2.1 !! r = maps !! r /\ (length maps <= length res.2.1)%nat /\
  completions_for r res.2.2 = completions_for r timeouts.
Proof.
  revert maps timeouts. induction prev as [|t prev IH]; intros maps timeouts Hr Hlt; [done|].
  cbn [Page.Array_map].
  pose proof (receiveChunk_store fileId index data t maps timeouts) as Hstep.
  destruct (Page.receiveChunk fileId index data t (maps, timeouts)) as [t' [maps1 timeouts1]].
  cbn [fst snd] in Hstep.
  assert (Hprev : r ∉ refs prev).
  { intros Hin. apply Hr. rewrite refs_cons. destruct (ActiveTransfer.chunks t); [by right|done]. }
  assert (Hmaps1 : maps1 !! r = maps !! r /\ (length maps <= length maps1)%nat
                   /\ completions_for r timeouts1 = completions_for r timeouts).
  { destruct Hstep as [[= -> -> ->]|(c & maps0 & Hc & _ & -> & Htimeouts)]; [done|].
    rewrite length_alter.
    assert (Hne : c <> r).
    { destruct Hc as [[Hc ->]|(Hc & -> & ->)]; [|lia].
      intros ->. apply Hr. rewrite refs_cons, Hc. by left. }
    split_and!.
    - rewrite list_lookup_alter_ne by done.
      destruct Hc as [[Hc ->]|(Hc & -> & ->)]; [done|by apply lookup_app_l].
    - destruct Hc as [[Hc ->]|(Hc & -> & ->)]; [done|]. rewrite length_app. simpl. lia.
    - destruct Htimeouts as [->|(transfer & -> & Htr)]; [done|].
      by eapply completions_for_other. }
  destruct Hmaps1 as (Hlook & Hlen & Hcompl).
  specialize (IH maps1 timeouts1 Hprev ltac:(lia)).
  destruct (Page.Array_map _ prev (maps1, timeouts1)) as [out [maps2 timeouts2]].
  cbn [fst snd] in IH |- *. destruct IH as (IH1 & IH2 & IH3).
  split_and!; [congruence|lia|congruence].
Qed.

Lemma Array_map_cons {S A B} (f : A -> S -> B * S) (a : A) (rest : list A) (s : S) :
  Page.Array_map f (a :: rest) s
  = ((f a s).1 :: (Page.Array_map f rest (f a s).2).1, (Page.Array_map f rest (f a s).2).2).
Proof.
  cbn [Page.Array_map]. destruct (f a s) as [b s1]. cbn [fst snd].
  by destruct (Page.Array_map f rest s1).
Qed.

(** A record that takes the chunk, seen with its map. *)
Lemma receiveChunk_taken (fileId : string) (index : Z) (data : bytes)
    (t : ActiveTransfer.t) (maps : list ChunkMap) (timeouts : list Timeout)
    (r : nat) (m : ChunkMap) :
  accepts fileId t = true -> ActiveTransfer.chunks t = Some r -> maps !! r = Some m ->
  exists t' timeouts',
    Page.receiveChunk fileId index data t (maps, timeouts)
    = (t', (alter (Map_set index data) r maps, timeouts')) /\
    ActiveTransfer.id t' = ActiveTransfer.id t /\
    ActiveTransfer.chunks t' = Some r /\
    detached t' = (taken index data (detached t, m)).1 /\
    completions_for r timeouts'
    = completions_for r timeouts ++ scheduled index data (detached t, m).
Proof.
  intros Hacc Hr Hm. unfold Page.receiveChunk. unfold accepts in Hacc. rewrite Hacc, Hr.
  cbn [Page.chunks_or_new]. rewrite (size_at_alter _ _ m) by done.
  eexists _, _. split; [reflexivity|]. split_and!; [done|done|done|].
  unfold scheduled. cbn [fst snd detached ActiveTransfer.metadata].
  destruct (_ =? _); [|by rewrite app_nil_r].
  rewrite completions_for_app. f_equal. unfold completions_for. simpl.
  by rewrite decide_True.
Qed.

(** What the chunk branch does to one record and its map, whatever the other
    records are. *)
Lemma Array_map_view (fileId : string) (index : Z) (data : bytes)
    (prev : list ActiveTransfer.t) (maps : list ChunkMap) (timeouts : list Timeout)
    (i : nat) (t : ActiveTransfer.t) (r : nat) (m : ChunkMap) :
  NoDup (refs prev) ->
  Forall (fun r => (r < length maps)%nat) (refs prev) ->
  prev !! i = Some t -> ActiveTransfer.chunks t = Some r -> maps !! r = Some m ->
  let res := Page.Array_map (Page.receiveChunk fileId index data) prev (maps, timeouts) in
  exists t' m',
    res.1 !! i = Some t' /\
    ActiveTransfer.id t' = ActiveTransfer.id t /\
    ActiveTransfer.chunks t' = Some r /\
    res.2.1 !! r = Some m' /\
    (detached t', m')
    = (if accepts fileId t then taken index data (detached t, m) else (detached t, m)) /\
    completions_for r res.2.2
    = completions_for r timeouts
      ++ (if accepts fileId t then scheduled index data (detached t, m) else []).
Proof.
  revert i maps timeouts.
  induction prev as [|t0 prev IH]; intros i maps timeouts Hnd Hlt Hi Hr Hm; [done|].
  intros res. subst res. rewrite Array_map_cons. cbn [fst snd].
  assert (Hrlt : (r < length maps)%nat) by (by eapply lookup_lt_Some).
  destruct i as [|i]; simpl in Hi.
  - injection Hi as ->.
    assert (Hfresh : r ∉ refs prev).
    { rewrite refs_cons, Hr in Hnd. by apply NoDup_cons in Hnd as [? _]. }
    destruct (accepts fileId t) eqn:Hacc.
    + destruct (receiveChunk_taken fileId index data t maps timeouts r m Hacc Hr Hm)
        as (t' & timeouts' & -> & Hid & Hr' & Hdet & Hcompl).
      cbn [fst snd].
      destruct (Array_map_frame fileId index data prev
                  (alter (Map_set index data) r maps) timeouts' r Hfresh)
        as (Hlook & _ & Hkeep).
      { by rewrite length_alter. }
      exists t', (Map_set index data m). split_and!; [done|done|done| | |].
      * rewrite Hlook, list_lookup_alter_eq, Hm. reflexivity.
      * rewrite Hdet. reflexivity.
      * by rewrite Hkeep.
    + rewrite receiveChunk_ignored by done. cbn [fst snd].
      destruct (Array_map_frame fileId index data prev maps timeouts r Hfresh Hrlt)
        as (Hlook & _ & Hkeep).
      exists t, m. split_and!; [done|done|done|congruence|done|].
      by rewrite app_nil_r.
  - pose proof (receiveChunk_store fileId index data t0 maps timeouts) as Hstep.
    destruct (Page.receiveChunk fileId index data t0 (maps, timeouts))
      as [t0' [maps1 timeouts1]].
    cbn [fst snd] in Hstep |- *.
    assert (Hin : r ∈ refs prev) by (by eapply refs_lookup).
    assert (Hrest : NoDup (refs prev) /\ Forall (fun r => (r < length maps)%nat) (refs prev)
                    /\ ActiveTransfer.chunks t0 <> Some r).
    { rewrite refs_cons in Hnd, Hlt. destruct (ActiveTransfer.chunks t0) as [c|].
      - apply NoDup_cons in Hnd as [Hc ?]. apply Forall_cons in Hlt as [_ ?].
        split_and!; [done|done|]. intros [= ->]. done.
      - done. }
    destruct Hrest as (Hnd' & Hlt' & Hother).
    assert (Hmaps1 : maps1 !! r = Some m /\ (length maps <= length maps1)%nat
                     /\ completions_for r timeouts1 = completions_for r timeouts).
    { destruct Hstep as [[= -> -> ->]|(c & maps0 & Hc & _ & -> & Htimeouts)]; [done|].
      rewrite length_alter.
      assert (Hne : c <> r).
      { destruct Hc as [[Hc ->]|(Hc & -> & ->)]; [|lia]. intros ->. done. }
      split_and!.
      - rewrite list_lookup_alter_ne by done.
        destruct Hc as [[Hc ->]|(Hc & -> & ->)]; [done|by rewrite lookup_app_l].
      - destruct Hc as [[Hc ->]|(Hc & -> & ->)]; [done|]. rewrite length_app. simpl. lia.
      - destruct Htimeouts as [->|(transfer & -> & Htr)]; [done|].
        by eapply completions_for_other. }
    destruct Hmaps1 as (Hm1 & Hlen & Hcompl1).
    assert (Hlt1 : Forall (fun r => (r < length maps1)%nat) (refs prev)).
    { eapply Forall_impl; [exact Hlt'|]. simpl. intros. lia. }
    rewrite <-Hcompl1. exact (IH i maps1 timeouts1 Hnd' Hlt1 Hi Hr Hm1).
Qed.

Lemma accepts_names (fileId : string) (t : ActiveTransfer.t) (g : string) :
  ActiveTransfer.id t = fileId ->
  accepts g t
  = String.eqb g fileId && bool_decide (ActiveTransfer.status t = Status.transferring).
Proof. intros <-. unfold accepts. by rewrite String.eqb_sym. Qed.

(** One message on a page: the record in view, and its map, change only if
    the message names the record, and then as [own_step] says; a completion
    is scheduled for it only then, as [own_scheduled] says. *)
Lemma handleData_view (now : Z) (d : PeerData) (p : Page.t) (fileId : string)
    (i r : nat) (v : ActiveTransfer.t * ChunkMap) :
  store_ok p -> view fileId i r v p ->
  view fileId i r (if names fileId d then own_step d v else v) (Page.handleData now d p) /\
  completions_for r (Page.timeouts (Page.handleData now d p))
  = completions_for r (Page.timeouts p) ++ (if names fileId d then own_scheduled d v else []).
Proof.
  intros (Hnd & Hlt & _ & _) (t & Hi & Hid & Hr & Hv1 & Hv2).
  destruct v as [v1 m]. cbn [fst snd] in Hv1, Hv2. subst v1.
  destruct d as [metadata|g index data|g action|].
  - split; [|simpl; by rewrite app_nil_r].
    exists t. simpl. split_and!; [|done|done|done|].
    + by apply lookup_app_l_Some.
    + by apply lookup_app_l_Some.
  - unfold Page.handleData.
    pose proof (Array_map_view g index data _ _ (Page.timeouts p) i t r m Hnd Hlt Hi Hr Hv2)
      as Hview.
    destruct (Page.Array_map _ _ _) as [out [maps timeouts]]. cbn [fst snd] in Hview.
    destruct Hview as (t' & m' & Hi' & Hid' & Hr' & Hm' & Heq & Hcompl).
    cbn [Page.timeouts names own_step own_scheduled fst snd].
    rewrite (accepts_names fileId) in Heq, Hcompl by done.
    change (ActiveTransfer.status (detached t)) with (ActiveTransfer.status t).
    split.
    + exists t'. cbn [Page.activeTransfers Page.maps].
      destruct (String.eqb g fileId); cbn [andb] in Heq.
      * rewrite <-Heq. split_and!; try done; congruence.
      * apply pair_equal_spec in Heq as [Hd <-]. split_and!; try done; congruence.
    + rewrite Hcompl. by destruct (String.eqb g fileId).
  - unfold Page.handleData. cbn [names own_step own_scheduled fst snd].
    assert (Hset : forall status timeouts,
              view fileId i r
                (if String.eqb g fileId
                 then (ActiveTransfer.with_status status (detached t), m)
                 else (detached t, m))
                (Page.mk (Page.setStatus g status (Page.activeTransfers p)) (Page.maps p)
                   timeouts (Page.worker p) (Page.posted p) (Page.toasts p))).
    { intros status timeouts. eexists. cbn [Page.activeTransfers Page.maps].
      split; [by apply setStatus_lookup|]. rewrite Hid, (String.eqb_sym fileId g).
      destruct (String.eqb g fileId); cbn [fst snd]; split_and!; done. }
    assert (Hnil : forall l, l ++ (if String.eqb g fileId then @nil ActiveTransfer.t else []) = l).
    { intros l. destruct (String.eqb g fileId); apply app_nil_r. }
    destruct (String.eqb action "pause"); [split; [apply Hset|by rewrite Hnil]|].
    destruct (String.eqb action "resume"); [split; [apply Hset|by rewrite Hnil]|].
    destruct (String.eqb action "cancel").
    { split; [apply Hset|]. cbn [Page.timeouts]. rewrite completions_for_app, Hnil.
      apply app_nil_r. }
    split; [|by rewrite Hnil]. exists t. destruct (String.eqb g fileId); done.
  - split; [by exists t|]. simpl. by rewrite app_nil_r.
Qed.

(** A run of messages: the record in view goes through the messages that
    name it, in order, and through no other. *)
Lemma run_view (msgs : list (Z * PeerData)) (p : Page.t) (fileId : string)
    (i r : nat) (v : ActiveTransfer.t * ChunkMap) :
  store_ok p -> view fileId i r v p ->
  let own := own_run (filter (fun x => names fileId x.2 = true) msgs) v in
  view fileId i r own.1 (Page.run (messages msgs) p) /\
  completions_for r (Page.timeouts (Page.run (messages msgs) p))
  = completions_for r (Page.timeouts p) ++ own.2.
Proof.
  revert p v. induction msgs as [|[now d] msgs IH]; intros p v Hok Hview.
  { simpl. split; [done|by rewrite app_nil_r]. }
  change (Page.run (messages ((now, d) :: msgs)) p)
    with (Page.run (messages msgs) (Page.handleData now d p)).
  rewrite filter_cons. cbn [snd].
  destruct (handleData_view now d p fileId i r v Hok Hview) as [Hstep Hcompl].
  apply (store_ok_handleData now d) in Hok.
  destruct (names fileId d) eqn:Hnames.
  - rewrite decide_True by done. cbn [own_run fst snd].
    destruct (IH _ _ Hok Hstep) as [IH1 IH2]. split; [done|].
    rewrite IH2, Hcompl. by rewrite <-app_assoc.
  - rewrite decide_False by (by intros ?).
    destruct (IH _ _ Hok Hstep) as [IH1 IH2]. split; [done|].
    rewrite IH2, Hcompl. by rewrite app_nil_r.
Qed.

Lemma view_transfer_at (fileId : string) (i r : nat) (v : ActiveTransfer.t * ChunkMap)
    (p : Page.t) :
  view fileId i r v p -> transfer_at p i = Some v.
Proof.
  intros (t & Hi & _ & Hr & Hv1 & Hv2). unfold transfer_at.
  rewrite Hi, Hr, Hv2, Hv1. by destruct v.
Qed.

(** The record made by a metadata message is in view, with an empty map and
    no completion pending. *)
Lemma metadata_view (now : Z) (metadata : FileMetadata.t) (p : Page.t) :
  store_ok p ->
  view (FileMetadata.id metadata) (length (Page.activeTransfers p)) (length (Page.maps p))
    (ActiveTransfer.mk (FileMetadata.id metadata) metadata (number 0) Status.transferring
       Direction.receiving None None 0 now None None, [])
    (Page.handleData now (Metadata metadata) p) /\
  completions_for (length (Page.maps p))
    (Page.timeouts (Page.handleData now (Metadata metadata) p)) = [].
Proof.
  intros (_ & _ & _ & Hpend). split.
  - eexists. cbn [Page.handleData Page.Map_new Page.activeTransfers Page.maps].
    split; [apply list_lookup_middle; done|]. split_and!; try done.
    cbn [snd]. by apply list_lookup_middle.
  - simpl. by eapply completions_for_fresh.
Qed.

(** What a message run does to the transfer made by a metadata message on a
    page in order. *)
Lemma transfer_among_others (now : Z) (metadata : FileMetadata.t) (p : Page.t)
    (msgs : list (Z * PeerData)) :
  store_ok p ->
  let own := own_run (filter (fun x => names (FileMetadata.id metadata) x.2 = true) msgs)
               (ActiveTransfer.mk (FileMetadata.id metadata) metadata (number 0)
                  Status.transferring Direction.receiving None None 0 now None None, []) in
  let after := Page.run (messages msgs) (Page.handleData now (Metadata metadata) p) in
  view (FileMetadata.id metadata) (length (Page.activeTransfers p)) (length (Page.maps p))
    own.1 after /\
  completions_for (length (Page.maps p)) (Page.timeouts after) = own.2.
Proof.
  intros Hok own after.
  destruct (metadata_view now metadata p Hok) as [Hview Hnone].
  destruct (run_view msgs _ _ _ _ _ (store_ok_handleData now (Metadata metadata) _ Hok) Hview)
    as [Hafter Hcompl].
  split; [done|]. subst after. by rewrite Hcompl, Hnone.
Qed.

(** X10.  Transfers do not interfere.  Take the page in any state reached
    from its mounting, let the metadata of a transfer arrive, then any
    messages whatever.  The record made for the transfer, the [Map] it refers
    to, and the completions pending for that [Map] end exactly as on a page
    that was mounted, received the same metadata, and then only those of the
    messages that are chunk or control messages naming the transfer: nothing
    addressed to other transfers, and no other metadata, changes its status,
    its progress, its byte count or its chunks. *)
Theorem transfer_isolation (worker worker' : bool) (events : list Page.Event) (now : Z)
    (metadata : FileMetadata.t) (msgs : list (Z * PeerData)) :
  let before := Page.run events (Page.init worker) in
  let own := filter (fun x => names (FileMetadata.id metadata) x.2 = true) msgs in
  let among := Page.run (messages msgs) (Page.handleData now (Metadata metadata) before) in
  let alone :=
    Page.run (messages own) (Page.handleData now (Metadata metadata) (Page.init worker')) in
  is_Some (transfer_at among (length (Page.activeTransfers before))) /\
  transfer_at among (length (Page.activeTransfers before)) = transfer_at alone 0 /\
  completions_for (length (Page.maps before)) (Page.timeouts among)
  = completions_for 0 (Page.timeouts alone).
Proof.
  intros before own among alone.
  assert (Hbefore : store_ok before) by apply store_ok_run, store_ok_init.
  destruct (transfer_among_others now metadata before msgs Hbefore) as [Hp Hpc].
  destruct (transfer_among_others now metadata (Page.init worker') own (store_ok_init worker'))
    as [Hq Hqc].
  apply view_transfer_at in Hp, Hq.
  assert (Hown : filter (fun x => names (FileMetadata.id metadata) x.2 = true) own = own).
  { subst own. apply list_filter_filter_l. done. }
  rewrite Hown in Hq, Hqc. fold own in Hp, Hpc. fold among in Hp, Hpc. fold alone in Hq, Hqc.
  change (length (Page.activeTransfers (Page.init worker'))) with 0%nat in Hq.
  change (length (Page.maps (Page.init worker'))) with 0%nat in Hqc.
  rewrite Hp, Hq, Hpc, Hqc. done.
Qed.

(** ** Duplicate chunks where no terminal transfer has been re-opened *)

Lemma Array_map_length {S A B} (f : A -> S -> B * S) (prev : list A) (s : S) :
  length (Page.Array_map f prev s).1 = length prev.
Proof.
  revert s. induction prev as [|a prev IH]; intros s; [done|].
  rewrite Array_map_cons. cbn [fst length]. by rewrite IH.
Qed.

Lemma Forall_by_position {A} (P : A -> Prop) (l l' : list A) :
  length l' = length l ->
  (forall i x, l !! i = Some x -> exists x', l' !! i = Some x' /\ P x') ->
  Forall P l'.
Proof.
  intros Hlen Hall. apply Forall_lookup_2. intros i x' Hi'.
  assert (Hlt : (i < length l)%nat) by (rewrite <-Hlen; by eapply lookup_lt_Some).
  apply lookup_lt_is_Some in Hlt as [x Hi].
  destruct (Hall i x Hi) as (x'' & Hi'' & HP). congruence.
Qed.

(** A terminal record is left as it is by every message that is not a pause,
    resume or cancel naming it. *)
Lemma terminal_kept (now : Z) (d : PeerData) (p : Page.t) (i : nat) (t : ActiveTransfer.t) :
  Page.activeTransfers p !! i = Some t ->
  terminal (ActiveTransfer.status t) = true ->
  reopens p (Page.data now d) = false ->
  Page.activeTransfers (Page.handleData now d p) !! i = Some t.
Proof.
  intros Hi Hterm Hreg.
  destruct d as [metadata|fileId index data|fileId action|].
  - simpl. by apply lookup_app_l_Some.
  - apply handleData_chunk_lookup_ignored; [done|].
    apply accepts_other_status. intros Hst. by rewrite Hst in Hterm.
  - cbn [reopens] in Hreg. unfold Page.handleData. unfold is_action in Hreg.
    destruct (String.eqb (ActiveTransfer.id t) fileId) eqn:Hid.
    + assert (Hex : existsb (fun t => String.eqb (ActiveTransfer.id t) fileId
                                      && terminal (ActiveTransfer.status t))
                      (Page.activeTransfers p) = true).
      { apply existsb_exists. exists t. split.
        - apply list_elem_of_In. by eapply list_elem_of_lookup_2.
        - by rewrite Hid, Hterm. }
      rewrite Hex, andb_true_r in Hreg.
      destruct (String.eqb action "pause"); [done|].
      destruct (String.eqb action "resume"); [done|].
      destruct (String.eqb action "cancel"); [done|]. done.
    + repeat (destruct (String.eqb action _)); cbn [Page.activeTransfers];
        first [done | by rewrite (setStatus_lookup _ _ _ _ _ Hi), Hid].
  - done.
Qed.

Lemma open_ok_more_maps (maps more : list ChunkMap) (t : ActiveTransfer.t) :
  open_ok maps t -> open_ok (maps ++ more) t.
Proof.
  intros Hok Hnt. destruct (Hok Hnt) as (r & m & Hr & Hm & Hprog).
  exists r, m. split_and!; [done|by apply lookup_app_l_Some|done].
Qed.

(** What a message does to a record that is not terminal, where no terminal
    record is re-opened. *)
Lemma open_ok_handleData (now : Z) (d : PeerData) (p : Page.t) (i : nat)
    (t : ActiveTransfer.t) :
  store_ok p ->
  Page.activeTransfers p !! i = Some t ->
  open_ok (Page.maps p) t ->
  reopens p (Page.data now d) = false ->
  exists t',
    Page.activeTransfers (Page.handleData now d p) !! i = Some t' /\
    open_ok (Page.maps (Page.handleData now d p)) t'.
Proof.
  intros Hstore Hi Hok Hreg.
  destruct (terminal (ActiveTransfer.status t)) eqn:Hterm.
  { exists t. split; [by apply terminal_kept|]. intros Hnt. congruence. }
  destruct (Hok Hterm) as (r & m & Hr & Hm & Hprog).
  assert (Hview : view (ActiveTransfer.id t) i r (detached t, m) p).
  { exists t. by split_and!. }
  destruct (handleData_view now d p (ActiveTransfer.id t) i r (detached t, m) Hstore Hview)
    as [(t' & Hi' & _ & Hr' & Hdet & Hm') _].
  exists t'. split; [done|].
  assert (Hsame : forall status,
            detached t' = ActiveTransfer.with_status status (detached t) ->
            Page.maps (Page.handleData now d p) !! r = Some m ->
            open_ok (Page.maps (Page.handleData now d p)) t').
  { intros status Heq Hmaps _. exists r, m. split_and!; [done|done|].
    assert (Hp : ActiveTransfer.progress t' = ActiveTransfer.progress t).
    { change (ActiveTransfer.progress (detached t') = ActiveTransfer.progress t).
      by rewrite Heq. }
    assert (Hmd : ActiveTransfer.metadata t' = ActiveTransfer.metadata t).
    { change (ActiveTransfer.metadata (detached t') = ActiveTransfer.metadata t).
      by rewrite Heq. }
    rewrite Hp, Hmd. done. }
  assert (Hkeep : detached t' = detached t ->
                  Page.maps (Page.handleData now d p) !! r = Some m ->
                  open_ok (Page.maps (Page.handleData now d p)) t').
  { intros Heq. apply (Hsame (ActiveTransfer.status t)). rewrite Heq. by destruct t. }
  destruct (names (ActiveTransfer.id t) d) eqn:Hnames; cbn [fst snd] in Hdet, Hm';
    [|by apply Hkeep].
  destruct d as [metadata|fileId index data|fileId action|]; try discriminate.
  - cbn [own_step fst snd] in Hdet, Hm'.
    change (ActiveTransfer.status (detached t)) with (ActiveTransfer.status t) in Hdet, Hm'.
    destruct (bool_decide (ActiveTransfer.status t = Status.transferring));
      [|by apply Hkeep].
    unfold taken in Hdet, Hm'. cbn [fst snd] in Hdet, Hm'.
    change (ActiveTransfer.metadata (detached t)) with (ActiveTransfer.metadata t) in Hdet.
    intros Hnt. exists r, (Map_set index data m).
    assert (Hst : ActiveTransfer.status t'
                  = if Map_size (Map_set index data m)
                       =? FileMetadata.totalChunks (ActiveTransfer.metadata t)
                    then Status.completed else Status.transferring).
    { exact (f_equal ActiveTransfer.status Hdet). }
    assert (Hp : ActiveTransfer.progress t'
                 = percent (Map_size (Map_set index data m))
                     (FileMetadata.totalChunks (ActiveTransfer.metadata t))).
    { exact (f_equal ActiveTransfer.progress Hdet). }
    assert (Hmd : ActiveTransfer.metadata t' = ActiveTransfer.metadata t).
    { exact (f_equal ActiveTransfer.metadata Hdet). }
    split_and!; [done|done|].
    pose proof (Map_set_size_pos index data m) as Hpos.
    destruct (Map_set index data m) as [|e m'] eqn:Hset.
    { unfold Map_size in Hpos. simpl in Hpos. lia. }
    rewrite Hmd, Hp. split; [|done].
    rewrite Hst in Hnt.
    destruct (Z.eqb_spec (Map_size (e :: m'))
                (FileMetadata.totalChunks (ActiveTransfer.metadata t))); [done|done].
  - cbn [own_step fst snd] in Hdet, Hm'.
    destruct (String.eqb action "pause"); [by eapply Hsame|].
    destruct (String.eqb action "resume"); [by eapply Hsame|].
    destruct (String.eqb action "cancel"); [by eapply Hsame|].
    by apply Hkeep.
Qed.

Lemma regular_ok_handleData (now : Z) (d : PeerData) (p : Page.t) :
  reopens p (Page.data now d) = false -> regular_ok p ->
  regular_ok (Page.handleData now d p).
Proof.
  intros Hreg [Hstore Hall]. split; [by apply store_ok_handleData|].
  destruct d as [metadata|fileId index data|fileId action|].
  - simpl. apply Forall_app. split.
    + eapply Forall_impl; [exact Hall|]. intros t. apply open_ok_more_maps.
    + apply Forall_singleton. intros _. exists (length (Page.maps p)), [].
      split_and!; [done|by apply list_lookup_middle|done].
  - apply (Forall_by_position _ (Page.activeTransfers p)).
    + unfold Page.handleData.
      pose proof (Array_map_length (Page.receiveChunk fileId index data)
                    (Page.activeTransfers p) (Page.maps p, Page.timeouts p)) as Hlen.
      by destruct (Page.Array_map _ _ _) as [out [maps timeouts]].
    + intros i t Hi. apply (open_ok_handleData _ _ _ _ t); [done|done| |done].
      by eapply Forall_lookup_1.
  - apply (Forall_by_position _ (Page.activeTransfers p)).
    + unfold Page.handleData, Page.setStatus.
      repeat (destruct (String.eqb action _)); cbn [Page.activeTransfers];
        by rewrite ?length_map.
    + intros i t Hi. apply (open_ok_handleData _ _ _ _ t); [done|done| |done].
      by eapply Forall_lookup_1.
  - done.
Qed.

Lemma regular_ok_step (e : Page.Event) (p : Page.t) :
  reopens p e = false -> regular_ok p -> regular_ok (Page.step e p).
Proof.
  intros Hreg Hok. destruct e as [now d|n]; [by apply regular_ok_handleData|].
  destruct Hok as [Hstore Hall]. split; [by apply store_ok_step|].
  unfold Page.step. destruct (Page.timeouts p !! n) as [[transfer|fileId]|]; [| |done].
  - cbn [Page.runTimeout]. unfold Page.handleCompleteFileReceived.
    cbn [Page.maps Page.activeTransfers].
    destruct (ActiveTransfer.chunks transfer); [|done].
    destruct (_ =? _); [|done]. cbn [Page.maps Page.activeTransfers].
    apply Forall_fmap. eapply Forall_impl; [exact Hall|]. intros t Ht. cbn.
    destruct (String.eqb _ _); [|done]. intros Hnt. discriminate.
  - cbn [Page.runTimeout Page.maps Page.activeTransfers].
    eapply Forall_sublist_of; [|exact Hall]. unfold Page.remove.
    generalize (Page.activeTransfers p). intros l.
    induction l as [|t l IH]; [done|]. cbn [List.filter].
    destruct (negb _); [by apply sublist_skip|by apply sublist_cons].
Qed.

Lemma regular_ok_run (events : list Page.Event) (p : Page.t) :
  regular events p = true -> regular_ok p -> regular_ok (Page.run events p).
Proof.
  revert p. induction events as [|e events IH]; intros p Hreg Hok; [done|].
  cbn [regular] in Hreg. apply andb_true_iff in Hreg as [Hnot Hreg].
  apply negb_true_iff in Hnot.
  change (Page.run (e :: events) p) with (Page.run events (Page.step e p)).
  apply IH; [done|]. by apply regular_ok_step.
Qed.

Lemma regular_ok_init (worker : bool) : regular_ok (Page.init worker).
Proof. split; [apply store_ok_init|]. by apply Forall_nil. Qed.

(** X20.  The effect of a duplicate chunk where no terminal transfer has
    been re-opened.  Take any run of messages and timeouts from the page as it
    is mounted in which no pause, resume or cancel message names a record
    whose status is terminal at that time.  On the page it leads to, a chunk
    message for a record in status transferring whose index is already in the
    mapping overwrites the data stored under that index; the size of the
    mapping, the status and the progress of the record stay as they are and
    no completion is scheduled for it; [receivedSize] still grows by the
    length of the duplicate. *)
Theorem duplicate_chunk_on_regular_run (worker : bool) (events : list Page.Event) (now : Z)
    (fileId : string) (index : Z) (data : bytes) (i : nat) (t : ActiveTransfer.t)
    (r : nat) (m : ChunkMap) :
  let p := Page.run events (Page.init worker) in
  let p' := Page.handleData now (Chunk fileId index data) p in
  regular events (Page.init worker) = true ->
  Page.activeTransfers p !! i = Some t ->
  ActiveTransfer.id t = fileId ->
  ActiveTransfer.status t = Status.transferring ->
  ActiveTransfer.chunks t = Some r ->
  Page.maps p !! r = Some m ->
  Map_has index m = true ->
  exists t',
    Page.activeTransfers p' !! i = Some t' /\
    ActiveTransfer.chunks t' = Some r /\
    Page.maps p' !! r = Some (Map_set index data m) /\
    Map_get index (Map_set index data m) = Some data /\
    Map_size (Map_set index data m) = Map_size m /\
    ActiveTransfer.status t' = Status.transferring /\
    ActiveTransfer.progress t' = ActiveTransfer.progress t /\
    ActiveTransfer.receivedSize t' = ActiveTransfer.receivedSize t + byteLength data /\
    completions_for r (Page.timeouts p') = completions_for r (Page.timeouts p).
Proof.
  intros p p' Hreg Hi Hid Hst Hr Hm Hhas.
  destruct (regular_ok_run events _ Hreg (regular_ok_init worker)) as [Hstore Hall].
  fold p in Hstore, Hall.
  pose proof (Forall_lookup_1 _ _ _ _ Hall Hi) as Hok.
  destruct Hok as (r0 & m0 & Hr0 & Hm0 & Hprog); [by rewrite Hst|].
  assert (r0 = r) as -> by congruence. assert (m0 = m) as -> by congruence.
  pose proof (Map_set_size_present index data m Hhas) as Hsize.
  assert (Hne : Map_size m <> FileMetadata.totalChunks (ActiveTransfer.metadata t)
                /\ ActiveTransfer.progress t
                   = percent (Map_size m) (FileMetadata.totalChunks (ActiveTransfer.metadata t))).
  { destruct m as [|e m]; [discriminate|done]. }
  destruct Hne as [Hne Hp].
  assert (Hview : view fileId i r (detached t, m) p).
  { exists t. by split_and!. }
  destruct (handleData_view now (Chunk fileId index data) p fileId i r (detached t, m)
              Hstore Hview) as [(t' & Hi' & _ & Hr' & Hdet & Hm') Hcompl].
  cbn [names own_step own_scheduled fst snd] in Hdet, Hm', Hcompl.
  rewrite String.eqb_refl in Hdet, Hm', Hcompl.
  change (ActiveTransfer.status (detached t)) with (ActiveTransfer.status t)
    in Hdet, Hm', Hcompl.
  rewrite bool_decide_eq_true_2 in Hdet, Hm', Hcompl by done.
  unfold taken in Hdet, Hm'. cbn [fst snd] in Hdet, Hm'.
  unfold scheduled in Hcompl. cbn [fst snd] in Hcompl.
  change (ActiveTransfer.metadata (detached t)) with (ActiveTransfer.metadata t)
    in Hdet, Hcompl.
  rewrite Hsize in Hdet, Hcompl.
  apply Z.eqb_neq in Hne. rewrite Hne in Hdet, Hcompl.
  exists t'. split_and!; [done|done|done|apply Map_get_set|done| | | |].
  - change (ActiveTransfer.status (detached t') = Status.transferring). by rewrite Hdet.
  - change (ActiveTransfer.progress (detached t') = ActiveTransfer.progress t).
    by rewrite Hdet, Hp.
  - change (ActiveTransfer.receivedSize (detached t')
            = ActiveTransfer.receivedSize t + byteLength data). by rewrite Hdet.
  - rewrite app_nil_r in Hcompl. exact Hcompl.
Qed.

Lemma duplicate_chunk_on_regular_run_witness :
  let metadata := FileMetadata.mk "file-1" "notes.txt" "text/plain" 4 2 in
  let events := [Page.data 0 (Metadata metadata);
                 Page.data 1 (Control "file-1" "pause");
                 Page.data 2 (Control "file-1" "resume");
                 Page.data 3 (Chunk "file-1" 0 [x01; x02])] in
  let p' := Page.handleData 4 (Chunk "file-1" 0 [x05; x06])
              (Page.run events (Page.init true)) in
  exists t',
    Page.activeTransfers p' !! 0%nat = Some t' /\
    Page.maps p' !! 0%nat = Some [(0, [x05; x06])] /\
    ActiveTransfer.status t' = Status.transferring /\
    ActiveTransfer.progress t' = number 50 /\
    ActiveTransfer.receivedSize t' = 4.
Proof.
  intros metadata events p'.
  destruct (duplicate_chunk_on_regular_run true events 4 "file-1" 0 [x05; x06] 0
              (ActiveTransfer.mk "file-1" metadata (number 50) Status.transferring
                 Direction.receiving None (Some 0%nat) 2 0 None None)
              0 [(0, [x01; x02])])
    as (t' & H1 & _ & H3 & _ & _ & H6 & H7 & H8 & _);
    try reflexivity.
  exists t'. split_and!; [exact H1 | exact H3 | exact H6 | exact H7 | exact H8].
Defined.

(** ** A file received among other transfers *)

Lemma worker_step (e : Page.Event) (p : Page.t) : Page.worker (Page.step e p) = Page.worker p.
Proof.
  destruct e as [now [metadata|fileId index data|fileId action|]|n]; simpl; try done.
  - by destruct (Page.Array_map _ _ _) as [? [? ?]].
  - by repeat (destruct (String.eqb action _)).
  - destruct (Page.timeouts p !! n) as [[transfer|fileId]|]; simpl; try done.
    unfold Page.handleCompleteFileReceived. simpl.
    destruct (ActiveTransfer.chunks transfer); [|done]. by destruct (_ =? _).
Qed.

Lemma worker_run (events : list Page.Event) (p : Page.t) :
  Page.worker (Page.run events p) = Page.worker p.
Proof.
  revert p. induction events as [|e events IH]; intros p; [done|].
  simpl. fold (Page.run events (Page.step e p)). by rewrite IH, worker_step.
Qed.

(** The chunks of a file of at least one byte, arriving in any order on the
    page of its transfer: the last one completes it. *)
Lemma file_received_alone (file : File.t) (fileId : string) (now : Z) (worker : bool)
    (arrivals : list (Z * (Z * bytes))) :
  1 <= File.size file ->
  arrivals.*2
  ≡ₚ map entry (FileWorkerManager.chunksReady
                    (FileWorkerManager.chunkFile Some file fileId).2) ->
  let metadata := FileWorkerManager.metadata file fileId in
  Page.run (chunkEvents fileId arrivals)
    (Page.handleData now (Metadata metadata) (Page.init worker))
  = receiver_page worker now metadata arrivals Status.completed
      [completion metadata now arrivals] /\
  arrived_map arrivals = arrivals.*2 /\
  Map_size (arrived_map arrivals) = FileMetadata.totalChunks metadata.
Proof.
  intros Hsize Hperm metadata.
  rewrite chunkFile_entries in Hperm by done.
  pose proof (totalChunks_bounds file) as Hb. pose proof chunkSize_pos as Hc.
  assert (Hn : 1 <= FileMetadata.totalChunks metadata) by (simpl; nia).
  assert (Hkeys : NoDup (arrivals.*2).*1).
  { rewrite Hperm, blocks_keys. apply NoDup_seqZ. }
  assert (Hmap : forall l, NoDup (l.*2).*1 -> arrived_map l = l.*2).
  { intros l Hl. unfold arrived_map. by rewrite Map_deliver_fresh. }
  assert (Hlen : Z.of_nat (length arrivals) = FileMetadata.totalChunks metadata).
  { rewrite <-(length_fmap snd arrivals), Hperm, length_map, length_seqZ. simpl. lia. }
  assert (Hfull : Map_size (arrived_map arrivals) = FileMetadata.totalChunks metadata).
  { rewrite Hmap by done. unfold Map_size. rewrite length_fmap. exact Hlen. }
  split_and!; [|by apply Hmap|done].
  destruct arrivals as [|a arrivals _] using rev_ind; [simpl in Hlen; lia|].
  assert (Hbefore : NoDup (arrivals.*2).*1).
  { rewrite !fmap_app in Hkeys. by apply NoDup_app in Hkeys as (? & _ & _). }
  assert (Hless : Map_size (arrived_map arrivals) < FileMetadata.totalChunks metadata).
  { rewrite Hmap by done. unfold Map_size. rewrite length_fmap, <-Hlen, length_app.
    simpl. lia. }
  change fileId with (FileMetadata.id metadata).
  by rewrite run_completing.
Qed.

Lemma completions_for_elem_of (r : nat) (timeouts : list Timeout) (snapshot : ActiveTransfer.t) :
  snapshot ∈ completions_for r timeouts ->
  exists n transfer,
    timeouts !! n = Some (CompleteFileReceived transfer) /\
    ActiveTransfer.chunks transfer = Some r /\
    detached transfer = snapshot.
Proof.
  unfold completions_for. intros Hin.
  apply list_elem_of_omap in Hin as (callback & Hin & Hsome).
  apply list_elem_of_lookup_1 in Hin as [n Hn].
  destruct callback as [transfer|]; [|done].
  destruct (decide _) as [Hr|]; [|done]. injection Hsome as <-. eauto.
Qed.

(** A pending completion that finds its map full posts it to the worker. *)
Lemma completion_posts (p : Page.t) (n r : nat) (transfer : ActiveTransfer.t) (m : ChunkMap) :
  Page.timeouts p !! n = Some (CompleteFileReceived transfer) ->
  ActiveTransfer.chunks transfer = Some r ->
  Page.maps p !! r = Some m ->
  Map_size m = FileMetadata.totalChunks (ActiveTransfer.metadata transfer) ->
  Page.worker p = true ->
  Page.posted (Page.step (Page.timeout n) p)
  = Page.posted p
    ++ [FileWorker.mkPayload (ActiveTransfer.id transfer)
          (merge_sort FileWorkerManager.by_index m).*2 (ActiveTransfer.metadata transfer)].
Proof.
  intros Hn Hr Hm Hsize Hworker. unfold Page.step. rewrite Hn.
  cbn [Page.runTimeout]. unfold Page.handleCompleteFileReceived.
  cbn [Page.maps Page.worker Page.posted]. rewrite Hr. unfold Page.size_at.
  rewrite Hm. change (default [] (Some m)) with m.
  rewrite Hsize, Z.eqb_refl, Hworker. reflexivity.
Qed.

(** X11.  A file of at least one byte is received whole whatever else goes
    on.  On the page in any state reached from its mounting (with a worker),
    let the metadata of the file arrive and then any messages among which
    those naming the transfer are exactly the chunks of the file, each once,
    in any order and interleaved with anything else.  Then the record of the
    transfer is completed, its [Map] holds exactly the chunks of the file,
    and a completion is pending which, when it runs, posts to the worker one
    message from which [assembleFile] rebuilds the file byte for byte. *)
Theorem file_received_among_others (events : list Page.Event) (file : File.t)
    (fileId : string) (now : Z) (msgs : list (Z * PeerData))
    (arrivals : list (Z * (Z * bytes))) :
  1 <= File.size file ->
  filter (fun x => names fileId x.2 = true) msgs
  = map (fun a => (a.1, Chunk fileId a.2.1 a.2.2)) arrivals ->
  arrivals.*2
  ≡ₚ map entry (FileWorkerManager.chunksReady
                    (FileWorkerManager.chunkFile Some file fileId).2) ->
  let metadata := FileWorkerManager.metadata file fileId in
  let before := Page.run events (Page.init true) in
  let p := Page.run (messages msgs) (Page.handleData now (Metadata metadata) before) in
  exists (t : ActiveTransfer.t) (m : ChunkMap) (n : nat),
    transfer_at p (length (Page.activeTransfers before)) = Some (t, m) /\
    ActiveTransfer.status t = Status.completed /\
    m ≡ₚ map entry (FileWorkerManager.chunksReady
                       (FileWorkerManager.chunkFile Some file fileId).2) /\
    exists payload,
      Page.posted (Page.step (Page.timeout n) p) = Page.posted p ++ [payload] /\
      FileWorker.assembleFile payload
      = FileWorker.FILE_ASSEMBLED fileId
          (Blob.mk (File.contents file) (File.type file)) metadata.
Proof.
  intros Hsize Hown Hperm metadata before p.
  assert (Hbefore : store_ok before) by apply store_ok_run, store_ok_init.
  destruct (transfer_among_others now metadata before msgs Hbefore) as [Hp Hpc].
  destruct (transfer_among_others now metadata (Page.init true)
              (map (fun a => (a.1, Chunk fileId a.2.1 a.2.2)) arrivals)
              (store_ok_init true)) as [Hq Hqc].
  change (FileMetadata.id metadata) with fileId in Hp, Hpc, Hq, Hqc.
  rewrite Hown in Hp, Hpc. fold p in Hp, Hpc.
  assert (Hsame : filter (fun x => names fileId x.2 = true)
                    (map (fun a => (a.1, Chunk fileId a.2.1 a.2.2)) arrivals)
                  = map (fun a => (a.1, Chunk fileId a.2.1 a.2.2)) arrivals).
  { rewrite <-Hown. apply list_filter_filter_l. done. }
  rewrite Hsame in Hq, Hqc.
  assert (Hevents : messages (map (fun a => (a.1, Chunk fileId a.2.1 a.2.2)) arrivals)
                    = chunkEvents fileId arrivals).
  { unfold messages, chunkEvents. by rewrite map_map. }
  rewrite Hevents in Hq, Hqc.
  destruct (file_received_alone file fileId now true arrivals Hsize Hperm)
    as (Halone & Hmap & Hfull).
  fold metadata in Halone, Hfull. rewrite Halone in Hq, Hqc.
  apply view_transfer_at in Hq. unfold receiver_page, transfer_at in Hq. simpl in Hq.
  injection Hq as Hq.
  set (own := own_run (map (fun a => (a.1, Chunk fileId a.2.1 a.2.2)) arrivals) _) in *.
  rewrite <-Hqc in Hpc. unfold receiver_page, completion in Hpc.
  cbn [Page.timeouts] in Hpc.
  assert (Hsnap : detached (receiving metadata now (number 100) Status.transferring
                              (arrived_bytes arrivals))
                  ∈ completions_for (length (Page.maps before)) (Page.timeouts p)).
  { rewrite Hpc. by left. }
  apply completions_for_elem_of in Hsnap as (n & transfer & Hn & Hr & Hdet).
  destruct Hp as (t & Hi & Hid & Hrt & Hv1 & Hv2). rewrite <-Hq in Hv1, Hv2.
  cbn [fst snd] in Hv1, Hv2.
  exists (detached t), (arrived_map arrivals), n. split_and!.
  - unfold transfer_at. by rewrite Hi, Hrt, Hv2.
  - by rewrite Hv1.
  - by rewrite Hmap.
  - eexists. split.
    + apply (completion_posts p n (length (Page.maps before)) transfer (arrived_map arrivals));
        [done|done|done| |].
      * replace (ActiveTransfer.metadata transfer)
          with (ActiveTransfer.metadata (detached transfer)) by done.
        rewrite Hdet. exact Hfull.
      * subst p before. rewrite worker_run.
        cbn [Page.handleData Page.Map_new Page.worker]. by rewrite worker_run.
    + replace (ActiveTransfer.metadata transfer)
        with (ActiveTransfer.metadata (detached transfer)) by done.
      replace (ActiveTransfer.id transfer)
        with (ActiveTransfer.id (detached transfer)) by done.
      rewrite Hdet. cbn [receiving detached ActiveTransfer.id ActiveTransfer.metadata].
      pose proof (assemble_chunks_of_file file fileId (arrived_map arrivals)) as Hasm.
      rewrite Hmap in Hasm |- *. rewrite chunkFile_entries in Hperm by done.
      specialize (Hasm Hperm).
      unfold FileWorkerManager.processReceivedFile in Hasm. cbn in Hasm.
      injection Hasm as Hasm. exact Hasm.
Qed.

Lemma file_received_among_others_witness :
  let file := File.mk "a.txt" "text/plain" [x61; x62] in
  let other := FileMetadata.mk "file-x" "x.bin" "application/octet-stream" 3 1 in
  let p :=
    Page.run
      [Page.data 0 (Metadata other);
       Page.data 1 (Metadata (FileWorkerManager.metadata file "file-a"));
       Page.data 2 (Chunk "file-x" 0 [x01; x02; x03]);
       Page.data 3 (Chunk "file-a" 0 [x61; x62])]
      (Page.init true) in
  exists (t : ActiveTransfer.t) (m : ChunkMap) (n : nat),
    transfer_at p 1 = Some (t, m) /\
    ActiveTransfer.status t = Status.completed /\
    exists payload,
      Page.posted (Page.step (Page.timeout n) p) = Page.posted p ++ [payload] /\
      FileWorker.assembleFile payload
      = FileWorker.FILE_ASSEMBLED "file-a" (Blob.mk [x61; x62] "text/plain")
          (FileWorkerManager.metadata file "file-a").
Proof.
  intros file other p.
  destruct (file_received_among_others [Page.data 0 (Metadata other)] file "file-a" 1
              [(2, Chunk "file-x" 0 [x01; x02; x03]); (3, Chunk "file-a" 0 [x61; x62])]
              [(3, (0, [x61; x62]))])
    as (t & m & n & H1 & H2 & _ & H4).
  - vm_compute. discriminate.
  - vm_compute. reflexivity.
  - rewrite chunkFile_entries by done. vm_compute. reflexivity.
  - exists t, m, n. split_and!; [exact H1 | exact H2 | exact H4].
Defined.

(** ** Pausing on the receiving page *)

Lemma with_status_back (t : ActiveTransfer.t) (status : Status.t) :
  ActiveTransfer.with_status (ActiveTransfer.status t) (ActiveTransfer.with_status status t) = t.
Proof. by destruct t. Qed.

Lemma setStatus_elem_of (fileId : string) (status : Status.t) (prev : list ActiveTransfer.t)
    (t : ActiveTransfer.t) :
  t ∈ Page.setStatus fileId status prev ->
  ActiveTransfer.id t <> fileId \/ ActiveTransfer.status t = status.
Proof.
  unfold Page.setStatus. change (map ?f ?l) with (f <$> l).
  intros (t0 & -> & _)%list_elem_of_fmap.
  destruct (String.eqb_spec (ActiveTransfer.id t0) fileId); [by right|by left].
Qed.

Lemma setStatus_setStatus_back (fileId : string) (status : Status.t)
    (prev : list ActiveTransfer.t) :
  (forall t, t ∈ prev -> ActiveTransfer.id t = fileId ->
     ActiveTransfer.status t = Status.transferring) ->
  Page.setStatus fileId Status.transferring (Page.setStatus fileId status prev) = prev.
Proof.
  induction prev as [|t prev IH]; intros Hall; [done|].
  unfold Page.setStatus in *. cbn [map]. rewrite IH by (intros; apply Hall; [by right|done]).
  f_equal. destruct (String.eqb_spec (ActiveTransfer.id t) fileId) as [Hid|Hid].
  - cbn [ActiveTransfer.with_status ActiveTransfer.id]. apply String.eqb_eq in Hid as Hid'.
    rewrite Hid'. rewrite <-(Hall t) by (done || by left). apply with_status_back.
  - by apply String.eqb_neq in Hid as ->.
Qed.

(** X12.  What a pause costs on the receiving page.  If the records named
    by a transfer are all transferring, then a pause message for it, any
    number of chunk messages for it, and a resume message leave the page
    exactly as it was before the pause: every chunk that arrives between the
    pause and the resume is lost without a trace. *)
Theorem paused_window_loses_chunks (p : Page.t) (fileId : string) (pausedAt resumedAt : Z)
    (arrivals : list (Z * (Z * bytes))) :
  (forall t, t ∈ Page.activeTransfers p -> ActiveTransfer.id t = fileId ->
     ActiveTransfer.status t = Status.transferring) ->
  Page.run (Page.data pausedAt (Control fileId "pause")
            :: chunkEvents fileId arrivals
            ++ [Page.data resumedAt (Control fileId "resume")]) p
  = p.
Proof.
  intros Hall.
  change (Page.run (?e :: ?es) ?q) with (Page.run es (Page.step e q)).
  rewrite run_app.
  set (paused := Page.step (Page.data pausedAt (Control fileId "pause")) p).
  assert (Hdropped : Page.run (chunkEvents fileId arrivals) paused = paused).
  { induction arrivals as [|a arrivals IH]; [done|].
    rewrite run_chunk, handleData_chunk_ignored; [done|].
    intros t Ht. apply setStatus_elem_of in Ht as [Hid|Hst].
    - by apply accepts_other_id.
    - apply accepts_other_status. by rewrite Hst. }
  rewrite Hdropped. subst paused. cbn [Page.run fold_left Page.step Page.handleData].
  change (String.eqb "pause" "pause") with true.
  change (String.eqb "resume" "pause") with false.
  change (String.eqb "resume" "resume") with true. cbv iota.
  cbn [Page.activeTransfers Page.maps Page.timeouts Page.worker Page.posted Page.toasts].
  rewrite setStatus_setStatus_back by done. by destruct p.
Qed.

Lemma paused_window_loses_chunks_witness :
  let metadata := FileMetadata.mk "file-1" "a.bin" "application/octet-stream" 4 2 in
  let p := Page.handleData 0 (Metadata metadata) (Page.init true) in
  Page.run [Page.data 1 (Control "file-1" "pause");
            Page.data 2 (Chunk "file-1" 0 [x01; x02]);
            Page.data 3 (Chunk "file-1" 1 [x03; x04]);
            Page.data 4 (Control "file-1" "resume")] p
  = p.
Proof.
  intros metadata p.
  apply (paused_window_loses_chunks p "file-1" 1 4 [(2, (0, [x01; x02])); (3, (1, [x03; x04]))]).
  intros t Ht _. apply list_elem_of_singleton in Ht as ->. reflexivity.
Defined.

(** ** The controls and the peer *)

Lemma update_elem_of (id : string) (f : ActiveTransfer.t -> ActiveTransfer.t)
    (prev : list ActiveTransfer.t) (t : ActiveTransfer.t) :
  t ∈ FilesPage.update id f prev ->
  exists t0, t0 ∈ prev /\ t = if String.eqb (ActiveTransfer.id t0) id then f t0 else t0.
Proof.
  unfold FilesPage.update. change (map ?f ?l) with (f <$> l).
  intros (t0 & -> & Ht0)%list_elem_of_fmap. eauto.
Qed.

Lemma update_status (id : string) (f : ActiveTransfer.t -> ActiveTransfer.t)
    (status : Status.t) (prev : list ActiveTransfer.t) (t : ActiveTransfer.t) :
  (forall a, ActiveTransfer.id (f a) = ActiveTransfer.id a) ->
  (forall a, ActiveTransfer.status (f a) = status) ->
  t ∈ FilesPage.update id f prev -> ActiveTransfer.id t = id ->
  ActiveTransfer.status t = status.
Proof.
  intros Hid Hst (t0 & Ht0 & ->)%update_elem_of.
  destruct (String.eqb_spec (ActiveTransfer.id t0) id) as [?|Hne]; [by rewrite Hst|done].
Qed.

Lemma setStatus_status (fileId : string) (status : Status.t) (prev : list ActiveTransfer.t)
    (t : ActiveTransfer.t) :
  t ∈ Page.setStatus fileId status prev -> ActiveTransfer.id t = fileId ->
  ActiveTransfer.status t = status.
Proof. intros [Hne|Hst]%setStatus_elem_of Hid; done. Qed.

(** What a button hands to the connection. *)
Lemma press_sent (button : Button) (transfer : ActiveTransfer.t) (s : FilesPage.t) :
  FilesPage.sent (press button transfer s)
  = if acts_on button transfer
       && bool_decide (FilesPage.connection s = Connection.open)
    then FilesPage.sent s ++ [Control (ActiveTransfer.id transfer) (action_of button)]
    else FilesPage.sent s.
Proof.
  destruct button; unfold press, acts_on, FilesPage.pauseTransfer, FilesPage.resumeTransfer,
    FilesPage.cancelTransfer, FilesPage.sendData;
    destruct (ActiveTransfer.direction transfer), (FilesPage.connection s) eqn:Hc;
    rewrite ?Hc; reflexivity.
Qed.

(** What a button does to the records of the page. *)
Lemma press_activeTransfers (button : Button) (transfer : ActiveTransfer.t) (s : FilesPage.t) :
  Page.activeTransfers (FilesPage.page (press button transfer s))
  = if acts_on button transfer
       && negb (bool_decide (FilesPage.connection s = Connection.null))
    then FilesPage.update (ActiveTransfer.id transfer)
           (match button with
            | PauseButton now => FilesPage.with_paused now
            | ResumeButton => FilesPage.with_resumed
            | CancelButton => ActiveTransfer.with_status Status.cancelled
            end)
           (Page.activeTransfers (FilesPage.page s))
    else Page.activeTransfers (FilesPage.page s).
Proof.
  destruct button; unfold press, acts_on, FilesPage.pauseTransfer, FilesPage.resumeTransfer,
    FilesPage.cancelTransfer, FilesPage.sendData;
    destruct (ActiveTransfer.direction transfer), (FilesPage.connection s) eqn:Hc;
    rewrite ?Hc; reflexivity.
Qed.

Lemma handleData_control_status (now : Z) (button : Button) (fileId : string) (peer : Page.t)
    (t : ActiveTransfer.t) :
  t ∈ Page.activeTransfers (Page.handleData now (Control fileId (action_of button)) peer) ->
  ActiveTransfer.id t = fileId -> ActiveTransfer.status t = status_of button.
Proof. destruct button; simpl; apply setStatus_status. Qed.

(** X13.  A control issued on one page reaches the other.  When the
    connection is open, the pause and resume buttons of a sending transfer,
    and the cancel button of any transfer, hand exactly one control message
    to the connection; once [handleData] has taken that message on the other
    page, the records of the transfer have the same status on both pages:
    paused, transferring or cancelled.  On a receiving transfer the pause and
    resume buttons do nothing at all. *)
Theorem control_reaches_peer (button : Button) (transfer : ActiveTransfer.t)
    (s : FilesPage.t) (peer : Page.t) (now : Z) :
  let fileId := ActiveTransfer.id transfer in
  (FilesPage.connection s = Connection.open -> acts_on button transfer = true ->
   exists message,
     FilesPage.sent (press button transfer s) = FilesPage.sent s ++ [message] /\
     (forall t, t ∈ Page.activeTransfers (FilesPage.page (press button transfer s)) ->
        ActiveTransfer.id t = fileId -> ActiveTransfer.status t = status_of button) /\
     (forall t, t ∈ Page.activeTransfers (Page.handleData now message peer) ->
        ActiveTransfer.id t = fileId -> ActiveTransfer.status t = status_of button)) /\
  (acts_on button transfer = false -> press button transfer s = s).
Proof.
  intros fileId. split.
  - intros Hopen Hacts. exists (Control fileId (action_of button)). split_and!.
    + by rewrite press_sent, Hacts, Hopen.
    + intros t. rewrite press_activeTransfers, Hacts, Hopen. cbn [andb negb bool_decide].
      rewrite bool_decide_eq_false_2 by done. cbn [negb].
      apply update_status; by destruct button.
    + intros t. apply handleData_control_status.
  - unfold acts_on, press, FilesPage.pauseTransfer, FilesPage.resumeTransfer.
    destruct button, (ActiveTransfer.direction transfer); done.
Qed.

Lemma control_reaches_peer_witness :
  let metadata := FileMetadata.mk "file-1" "a.bin" "application/octet-stream" 4 2 in
  let transfer :=
    ActiveTransfer.mk "file-1" metadata (number 0) Status.transferring Direction.sending
      None None 0 0 None None in
  let s :=
    FilesPage.with_page (Page.mk [transfer] [] [] true [] [])
      (FilesPage.mount true None Connection.open true) in
  let peer := Page.handleData 0 (Metadata metadata) (Page.init true) in
  exists message,
    FilesPage.sent (press (PauseButton 5) transfer s) = [message] /\
    (forall t, t ∈ Page.activeTransfers (Page.handleData 6 message peer) ->
       ActiveTransfer.id t = "file-1" -> ActiveTransfer.status t = Status.paused).
Proof.
  intros metadata transfer s peer.
  destruct (control_reaches_peer (PauseButton 5) transfer s peer 6) as [Hopen _].
  destruct Hopen as (message & H1 & _ & H3); [reflexivity | reflexivity |].
  exists message. split; [exact H1 | exact H3].
Defined.

(** ** The history *)

Lemma acts_app (l1 l2 : list Action) (s : FilesPage.t) :
  acts (l1 ++ l2) s = match acts l1 s with Some s' => acts l2 s' | None => None end.
Proof.
  revert s. induction l1 as [|a l1 IH]; intros s; [done|].
  simpl. destruct (act a s); [apply IH|done].
Qed.

(** The history shown is the history stored. *)
Lemma saveTransferRecord_stored (record : TransferRecord.t) (s : FilesPage.t) :
  FilesPage.localStorage (FilesPage.saveTransferRecord record s)
  = Some (FilesPage.transferHistory (FilesPage.saveTransferRecord record s)).
Proof. reflexivity. Qed.

Lemma act_stored (a : Action) (s s' : FilesPage.t) :
  act a s = Some s' ->
  FilesPage.transferHistory s = default [] (FilesPage.localStorage s) ->
  FilesPage.transferHistory s' = default [] (FilesPage.localStorage s').
Proof.
  intros Hact Hs.
  destruct a as [now data|n|n|now error|button transfer|id| |now file fileId
                |now file fileId startTime cb|]; simpl in Hact.
  - injection Hact as <-. unfold FilesPage.receive. by destruct (FilesPage.connection s).
  - by injection Hact as <-.
  - injection Hact as <-. unfold FilesPage.appendContainer. by destruct (_ !! _).
  - injection Hact as <-. unfold FilesPage.workerAnswers.
    destruct (_ !! _) as [payload|]; [|done].
    unfold FilesPage.onmessage. destruct (FileWorker.assembleFile payload); [|done].
    unfold FilesPage.handleFileAssembled. cbn [FilesPage.createObjectURL].
    cbn [FilesPage.setActiveTransfers FilesPage.toast FilesPage.with_page
         FilesPage.transferHistory FilesPage.localStorage].
    by rewrite saveTransferRecord_stored.
  - injection Hact as <-.
    destruct button; unfold press, FilesPage.pauseTransfer, FilesPage.resumeTransfer,
      FilesPage.cancelTransfer, FilesPage.sendData;
      destruct (ActiveTransfer.direction transfer), (FilesPage.connection s); done.
  - by injection Hact as <-.
  - by injection Hact as <-.
  - unfold FilesPage.sendFile in Hact.
    destruct (FilesPage.connection s) eqn:Hc, (FilesPage.isConnected s);
      try (by injection Hact as <-);
      (destruct (_ =? _); [done|]); injection Hact as <-;
      unfold FilesPage.sendData;
      cbn [FilesPage.setActiveTransfers FilesPage.with_page FilesPage.connection];
      rewrite Hc; done.
  - injection Hact as <-. destruct cb as [chunk|progress| |error]; cbn [FilesPage.callback].
    + unfold FilesPage.onChunkReady, FilesPage.sendData.
      by destruct (FilesPage.connection s).
    + done.
    + unfold FilesPage.onComplete. cbn [FilesPage.createObjectURL].
      cbn [FilesPage.setActiveTransfers FilesPage.toast FilesPage.setTimeout
           FilesPage.with_page FilesPage.transferHistory FilesPage.localStorage].
      by rewrite saveTransferRecord_stored.
    + done.
  - by injection Hact as <-.
Qed.

(** X14.  The history survives a reload.  Whatever happens on the page after
    it is mounted (messages from the peer, timeouts, answers of the worker,
    buttons, files sent, the connection closing, history items removed, the
    history cleared), the
    history kept in [localStorage] is the history on display, so a page
    mounted afterwards shows the same history. *)
Theorem history_survives_reload (worker worker' : bool)
    (localStorage : option (list TransferRecord.t)) (connection connection' : Connection.t)
    (isConnected isConnected' : bool) (l : list Action) (s : FilesPage.t) :
  acts l (FilesPage.mount worker localStorage connection isConnected) = Some s ->
  FilesPage.transferHistory
    (FilesPage.mount worker' (FilesPage.localStorage s) connection' isConnected')
  = FilesPage.transferHistory s.
Proof.
  intros Hacts. simpl. symmetry.
  assert (Hmount : FilesPage.transferHistory
                     (FilesPage.mount worker localStorage connection isConnected)
                   = default [] (FilesPage.localStorage
                                   (FilesPage.mount worker localStorage connection isConnected)))
    by done.
  revert Hacts Hmount. generalize (FilesPage.mount worker localStorage connection isConnected).
  induction l as [|a l IH]; intros s0 Hacts Hs0.
  - by injection Hacts as <-.
  - simpl in Hacts. destruct (act a s0) as [s1|] eqn:Hact; [|done].
    apply (IH s1 Hacts). by eapply act_stored.
Qed.

(** ** From the last chunk to the history *)

Lemma acts_receives (msgs : list (Z * PeerData)) (s : FilesPage.t) :
  FilesPage.connection s <> Connection.null ->
  acts (receives msgs) s
  = Some (FilesPage.with_page (Page.run (messages msgs) (FilesPage.page s)) s).
Proof.
  intros Hc. revert s Hc. induction msgs as [|[now d] msgs IH]; intros s Hc.
  - by destruct s.
  - cbn [receives map acts act fst snd]. fold (receives msgs).
    assert (Hreceive : FilesPage.receive now d s
                       = FilesPage.with_page (Page.handleData now d (FilesPage.page s)) s).
    { unfold FilesPage.receive. by destruct (FilesPage.connection s). }
    rewrite Hreceive, IH by done. reflexivity.
Qed.

(** A transfer whose [totalChunks] chunks arrive, each index once, on the
    page of its metadata alone. *)
Lemma transfer_received_alone (metadata : FileMetadata.t) (now : Z) (worker : bool)
    (arrivals : list (Z * (Z * bytes))) :
  1 <= FileMetadata.totalChunks metadata ->
  NoDup (arrivals.*2).*1 ->
  Z.of_nat (length arrivals) = FileMetadata.totalChunks metadata ->
  Page.run (chunkEvents (FileMetadata.id metadata) arrivals)
    (Page.handleData now (Metadata metadata) (Page.init worker))
  = receiver_page worker now metadata arrivals Status.completed
      [completion metadata now arrivals] /\
  arrived_map arrivals = arrivals.*2 /\
  Map_size (arrived_map arrivals) = FileMetadata.totalChunks metadata.
Proof.
  intros Hn Hkeys Hlen.
  assert (Hmap : forall l, NoDup (l.*2).*1 -> arrived_map l = l.*2).
  { intros l Hl. unfold arrived_map. by rewrite Map_deliver_fresh. }
  assert (Hfull : Map_size (arrived_map arrivals) = FileMetadata.totalChunks metadata).
  { rewrite Hmap by done. unfold Map_size. rewrite length_fmap. exact Hlen. }
  split_and!; [|by apply Hmap|done].
  destruct arrivals as [|a arrivals _] using rev_ind; [simpl in Hlen; lia|].
  assert (Hbefore : NoDup (arrivals.*2).*1).
  { rewrite !fmap_app in Hkeys. by apply NoDup_app in Hkeys as (? & _ & _). }
  assert (Hless : Map_size (arrived_map arrivals) < FileMetadata.totalChunks metadata).
  { rewrite Hmap by done. unfold Map_size. rewrite length_fmap, <-Hlen, length_app.
    simpl. lia. }
  by rewrite run_completing.
Qed.

(** The page after the metadata, the chunks and the completion. *)
Lemma acts_received (metadata : FileMetadata.t) (now : Z)
    (arrivals : list (Z * (Z * bytes))) (s : FilesPage.t) :
  FilesPage.connection s <> Connection.null ->
  FilesPage.page s = Page.init true ->
  1 <= FileMetadata.totalChunks metadata ->
  NoDup (arrivals.*2).*1 ->
  Z.of_nat (length arrivals) = FileMetadata.totalChunks metadata ->
  acts (Receive now (Metadata metadata)
        :: chunkReceives (FileMetadata.id metadata) arrivals ++ [RunTimeout 0]) s
  = Some (FilesPage.with_page
            (Page.mk
               [receiving metadata now (number 100) Status.completed (arrived_bytes arrivals)]
               [arrivals.*2] [] true
               [FileWorker.mkPayload (FileMetadata.id metadata)
                  (merge_sort FileWorkerManager.by_index arrivals.*2).*2 metadata]
               [Toast.mk "Receiving File"
                  ("Starting to receive: " ++ FileMetadata.name metadata) false])
            s).
Proof.
  intros Hc Hpage Hn Hkeys Hlen.
  change (Receive now (Metadata metadata) :: ?l)
    with (receives [(now, Metadata metadata)] ++ l).
  assert (Hchunks : chunkReceives (FileMetadata.id metadata) arrivals
                    = receives (map (fun a => (a.1, Chunk (FileMetadata.id metadata) a.2.1 a.2.2))
                                  arrivals)).
  { unfold chunkReceives, receives. by rewrite map_map. }
  rewrite Hchunks, app_assoc. unfold receives at 1 2. rewrite <-map_app.
  fold (receives ([(now, Metadata metadata)]
                  ++ map (fun a => (a.1, Chunk (FileMetadata.id metadata) a.2.1 a.2.2))
                       arrivals)).
  rewrite acts_app, acts_receives by done. cbn [acts act].
  unfold FilesPage.timeout, FilesPage.with_page.
  cbn [FilesPage.page FilesPage.transferHistory FilesPage.localStorage FilesPage.objectURLs
       FilesPage.body FilesPage.deferred FilesPage.connection FilesPage.isConnected
       FilesPage.sent FilesPage.answered].
  do 2 f_equal.
  rewrite Hpage. unfold messages. rewrite map_app, map_map. cbn [map fst snd].
  change (map (fun x => Page.data x.1 (Chunk (FileMetadata.id metadata) x.2.1 x.2.2)) arrivals)
    with (chunkEvents (FileMetadata.id metadata) arrivals).
  rewrite run_app.
  change (Page.run [Page.data now (Metadata metadata)] (Page.init true))
    with (Page.handleData now (Metadata metadata) (Page.init true)).
  destruct (transfer_received_alone metadata now true arrivals Hn Hkeys Hlen)
    as (Hrun & Hmap & Hfull).
  rewrite Hrun, completion_runs by done. by rewrite Hmap.
Qed.


(** X16.  A file sent is a file in the history of the receiver.  On a page
    just mounted (with a worker and a connection), the metadata of a file of
    at least one byte arrives, then its chunks, in any order; the completion
    runs and the worker answers.  Then no transfer is active any more, and
    the history gains one received record with the name, the type and the
    size of the file and the URL of a blob that holds exactly the bytes of
    the file. *)
Theorem received_file_reaches_history (file : File.t) (fileId : string) (now now' : Z)
    (error : string) (arrivals : list (Z * (Z * bytes)))
    (localStorage : option (list TransferRecord.t)) (connection : Connection.t)
    (isConnected : bool) :
  connection <> Connection.null ->
  1 <= File.size file ->
  arrivals.*2
  ≡ₚ map entry (FileWorkerManager.chunksReady
                    (FileWorkerManager.chunkFile Some file fileId).2) ->
  let metadata := FileWorkerManager.metadata file fileId in
  exists s,
    acts (Receive now (Metadata metadata)
          :: chunkReceives fileId arrivals ++ [RunTimeout 0; WorkerAnswers now' error])
      (FilesPage.mount true localStorage connection isConnected)
    = Some s /\
    Page.activeTransfers (FilesPage.page s) = [] /\
    Page.timeouts (FilesPage.page s) = [] /\
    FilesPage.objectURLs s = [Blob.mk (File.contents file) (File.type file)] /\
    FilesPage.transferHistory s
    = default [] localStorage
      ++ [TransferRecord.mk fileId (File.name file) (File.type file) (File.size file) now'
            TransferRecord.received (Some (FilesPage.previewOf (File.type file) 0))
            (Some 0%nat)] /\
    FilesPage.localStorage s = Some (FilesPage.transferHistory s).
Proof.
  intros Hc Hsize Hperm metadata.
  pose proof (assemble_chunks_of_file file fileId arrivals.*2) as Hasm.
  rewrite chunkFile_entries in Hperm by done. specialize (Hasm Hperm).
  unfold FileWorkerManager.processReceivedFile in Hasm. cbn in Hasm. injection Hasm as Hasm.
  pose proof (totalChunks_bounds file) as Hb. pose proof chunkSize_pos as Hpos.
  assert (Hn : 1 <= FileMetadata.totalChunks metadata) by (simpl; nia).
  assert (Hkeys : NoDup (arrivals.*2).*1).
  { rewrite Hperm, blocks_keys. apply NoDup_seqZ. }
  assert (Hlen : Z.of_nat (length arrivals) = FileMetadata.totalChunks metadata).
  { rewrite <-(length_fmap snd arrivals), Hperm, length_map, length_seqZ. simpl. lia. }
  change [RunTimeout 0; WorkerAnswers now' error]
    with ([RunTimeout 0] ++ [WorkerAnswers now' error]).
  rewrite app_assoc, app_comm_cons, acts_app.
  change fileId with (FileMetadata.id metadata) at 1.
  rewrite (acts_received metadata now arrivals) by done.
  cbn [acts act]. unfold FilesPage.workerAnswers.
  cbn [FilesPage.with_page FilesPage.page Page.posted FilesPage.answered FilesPage.mount
       lookup list_lookup].
  subst metadata.
  change (FileMetadata.id (FileWorkerManager.metadata file fileId)) with fileId.
  rewrite Hasm.
  cbn [FilesPage.onmessage]. unfold FilesPage.handleFileAssembled.
  cbn [FilesPage.createObjectURL].
  eexists. split; [reflexivity|]. split_and!; try reflexivity.
  cbn. by rewrite String.eqb_refl.
Qed.

Lemma received_file_reaches_history_witness :
  let file := File.mk "a.txt" "text/plain" [x61; x62] in
  exists s,
    acts [Receive 0 (Metadata (FileWorkerManager.metadata file "file-a"));
          Receive 1 (Chunk "file-a" 0 [x61; x62]);
          RunTimeout 0;
          WorkerAnswers 2 ""]
      (FilesPage.mount true None Connection.open true)
    = Some s /\
    Page.activeTransfers (FilesPage.page s) = [] /\
    FilesPage.objectURLs s = [Blob.mk [x61; x62] "text/plain"] /\
    FilesPage.transferHistory s
    = [TransferRecord.mk "file-a" "a.txt" "text/plain" 2 2 TransferRecord.received
         (Some TransferRecord.text) (Some 0%nat)].
Proof.
  intros file.
  destruct (received_file_reaches_history file "file-a" 0 2 "" [(1, (0, [x61; x62]))] None
              Connection.open true) as (s & H1 & H2 & _ & H4 & H5 & _).
  - discriminate.
  - vm_compute. discriminate.
  - rewrite chunkFile_entries by done. vm_compute. reflexivity.
  - exists s. split_and!; [exact H1 | exact H2 | exact H4 | exact H5].
Defined.


Lemma history_survives_reload_witness :
  exists s,
    acts [Receive 0 (Metadata (FileMetadata.mk "file-b" "b.bin" "application/pdf" 2 1));
          Receive 1 (Chunk "file-b" 0 [x61; x62]);
          RunTimeout 0;
          WorkerAnswers 2 "";
          RemoveHistoryItem "file-0"]
      (FilesPage.mount true None Connection.open true)
    = Some s /\
    FilesPage.transferHistory (FilesPage.mount true (FilesPage.localStorage s) Connection.null false)
    = FilesPage.transferHistory s /\
    length (FilesPage.transferHistory s) = 1%nat.
Proof.
  eexists. split; [vm_compute; reflexivity|]. split; [|reflexivity].
  apply (history_survives_reload true true None Connection.open Connection.null true false
           [Receive 0 (Metadata (FileMetadata.mk "file-b" "b.bin" "application/pdf" 2 1));
            Receive 1 (Chunk "file-b" 0 [x61; x62]);
            RunTimeout 0;
            WorkerAnswers 2 "";
            RemoveHistoryItem "file-0"]).
  vm_compute. reflexivity.
Defined.

(** ** Sending a file *)

Lemma acts_callbacks_cons (now : Z) (file : File.t) (fileId : string) (startTime : Z)
    (cb : FileWorkerManager.Callback) (cbs : list FileWorkerManager.Callback)
    (s : FilesPage.t) :
  acts (callbacks now file fileId startTime (cb :: cbs)) s
  = acts (callbacks now file fileId startTime cbs)
      (FilesPage.callback now file fileId startTime cb s).
Proof. reflexivity. Qed.

Lemma callbacks_app (now : Z) (file : File.t) (fileId : string) (startTime : Z)
    (l1 l2 : list FileWorkerManager.Callback) :
  callbacks now file fileId startTime (l1 ++ l2)
  = callbacks now file fileId startTime l1 ++ callbacks now file fileId startTime l2.
Proof. apply map_app. Qed.

Lemma started_sending (file : File.t) (fileId : string) (startTime : Z) (progress : float)
    (status : Status.t) :
  FilesPage.started file startTime (sending file fileId startTime progress status) = true.
Proof.
  unfold FilesPage.started, sending. simpl. by rewrite String.eqb_refl, Z.eqb_refl.
Qed.

(** [sendFile] on a page just mounted, with an open connection. *)
Lemma sendFile_mounted (worker : bool) (localStorage : option (list TransferRecord.t))
    (now : Z) (file : File.t) (fileId : string) :
  1 <= File.size file ->
  FilesPage.sendFile now file fileId (FilesPage.mount worker localStorage Connection.open true)
  = Some (sender worker localStorage file fileId now (number 0) Status.transferring []
            Connection.open true [Metadata (FileWorkerManager.metadata file fileId)]).
Proof.
  intros Hsize. unfold FilesPage.sendFile, FilesPage.mount.
  cbn [FilesPage.connection FilesPage.isConnected].
  pose proof (totalChunks_bounds file) as Hb. pose proof chunkSize_pos.
  destruct (Z.eqb_spec (FileWorkerManager.totalChunks file) 0) as [Hz|_]; [nia|].
  unfold FilesPage.sendData, FilesPage.setActiveTransfers, FilesPage.with_page, sender, sending.
  cbn [FilesPage.page FilesPage.transferHistory FilesPage.localStorage FilesPage.objectURLs
       FilesPage.body FilesPage.deferred FilesPage.connection FilesPage.isConnected
       FilesPage.sent FilesPage.answered Page.init Page.activeTransfers Page.maps
       Page.timeouts Page.worker Page.posted Page.toasts app map].
  unfold FilesPage.started.
  cbn [ActiveTransfer.metadata FileMetadata.name ActiveTransfer.startTime].
  rewrite String.eqb_refl, Z.eqb_refl. reflexivity.
Qed.

(** The callbacks of the chunks [l], on the sending page: while the
    connection is open every chunk is handed to it, whatever the status of
    the record; otherwise the chunk is dropped, and nothing tells. *)
Lemma sender_chunks (worker : bool) (localStorage : option (list TransferRecord.t))
    (now' : Z) (file : File.t) (fileId : string) (now : Z) (l : list Z) (progress : float)
    (status : Status.t) (timeouts : list Timeout) (connection : Connection.t)
    (isConnected : bool) (sent : list PeerData) :
  acts (callbacks now' file fileId now (flat_map (chunkCallbacks file fileId) l))
    (sender worker localStorage file fileId now progress status timeouts connection
       isConnected sent)
  = Some (sender worker localStorage file fileId now (progress_sent file progress l) status
            timeouts connection isConnected
            (if bool_decide (connection = Connection.open)
             then sent ++ map (chunkMessage file fileId) l else sent)).
Proof.
  revert progress sent. induction l as [|i l IH]; intros progress sent.
  - simpl. rewrite app_nil_r. by destruct (bool_decide _).
  - cbn [flat_map chunkCallbacks app]. rewrite !acts_callbacks_cons.
    cbn [FilesPage.callback].
    assert (Hstep : FilesPage.onProgress file now
                      (percent (i + 1) (FileWorkerManager.totalChunks file))
                      (FilesPage.onChunkReady
                         (FileChunk.mk fileId i (FileWorkerManager.chunkBlob file i))
                         (sender worker localStorage file fileId now progress status timeouts
                            connection isConnected sent))
                    = sender worker localStorage file fileId now
                        (percent (i + 1) (FileWorkerManager.totalChunks file)) status timeouts
                        connection isConnected
                        (if bool_decide (connection = Connection.open)
                         then sent ++ [chunkMessage file fileId i] else sent)).
    { unfold FilesPage.onChunkReady, FilesPage.sendData, sender.
      cbn [FilesPage.connection].
      destruct connection;
        cbn [FilesPage.connection FilesPage.page FilesPage.transferHistory
             FilesPage.localStorage FilesPage.objectURLs FilesPage.body FilesPage.deferred
             FilesPage.isConnected FilesPage.sent FilesPage.answered];
        unfold FilesPage.onProgress, FilesPage.setActiveTransfers, FilesPage.with_page;
        cbn [FilesPage.connection FilesPage.page FilesPage.transferHistory
             FilesPage.localStorage FilesPage.objectURLs FilesPage.body FilesPage.deferred
             FilesPage.isConnected FilesPage.sent FilesPage.answered Page.activeTransfers
             Page.maps Page.timeouts Page.worker Page.posted Page.toasts map];
        rewrite started_sending; reflexivity. }
    rewrite Hstep, IH. cbn [map progress_sent fold_left].
    destruct (bool_decide _); [by rewrite <-app_assoc|done].
Qed.

(** [onComplete] on the sending page. *)
Lemma sender_onComplete (worker : bool) (localStorage : option (list TransferRecord.t))
    (now' : Z) (file : File.t) (fileId : string) (now : Z) (progress : float)
    (status : Status.t) (timeouts : list Timeout) (connection : Connection.t)
    (isConnected : bool) (sent : list PeerData) :
  let s := FilesPage.onComplete now' file fileId
             (sender worker localStorage file fileId now progress status timeouts connection
                isConnected sent) in
  Page.activeTransfers (FilesPage.page s)
  = [sending file fileId now (number 100) Status.completed] /\
  Page.timeouts (FilesPage.page s) = timeouts ++ [RemoveTransfer fileId] /\
  Page.toasts (FilesPage.page s)
  = [Toast.mk "File Sent" ("File sent successfully: " ++ File.name file) false] /\
  FilesPage.transferHistory s = default [] localStorage ++ [sentRecord file fileId now' 0] /\
  FilesPage.localStorage s = Some (FilesPage.transferHistory s) /\
  FilesPage.objectURLs s = [Blob.mk (File.contents file) (File.type file)] /\
  FilesPage.sent s = sent.
Proof.
  intros s. subst s. unfold FilesPage.onComplete, sender.
  cbn [FilesPage.createObjectURL FilesPage.setActiveTransfers FilesPage.with_page
       FilesPage.page FilesPage.transferHistory FilesPage.localStorage FilesPage.objectURLs
       FilesPage.body FilesPage.deferred FilesPage.connection FilesPage.isConnected
       FilesPage.sent FilesPage.answered Page.activeTransfers Page.maps Page.timeouts
       Page.worker Page.posted Page.toasts length].
  unfold FilesPage.update, sending. cbn [map ActiveTransfer.id]. rewrite String.eqb_refl.
  destruct (FilesPage.previewOf (File.type file) 0) eqn:Hpreview;
    unfold sentRecord; rewrite Hpreview; split_and!; reflexivity.
Qed.

Lemma chunkFile_trace (readAsArrayBuffer : bytes -> option bytes) (file : File.t)
    (fileId : string) :
  (forall b, readAsArrayBuffer b = Some b) ->
  (FileWorkerManager.chunkFile readAsArrayBuffer file fileId).2
  = flat_map (chunkCallbacks file fileId) (seqZ 0 (FileWorkerManager.totalChunks file))
    ++ [FileWorkerManager.onComplete].
Proof.
  intros reads. unfold FileWorkerManager.chunkFile. cbn [snd].
  rewrite processNextChunk_trace by done. by rewrite Z.sub_0_r.
Qed.

Lemma sendFile_sent_chunks (readAsArrayBuffer : bytes -> option bytes) (file : File.t)
    (fileId : string) :
  (forall b, readAsArrayBuffer b = Some b) ->
  Page.sendFile_sent readAsArrayBuffer file fileId
  = Metadata (FileWorkerManager.metadata file fileId)
    :: map (chunkMessage file fileId) (seqZ 0 (FileWorkerManager.totalChunks file)).
Proof.
  intros reads. unfold Page.sendFile_sent.
  pose proof (chunkFile_chunks readAsArrayBuffer file fileId reads) as Hchunks.
  destruct (FileWorkerManager.chunkFile readAsArrayBuffer file fileId) as [[f metadata] cbs] eqn:Hc.
  cbn [snd] in Hchunks. rewrite Hchunks, map_map.
  unfold FileWorkerManager.chunkFile in Hc. by injection Hc as <- <- _.
Qed.

Lemma timeout_removes (s : FilesPage.t) (fileId : string) (pending : list Timeout) :
  Page.timeouts (FilesPage.page s) = RemoveTransfer fileId :: pending ->
  Page.activeTransfers (FilesPage.page (FilesPage.timeout 0 s))
  = Page.remove fileId (Page.activeTransfers (FilesPage.page s)).
Proof.
  intros Hpending. unfold FilesPage.timeout. cbn [FilesPage.with_page FilesPage.page].
  unfold Page.step. by rewrite Hpending.
Qed.

(** X17.  A file sent from a page just mounted.  With an open connection and
    reads that succeed, [sendFile] and the callbacks of its chunker hand to
    the connection the metadata and then every chunk of the file, in index
    order; the record of the transfer ends completed at 100 and is taken off
    the page by the timeout then pending; the history, on display and in
    [localStorage], gains one sent record with the name, type and size of the
    file and the URL of a blob holding its bytes; the toast says the file was
    sent. *)
Theorem file_sent (readAsArrayBuffer : bytes -> option bytes) (worker : bool)
    (localStorage : option (list TransferRecord.t)) (now now' : Z) (file : File.t)
    (fileId : string) :
  (forall b, readAsArrayBuffer b = Some b) ->
  1 <= File.size file ->
  let trace := (FileWorkerManager.chunkFile readAsArrayBuffer file fileId).2 in
  exists s,
    acts (SendFile now file fileId :: callbacks now' file fileId now trace)
      (FilesPage.mount worker localStorage Connection.open true)
    = Some s /\
    FilesPage.sent s = Page.sendFile_sent readAsArrayBuffer file fileId /\
    Page.activeTransfers (FilesPage.page s)
    = [sending file fileId now (number 100) Status.completed] /\
    Page.timeouts (FilesPage.page s) = [RemoveTransfer fileId] /\
    Page.activeTransfers (FilesPage.page (FilesPage.timeout 0 s)) = [] /\
    FilesPage.transferHistory s = default [] localStorage ++ [sentRecord file fileId now' 0] /\
    FilesPage.localStorage s = Some (FilesPage.transferHistory s) /\
    FilesPage.objectURLs s = [Blob.mk (File.contents file) (File.type file)] /\
    Page.toasts (FilesPage.page s)
    = [Toast.mk "File Sent" ("File sent successfully: " ++ File.name file) false].
Proof.
  intros reads Hsize trace. subst trace.
  rewrite chunkFile_trace, sendFile_sent_chunks by done.
  cbn [acts act]. rewrite sendFile_mounted by done.
  rewrite callbacks_app, acts_app, sender_chunks.
  cbn [callbacks map acts act FilesPage.callback bool_decide decide_rel].
  rewrite bool_decide_eq_true_2 by done.
  destruct (sender_onComplete worker localStorage now' file fileId now
              (progress_sent file (number 0) (seqZ 0 (FileWorkerManager.totalChunks file)))
              Status.transferring [] Connection.open true
              ([Metadata (FileWorkerManager.metadata file fileId)]
               ++ map (chunkMessage file fileId) (seqZ 0 (FileWorkerManager.totalChunks file))))
    as (H1 & H2 & H3 & H4 & H5 & H6 & H7).
  eexists. split; [reflexivity|]. split_and!; try done.
  rewrite (timeout_removes _ fileId []) by done. rewrite H1.
  unfold Page.remove, sending. cbn [List.filter ActiveTransfer.id].
  by rewrite String.eqb_refl.
Qed.

Lemma file_sent_witness :
  let file := File.mk "a.txt" "text/plain" [x61; x62] in
  exists s,
    acts (SendFile 0 file "file-a"
          :: callbacks 1 file "file-a" 0 (FileWorkerManager.chunkFile Some file "file-a").2)
      (FilesPage.mount true None Connection.open true)
    = Some s /\
    FilesPage.sent s = Page.sendFile_sent Some file "file-a" /\
    FilesPage.transferHistory s = [sentRecord file "file-a" 1 0].
Proof.
  intros file.
  destruct (file_sent Some true None 0 1 file "file-a") as (s & H1 & H2 & _ & _ & _ & H6 & _).
  - reflexivity.
  - vm_compute. discriminate.
  - exists s. split_and!; [exact H1 | exact H2 | exact H6].
Defined.

(** ** Cancelling on the sending page *)

Lemma chunkCallbacks_length (file : File.t) (fileId : string) (l : list Z) :
  length (flat_map (chunkCallbacks file fileId) l) = (2 * length l)%nat.
Proof. induction l as [|i l IH]; simpl; [done|]. rewrite IH. lia. Qed.

(** The trace of the chunker, cut after the callbacks of [k] chunks. *)
Lemma trace_split (file : File.t) (fileId : string) (k : nat) :
  Z.of_nat k <= FileWorkerManager.totalChunks file ->
  let trace :=
    flat_map (chunkCallbacks file fileId) (seqZ 0 (FileWorkerManager.totalChunks file))
    ++ [FileWorkerManager.onComplete] in
  take (2 * k) trace = flat_map (chunkCallbacks file fileId) (seqZ 0 (Z.of_nat k)) /\
  drop (2 * k) trace
  = flat_map (chunkCallbacks file fileId)
      (seqZ (Z.of_nat k) (FileWorkerManager.totalChunks file - Z.of_nat k))
    ++ [FileWorkerManager.onComplete].
Proof.
  intros Hk trace. subst trace.
  replace (FileWorkerManager.totalChunks file)
    with (Z.of_nat k + (FileWorkerManager.totalChunks file - Z.of_nat k)) at 1 2 by lia.
  rewrite seqZ_app by lia. rewrite flat_map_app, <-app_assoc, Z.add_0_l.
  assert (Hlen : length (flat_map (chunkCallbacks file fileId) (seqZ 0 (Z.of_nat k)))
                 = (2 * k)%nat).
  { rewrite chunkCallbacks_length, length_seqZ. lia. }
  split.
  - by rewrite take_app_length' by (by rewrite Hlen).
  - by rewrite drop_app_length' by (by rewrite Hlen).
Qed.

(** Chunk messages of a file, each with the clock at its arrival, are chunk
    events of its transfer. *)
Lemma chunk_messages_events (file : File.t) (fileId : string) (l : list Z)
    (msgs : list (Z * PeerData)) :
  msgs.*2 = map (chunkMessage file fileId) l ->
  exists arrivals,
    messages msgs = chunkEvents fileId arrivals /\
    arrivals.*2 = map (fun i => (i, FileWorkerManager.chunkBlob file i)) l.
Proof.
  revert msgs. induction l as [|i l IH]; intros msgs Hmsgs.
  - apply fmap_nil_inv in Hmsgs as ->. by exists [].
  - simpl in Hmsgs. apply fmap_cons_inv in Hmsgs as ([now d] & msgs' & Hd & Hmsgs' & ->).
    simpl in Hd. subst d. symmetry in Hmsgs'.
    destruct (IH msgs' Hmsgs') as (arrivals & Hevents & Harrivals).
    exists ((now, (i, FileWorkerManager.chunkBlob file i)) :: arrivals). split.
    + cbn [messages map chunkEvents fst snd]. f_equal. exact Hevents.
    + rewrite fmap_cons. cbn [snd map]. by rewrite Harrivals.
Qed.

(** Chunk messages that no record takes change nothing. *)
Lemma run_ignored (fileId : string) (arrivals : list (Z * (Z * bytes))) (p : Page.t) :
  (forall t, t ∈ Page.activeTransfers p -> accepts fileId t = false) ->
  Page.run (chunkEvents fileId arrivals) p = p.
Proof.
  intros Hall. induction arrivals as [|a arrivals IH]; [done|].
  by rewrite run_chunk, handleData_chunk_ignored.
Qed.

(** The trace of the remaining chunks, cut after the callbacks of [m] of
    them. *)
Lemma chunkCallbacks_split (file : File.t) (fileId : string) (a n : Z) (m : nat)
    (rest : list FileWorkerManager.Callback) :
  Z.of_nat m <= n ->
  take (2 * m) (flat_map (chunkCallbacks file fileId) (seqZ a n) ++ rest)
  = flat_map (chunkCallbacks file fileId) (seqZ a (Z.of_nat m)) /\
  drop (2 * m) (flat_map (chunkCallbacks file fileId) (seqZ a n) ++ rest)
  = flat_map (chunkCallbacks file fileId) (seqZ (a + Z.of_nat m) (n - Z.of_nat m)) ++ rest.
Proof.
  intros Hm.
  replace n with (Z.of_nat m + (n - Z.of_nat m)) at 1 2 by lia.
  rewrite seqZ_app by lia. rewrite flat_map_app, <-app_assoc.
  assert (Hlen : length (flat_map (chunkCallbacks file fileId) (seqZ a (Z.of_nat m)))
                 = (2 * m)%nat).
  { rewrite chunkCallbacks_length, length_seqZ. lia. }
  split.
  - by rewrite take_app_length' by (by rewrite Hlen).
  - by rewrite drop_app_length' by (by rewrite Hlen).
Qed.

(** The removal scheduled by the cancel button takes the record off the
    sending page. *)
Lemma sender_timeout_removes (worker : bool) (localStorage : option (list TransferRecord.t))
    (file : File.t) (fileId : string) (now : Z) (progress : float) (status : Status.t)
    (pending : list Timeout) (connection : Connection.t) (isConnected : bool)
    (sent : list PeerData) :
  FilesPage.timeout 0
    (sender worker localStorage file fileId now progress status
       (RemoveTransfer fileId :: pending) connection isConnected sent)
  = sender_removed worker localStorage pending connection isConnected sent.
Proof.
  unfold FilesPage.timeout, sender, sender_removed, FilesPage.with_page, Page.step.
  cbn [FilesPage.page FilesPage.transferHistory FilesPage.localStorage FilesPage.objectURLs
       FilesPage.body FilesPage.deferred FilesPage.connection FilesPage.isConnected
       FilesPage.sent FilesPage.answered Page.activeTransfers Page.maps Page.timeouts
       Page.worker Page.posted Page.toasts lookup list_lookup delete list_delete
       Page.runTimeout].
  unfold Page.remove, sending. cbn [List.filter ActiveTransfer.id].
  by rewrite String.eqb_refl.
Qed.

(** The callbacks of the chunks [l] on the sending page without its record:
    the chunks still go to the connection. *)
Lemma removed_chunks (worker : bool) (localStorage : option (list TransferRecord.t))
    (now' : Z) (file : File.t) (fileId : string) (now : Z) (l : list Z)
    (timeouts : list Timeout) (sent : list PeerData) :
  acts (callbacks now' file fileId now (flat_map (chunkCallbacks file fileId) l))
    (sender_removed worker localStorage timeouts Connection.open true sent)
  = Some (sender_removed worker localStorage timeouts Connection.open true
            (sent ++ map (chunkMessage file fileId) l)).
Proof.
  revert sent. induction l as [|i l IH]; intros sent.
  - simpl. by rewrite app_nil_r.
  - cbn [flat_map chunkCallbacks app]. rewrite !acts_callbacks_cons.
    cbn [FilesPage.callback].
    change (FilesPage.onProgress file now
              (percent (i + 1) (FileWorkerManager.totalChunks file))
              (FilesPage.onChunkReady
                 (FileChunk.mk fileId i (FileWorkerManager.chunkBlob file i))
                 (sender_removed worker localStorage timeouts Connection.open true sent)))
      with (sender_removed worker localStorage timeouts Connection.open true
              (sent ++ [chunkMessage file fileId i])).
    rewrite IH. cbn [map]. by rewrite <-app_assoc.
Qed.

(** [onComplete] on the sending page without its record. *)
Lemma removed_onComplete (worker : bool) (localStorage : option (list TransferRecord.t))
    (now' : Z) (file : File.t) (fileId : string) (timeouts : list Timeout)
    (connection : Connection.t) (isConnected : bool) (sent : list PeerData) :
  let s := FilesPage.onComplete now' file fileId
             (sender_removed worker localStorage timeouts connection isConnected sent) in
  Page.activeTransfers (FilesPage.page s) = [] /\
  Page.timeouts (FilesPage.page s) = timeouts ++ [RemoveTransfer fileId] /\
  Page.toasts (FilesPage.page s)
  = [Toast.mk "File Sent" ("File sent successfully: " ++ File.name file) false] /\
  FilesPage.transferHistory s = default [] localStorage ++ [sentRecord file fileId now' 0] /\
  FilesPage.localStorage s = Some (FilesPage.transferHistory s) /\
  FilesPage.objectURLs s = [Blob.mk (File.contents file) (File.type file)] /\
  FilesPage.sent s = sent.
Proof.
  intros s. subst s. unfold FilesPage.onComplete, sender_removed.
  cbn [FilesPage.createObjectURL FilesPage.setActiveTransfers FilesPage.with_page
       FilesPage.page FilesPage.transferHistory FilesPage.localStorage FilesPage.objectURLs
       FilesPage.body FilesPage.deferred FilesPage.connection FilesPage.isConnected
       FilesPage.sent FilesPage.answered Page.activeTransfers Page.maps Page.timeouts
       Page.worker Page.posted Page.toasts length].
  unfold FilesPage.update. cbn [map].
  destruct (FilesPage.previewOf (File.type file) 0) eqn:Hpreview;
    unfold sentRecord; rewrite Hpreview; split_and!; reflexivity.
Qed.

(** The receiving page of a send cancelled after [k] chunks, with at least one
    chunk outstanding: the chunks [l] that come after the cancel message are
    dropped. *)
Lemma receiver_of_cancelled (file : File.t) (fileId : string) (k : nat) (l : list Z)
    (msgs : list (Z * PeerData)) :
  Z.of_nat k < FileWorkerManager.totalChunks file ->
  msgs.*2
  = Metadata (FileWorkerManager.metadata file fileId)
    :: map (chunkMessage file fileId) (seqZ 0 (Z.of_nat k))
    ++ Control fileId "cancel" :: map (chunkMessage file fileId) l ->
  exists now arrivals,
    Page.run (messages msgs) (Page.init true)
    = receiver_page true now (FileWorkerManager.metadata file fileId) arrivals
        Status.cancelled [RemoveTransfer fileId].
Proof.
  intros Hk Hmsgs.
  apply fmap_cons_inv in Hmsgs as ([now d] & msgs' & Hd & Hmsgs & ->). simpl in Hd. subst d.
  symmetry in Hmsgs.
  apply fmap_app_inv in Hmsgs as (before & rest & Hbefore & Hrest & ->).
  symmetry in Hrest. apply fmap_cons_inv in Hrest as ([nowc d] & after & Hd & Hafter & ->).
  simpl in Hd. subst d. symmetry in Hbefore, Hafter.
  destruct (chunk_messages_events file fileId _ before Hbefore) as (arrivals & Hev1 & Harr1).
  destruct (chunk_messages_events file fileId _ after Hafter) as (later & Hev2 & _).
  exists now, arrivals.
  set (metadata := FileWorkerManager.metadata file fileId).
  change (messages ((now, Metadata metadata) :: before ++ (nowc, Control fileId "cancel") :: after))
    with (Page.data now (Metadata metadata)
          :: messages (before ++ (nowc, Control fileId "cancel") :: after)).
  unfold messages. rewrite map_app. cbn [map fst snd]. fold (messages before) (messages after).
  rewrite Hev1, Hev2.
  change (Page.run (?e :: ?es) ?q) with (Page.run es (Page.step e q)).
  change (Page.step (Page.data now (Metadata metadata)) (Page.init true))
    with (Page.handleData now (Metadata metadata) (Page.init true)).
  rewrite run_app.
  change (chunkEvents fileId arrivals) with (chunkEvents (FileMetadata.id metadata) arrivals).
  rewrite run_incomplete.
  - change (Page.run (?e :: ?es) ?q) with (Page.run es (Page.step e q)).
    assert (Hcancel : Page.step (Page.data nowc (Control fileId "cancel"))
                        (receiver_page true now metadata arrivals Status.transferring [])
                      = receiver_page true now metadata arrivals Status.cancelled
                          [RemoveTransfer fileId]).
    { unfold Page.step, Page.handleData, receiver_page, Page.setStatus, receiving.
      change (String.eqb "cancel" "pause") with false.
      change (String.eqb "cancel" "resume") with false.
      change (String.eqb "cancel" "cancel") with true. cbv iota.
      cbn [Page.activeTransfers map ActiveTransfer.id].
      change (FileMetadata.id metadata) with fileId. by rewrite String.eqb_refl. }
    rewrite Hcancel. apply run_ignored.
    intros t Ht. apply list_elem_of_singleton in Ht as ->. by apply accepts_other_status.
  - unfold arrived_map. rewrite Map_deliver_fresh.
    + unfold Map_size. rewrite Harr1, app_nil_l, length_map, length_seqZ. simpl. lia.
    + rewrite Harr1, blocks_keys. simpl. apply NoDup_seqZ.
Qed.

(** The same page when its own removal runs after [n] messages, the cancel
    message among them: the record is gone, and the chunks that come later
    find no record. *)
Lemma receiver_of_cancelled_removed (file : File.t) (fileId : string) (k n : nat)
    (l : list Z) (msgs : list (Z * PeerData)) :
  Z.of_nat k < FileWorkerManager.totalChunks file ->
  msgs.*2
  = Metadata (FileWorkerManager.metadata file fileId)
    :: map (chunkMessage file fileId) (seqZ 0 (Z.of_nat k))
    ++ Control fileId "cancel" :: map (chunkMessage file fileId) l ->
  (k + 2 <= n)%nat ->
  let peer := Page.run (messages_and_timeout n msgs) (Page.init true) in
  Page.activeTransfers peer = [] /\ Page.posted peer = [] /\ Page.timeouts peer = [].
Proof.
  intros Hk Hmsgs Hn peer. subst peer. unfold messages_and_timeout.
  assert (Hlen : length (map (chunkMessage file fileId) (seqZ 0 (Z.of_nat k))) = k).
  { rewrite length_map, length_seqZ. lia. }
  assert (Htake : (take n msgs).*2
                  = Metadata (FileWorkerManager.metadata file fileId)
                    :: map (chunkMessage file fileId) (seqZ 0 (Z.of_nat k))
                    ++ Control fileId "cancel"
                    :: map (chunkMessage file fileId) (take (n - (k + 2)) l)).
  { rewrite fmap_take, Hmsgs. replace n with (S (k + S (n - (k + 2)))) at 1 by lia.
    cbn [take]. f_equal. rewrite take_app_add' by done. f_equal. cbn [take]. f_equal.
    change (map ?f ?x) with (f <$> x). by rewrite fmap_take. }
  assert (Hdrop : (drop n msgs).*2 = map (chunkMessage file fileId) (drop (n - (k + 2)) l)).
  { rewrite fmap_drop, Hmsgs. replace n with (S (k + S (n - (k + 2)))) at 1 by lia.
    cbn [drop]. rewrite drop_app_add' by done. cbn [drop].
    change (map ?f ?x) with (f <$> x). by rewrite fmap_drop. }
  destruct (receiver_of_cancelled file fileId k _ (take n msgs) Hk Htake)
    as (now & arrivals & Hpeer).
  destruct (chunk_messages_events file fileId _ (drop n msgs) Hdrop) as (later & Hev & _).
  rewrite run_app, Hpeer.
  change (Page.run (?e :: ?es) ?q) with (Page.run es (Page.step e q)).
  rewrite Hev, run_ignored.
  - unfold Page.step, receiver_page. cbn. by rewrite String.eqb_refl.
  - unfold Page.step, receiver_page. cbn. rewrite String.eqb_refl. cbn.
    intros t Ht. by apply elem_of_nil in Ht.
Qed.

(** X18.  Cancelling does not stop a send.  A file of at least one byte is
    sent from a page just mounted, and the cancel button of the transfer is
    pressed after [k] of its chunks have been handed over, at least one being
    outstanding.  The chunker goes on: every remaining chunk is handed to the
    connection after the cancel message, the history gains the sent record and
    the toast says the file was sent.  This is so whether or not the removal
    that the cancel schedules runs while the chunker is at work: if it has not
    run when [onComplete] is called, the cancelled record ends completed at
    100; if it has run, after any number [m] of further chunks, there is no
    record left for [onComplete] to complete.  On the page of the peer, which
    takes the messages in the order sent, the record is cancelled and the
    chunks after the cancel message are dropped; they are dropped as well when
    the removal scheduled there has run before they arrive.  Nothing is posted
    to the worker, so the file the sender reports as sent is never assembled
    there. *)
Theorem cancelled_send_is_reported_sent (readAsArrayBuffer : bytes -> option bytes)
    (worker : bool) (localStorage : option (list TransferRecord.t)) (now now' : Z)
    (file : File.t) (fileId : string) (k : nat) (removal : option nat)
    (transfer : ActiveTransfer.t) :
  (forall b, readAsArrayBuffer b = Some b) ->
  1 <= File.size file ->
  Z.of_nat k < FileWorkerManager.totalChunks file ->
  (forall m : nat, removal = Some m -> Z.of_nat (k + m) <= FileWorkerManager.totalChunks file) ->
  ActiveTransfer.id transfer = fileId ->
  let trace := (FileWorkerManager.chunkFile readAsArrayBuffer file fileId).2 in
  exists s,
    acts (SendFile now file fileId
          :: callbacks now' file fileId now (take (2 * k) trace)
          ++ Press CancelButton transfer
          :: callbacks_and_timeout removal now' file fileId now (drop (2 * k) trace))
      (FilesPage.mount worker localStorage Connection.open true)
    = Some s /\
    FilesPage.sent s
    = Metadata (FileWorkerManager.metadata file fileId)
      :: map (chunkMessage file fileId) (seqZ 0 (Z.of_nat k))
      ++ Control fileId "cancel"
      :: map (chunkMessage file fileId)
           (seqZ (Z.of_nat k) (FileWorkerManager.totalChunks file - Z.of_nat k)) /\
    Page.activeTransfers (FilesPage.page s)
    = match removal with
      | Some _ => []
      | None => [sending file fileId now (number 100) Status.completed]
      end /\
    FilesPage.transferHistory s = default [] localStorage ++ [sentRecord file fileId now' 0] /\
    Page.toasts (FilesPage.page s)
    = [Toast.mk "File Sent" ("File sent successfully: " ++ File.name file) false] /\
    forall msgs : list (Z * PeerData),
      msgs.*2 = FilesPage.sent s ->
      (let peer := Page.run (messages msgs) (Page.init true) in
       map ActiveTransfer.status (Page.activeTransfers peer) = [Status.cancelled] /\
       Page.posted peer = [] /\
       Page.timeouts peer = [RemoveTransfer fileId]) /\
      (forall m : nat,
         let peer := Page.run (messages_and_timeout (k + 2 + m) msgs) (Page.init true) in
         Page.activeTransfers peer = [] /\
         Page.posted peer = [] /\
         Page.timeouts peer = []).
Proof.
  intros reads Hsize Hk Hremoval Hid trace. subst trace.
  rewrite chunkFile_trace by done.
  destruct (trace_split file fileId k ltac:(lia)) as [-> ->].
  cbn [acts act]. rewrite sendFile_mounted by done.
  rewrite acts_app, sender_chunks, bool_decide_eq_true_2 by done. cbn [acts act press].
  assert (Hcancel :
    FilesPage.cancelTransfer transfer
      (sender worker localStorage file fileId now
         (progress_sent file (number 0) (seqZ 0 (Z.of_nat k))) Status.transferring []
         Connection.open true
         ([Metadata (FileWorkerManager.metadata file fileId)]
          ++ map (chunkMessage file fileId) (seqZ 0 (Z.of_nat k))))
    = sender worker localStorage file fileId now
        (progress_sent file (number 0) (seqZ 0 (Z.of_nat k))) Status.cancelled
        [RemoveTransfer fileId] Connection.open true
        (([Metadata (FileWorkerManager.metadata file fileId)]
          ++ map (chunkMessage file fileId) (seqZ 0 (Z.of_nat k)))
         ++ [Control fileId "cancel"])).
  { unfold FilesPage.cancelTransfer, sender. rewrite Hid.
    cbn [FilesPage.connection]. unfold FilesPage.sendData. cbn [FilesPage.connection].
    unfold FilesPage.setActiveTransfers, FilesPage.setTimeout, FilesPage.with_page.
    cbn [FilesPage.page FilesPage.transferHistory FilesPage.localStorage FilesPage.objectURLs
         FilesPage.body FilesPage.deferred FilesPage.connection FilesPage.isConnected
         FilesPage.sent FilesPage.answered Page.activeTransfers Page.maps Page.timeouts
         Page.worker Page.posted Page.toasts app].
    unfold FilesPage.update, sending. cbn [map ActiveTransfer.id].
    by rewrite String.eqb_refl. }
  rewrite Hcancel.
  assert (Hsent : forall (A : Type) (a : A) (l1 l2 : list A) (c : A),
            (([a] ++ l1) ++ [c]) ++ l2 = a :: l1 ++ c :: l2).
  { intros. by rewrite <-!app_assoc. }
  assert (Hpeer : forall s : FilesPage.t,
            FilesPage.sent s
            = Metadata (FileWorkerManager.metadata file fileId)
              :: map (chunkMessage file fileId) (seqZ 0 (Z.of_nat k))
              ++ Control fileId "cancel"
              :: map (chunkMessage file fileId)
                   (seqZ (Z.of_nat k) (FileWorkerManager.totalChunks file - Z.of_nat k)) ->
            forall msgs : list (Z * PeerData),
              msgs.*2 = FilesPage.sent s ->
              (let peer := Page.run (messages msgs) (Page.init true) in
               map ActiveTransfer.status (Page.activeTransfers peer) = [Status.cancelled] /\
               Page.posted peer = [] /\
               Page.timeouts peer = [RemoveTransfer fileId]) /\
              (forall m : nat,
                 let peer := Page.run (messages_and_timeout (k + 2 + m) msgs) (Page.init true) in
                 Page.activeTransfers peer = [] /\
                 Page.posted peer = [] /\
                 Page.timeouts peer = [])).
  { intros s Hs msgs Hmsgs. rewrite Hs in Hmsgs. split.
    - destruct (receiver_of_cancelled file fileId k _ msgs Hk Hmsgs) as (now0 & arrivals & ->).
      by split_and!.
    - intros m. apply (receiver_of_cancelled_removed file fileId k _ _ msgs Hk Hmsgs). lia. }
  destruct removal as [m|]; cbn [callbacks_and_timeout].
  - specialize (Hremoval m eq_refl).
    destruct (chunkCallbacks_split file fileId (Z.of_nat k)
                (FileWorkerManager.totalChunks file - Z.of_nat k) m
                [FileWorkerManager.onComplete] ltac:(lia)) as [-> ->].
    rewrite acts_app, sender_chunks, bool_decide_eq_true_2 by done.
    cbn [acts act]. rewrite sender_timeout_removes.
    rewrite callbacks_app, acts_app, removed_chunks.
    cbn [callbacks map acts act FilesPage.callback].
    match goal with
    | |- context [FilesPage.onComplete now' file fileId
                    (sender_removed worker localStorage ?tm ?c ?ic ?sn)] =>
        destruct (removed_onComplete worker localStorage now' file fileId tm c ic sn)
          as (H1 & H2 & H3 & H4 & H5 & H6 & H7)
    end.
    eexists. split; [reflexivity|].
    assert (Hall : forall (A : Type) (a : A) (l1 l2 l3 : list A) (c : A),
              ((([a] ++ l1) ++ [c]) ++ l2) ++ l3 = a :: l1 ++ c :: l2 ++ l3).
    { intros. by rewrite <-!app_assoc. }
    assert (Hs : FilesPage.sent
                   (FilesPage.onComplete now' file fileId
                      (sender_removed worker localStorage [] Connection.open true
                         (((([Metadata (FileWorkerManager.metadata file fileId)]
                             ++ map (chunkMessage file fileId) (seqZ 0 (Z.of_nat k)))
                            ++ [Control fileId "cancel"])
                           ++ map (chunkMessage file fileId) (seqZ (Z.of_nat k) (Z.of_nat m)))
                          ++ map (chunkMessage file fileId)
                               (seqZ (Z.of_nat k + Z.of_nat m)
                                  (FileWorkerManager.totalChunks file - Z.of_nat k
                                   - Z.of_nat m)))))
                 = Metadata (FileWorkerManager.metadata file fileId)
                   :: map (chunkMessage file fileId) (seqZ 0 (Z.of_nat k))
                   ++ Control fileId "cancel"
                   :: map (chunkMessage file fileId)
                        (seqZ (Z.of_nat k) (FileWorkerManager.totalChunks file - Z.of_nat k))).
    { rewrite H7, Hall, <-map_app. do 4 f_equal.
      replace (FileWorkerManager.totalChunks file - Z.of_nat k)
        with (Z.of_nat m + (FileWorkerManager.totalChunks file - Z.of_nat k - Z.of_nat m))
        at 2 by lia.
      by rewrite seqZ_app by lia. }
    split_and!; [exact Hs|done|done|done|by apply Hpeer].
  - rewrite callbacks_app, acts_app, sender_chunks, bool_decide_eq_true_2 by done.
    cbn [callbacks map acts act FilesPage.callback].
    match goal with
    | |- context [FilesPage.onComplete now' file fileId
                    (sender worker localStorage file fileId now ?p ?st ?tm ?c ?ic ?sn)] =>
        destruct (sender_onComplete worker localStorage now' file fileId now p st tm c ic sn)
          as (H1 & H2 & H3 & H4 & H5 & H6 & H7)
    end.
    eexists. split; [reflexivity|].
    split_and!; [by rewrite H7, Hsent|done|done|done|].
    apply Hpeer. by rewrite H7, Hsent.
Qed.

Lemma cancelled_send_is_reported_sent_witness :
  let file := File.mk "a.txt" "text/plain" [x61; x62] in
  let transfer := sending file "file-a" 0 (number 0) Status.transferring in
  exists s,
    acts (SendFile 0 file "file-a"
          :: Press CancelButton transfer
          :: RunTimeout 0
          :: callbacks 1 file "file-a" 0 (FileWorkerManager.chunkFile Some file "file-a").2)
      (FilesPage.mount true None Connection.open true)
    = Some s /\
    Page.activeTransfers (FilesPage.page s) = [] /\
    FilesPage.transferHistory s = [sentRecord file "file-a" 1 0] /\
    forall msgs : list (Z * PeerData),
      msgs.*2 = FilesPage.sent s ->
      Page.posted (Page.run (messages msgs) (Page.init true)) = [].
Proof.
  intros file transfer.
  destruct (cancelled_send_is_reported_sent Some true None 0 1 file "file-a" 0 (Some 0%nat)
              transfer)
    as (s & H1 & _ & H3 & H4 & _ & H6).
  - reflexivity.
  - vm_compute. discriminate.
  - vm_compute. reflexivity.
  - intros m [= <-]. vm_compute. discriminate.
  - reflexivity.
  - exists s. split_and!; [exact H1 | exact H3 | exact H4 |].
    intros msgs Hmsgs. by destruct (H6 msgs Hmsgs) as [(_ & ? & _) _].
Defined.

(** ** Losing the connection while sending *)

(** X19.  A send that loses its connection is reported as sent.  A file of at
    least one byte is sent from a page just mounted, and the connection
    closes after [k] of its chunks have been handed over, at least one being
    outstanding.  The chunker goes on: the remaining chunks are dropped
    without a toast, the record ends completed at 100, the history gains the
    sent record and the only toast says the file was sent.  The page of the
    peer, which has taken everything that was sent, shows the transfer as
    transferring, with nothing posted to the worker and no timeout pending. *)
Theorem lost_connection_is_reported_sent (readAsArrayBuffer : bytes -> option bytes)
    (worker : bool) (localStorage : option (list TransferRecord.t)) (now now' : Z)
    (file : File.t) (fileId : string) (k : nat) :
  (forall b, readAsArrayBuffer b = Some b) ->
  1 <= File.size file ->
  Z.of_nat k < FileWorkerManager.totalChunks file ->
  let trace := (FileWorkerManager.chunkFile readAsArrayBuffer file fileId).2 in
  exists s,
    acts (SendFile now file fileId
          :: callbacks now' file fileId now (take (2 * k) trace)
          ++ ConnectionCloses
          :: callbacks now' file fileId now (drop (2 * k) trace))
      (FilesPage.mount worker localStorage Connection.open true)
    = Some s /\
    FilesPage.sent s
    = Metadata (FileWorkerManager.metadata file fileId)
      :: map (chunkMessage file fileId) (seqZ 0 (Z.of_nat k)) /\
    Page.activeTransfers (FilesPage.page s)
    = [sending file fileId now (number 100) Status.completed] /\
    FilesPage.transferHistory s = default [] localStorage ++ [sentRecord file fileId now' 0] /\
    Page.toasts (FilesPage.page s)
    = [Toast.mk "File Sent" ("File sent successfully: " ++ File.name file) false] /\
    forall msgs : list (Z * PeerData),
      msgs.*2 = FilesPage.sent s ->
      let peer := Page.run (messages msgs) (Page.init true) in
      map ActiveTransfer.status (Page.activeTransfers peer) = [Status.transferring] /\
      Page.posted peer = [] /\
      Page.timeouts peer = [].
Proof.
  intros reads Hsize Hk trace. subst trace.
  rewrite chunkFile_trace by done.
  destruct (trace_split file fileId k ltac:(lia)) as [-> ->].
  cbn [acts act]. rewrite sendFile_mounted by done.
  rewrite acts_app, sender_chunks, bool_decide_eq_true_2 by done. cbn [acts act].
  change (FilesPage.connectionClosed
            (sender worker localStorage file fileId now ?p ?st ?tm Connection.open true ?sn))
    with (sender worker localStorage file fileId now p st tm Connection.null false sn).
  rewrite callbacks_app, acts_app, sender_chunks, bool_decide_eq_false_2 by done.
  cbn [callbacks map acts act FilesPage.callback].
  match goal with
  | |- context [FilesPage.onComplete now' file fileId
                  (sender worker localStorage file fileId now ?p ?st ?tm ?c ?ic ?sn)] =>
      destruct (sender_onComplete worker localStorage now' file fileId now p st tm c ic sn)
        as (H1 & H2 & H3 & H4 & H5 & H6 & H7)
  end.
  eexists. split; [reflexivity|].
  split_and!; [by rewrite H7|done|done|done|].
  intros msgs Hmsgs. rewrite H7 in Hmsgs. cbn [app] in Hmsgs.
  apply fmap_cons_inv in Hmsgs as ([now0 d] & msgs' & Hd & Hmsgs & ->). simpl in Hd. subst d.
  symmetry in Hmsgs.
  destruct (chunk_messages_events file fileId _ msgs' Hmsgs) as (arrivals & Hev & Harr).
  set (metadata := FileWorkerManager.metadata file fileId).
  change (messages ((now0, Metadata metadata) :: msgs'))
    with (Page.data now0 (Metadata metadata) :: messages msgs').
  rewrite Hev.
  change (Page.run (?e :: ?es) ?q) with (Page.run es (Page.step e q)).
  change (Page.step (Page.data now0 (Metadata metadata)) (Page.init true))
    with (Page.handleData now0 (Metadata metadata) (Page.init true)).
  change (chunkEvents fileId arrivals) with (chunkEvents (FileMetadata.id metadata) arrivals).
  rewrite run_incomplete; [done|].
  unfold arrived_map. rewrite Map_deliver_fresh.
  - unfold Map_size. rewrite Harr, app_nil_l, length_map, length_seqZ. simpl. lia.
  - rewrite Harr, blocks_keys. simpl. apply NoDup_seqZ.
Qed.

Lemma lost_connection_is_reported_sent_witness :
  let file := File.mk "a.txt" "text/plain" [x61; x62] in
  exists s,
    acts (SendFile 0 file "file-a"
          :: ConnectionCloses
          :: callbacks 1 file "file-a" 0 (FileWorkerManager.chunkFile Some file "file-a").2)
      (FilesPage.mount true None Connection.open true)
    = Some s /\
    FilesPage.sent s = [Metadata (FileWorkerManager.metadata file "file-a")] /\
    FilesPage.transferHistory s = [sentRecord file "file-a" 1 0].
Proof.
  intros file.
  destruct (lost_connection_is_reported_sent Some true None 0 1 file "file-a" 0)
    as (s & H1 & H2 & _ & H4 & _).
  - reflexivity.
  - vm_compute. discriminate.
  - vm_compute. reflexivity.
  - exists s. split_and!; [exact H1 | exact H2 | exact H4].
Defined.
